(** * Uber trip dashboard: the data pipeline of [uber_dashboard.py]

    A shallow embedding of the load-and-clean step ([load_data]), of the
    sidebar filter ([apply_filters]), of the key figures
    ([create_kpi_metrics]), of the grouped sums behind the charts
    ([create_donut_chart], [create_trend_chart], [create_location_chart])
    and of the summary per vehicle type ([create_vehicle_summary_table]),
    with the properties of the pipeline proved over it.

    Modelling conventions.
    - A pandas [DataFrame] is its column labels and its rows; a row is the
      list of its cells, one per label, in label order.  A label is resolved
      to its first position: the model is that of frames whose labels are
      distinct (in pandas a label that occurs twice selects a frame, not a
      column).
    - A cell is dynamically typed, as a Python object is: missing ([NaN],
      which also stands for [NaT]), a number, a string or a timestamp.  A
      date column holds timestamps and missing values (dtype [datetime64]).
    - Numbers are whole numbers and their sums are exact.  float64 agrees
      with them as long as the absolute values of a column add up to at most
      2^53 ([sums_exactly]), which the statements that compare sums added
      in different orders or groupings assume.  Means and roundings are
      computed on binary64.  Timestamps are nanoseconds since the epoch,
      calendar days are day numbers since the epoch.
    - Code that raises returns [Raise e]; the [try]/[except] of [load_data]
      turns every [Raise] into the empty frame.
    - What pandas and numpy leave to their version or to the machine is a
      parameter: the parsers and printers of scalars ([Conversions]) and
      the sorting algorithm of [sort_values] ([SortKind]).
    - Plotly figures are represented by the table they are built from.
    - [main] is not modelled: it is the Streamlit page (widgets, formatted
      text) around the functions above. *)

From Stdlib Require Import ZArith Lia Ascii String.
From Stdlib Require Floats.SpecFloat.
From stdpp Require Import base list strings gmap sorting pretty.

Local Open Scope Z_scope.

(** ** Python values and exceptions *)

Inductive Cell : Type :=
  | NaN                     (* missing value: float NaN, None, NaT *)
  | Num (z : Z)             (* int64 / float64 *)
  | Str (s : string)        (* Python str in an object column *)
  | Time (t : Z).           (* pandas Timestamp, ns since the epoch *)

Global Instance Cell_eq_dec : EqDecision Cell.
Proof. solve_decision. Defined.

Global Instance Cell_inhabited : Inhabited Cell := populate NaN.

Inductive exn : Type :=
  | KeyError (label : string)
  | ValueError
  | TypeError
  | AttributeError
  | FileNotFoundError.

Inductive result (A : Type) : Type :=
  | Ok (a : A)
  | Raise (e : exn).
Arguments Ok {A} a.
Arguments Raise {A} e.

(** The value of a computation, the exception forgotten. *)
Definition ok_value {A} (r : result A) : option A :=
  match r with
  | Ok a => Some a
  | Raise _ => None
  end.

Global Instance result_ret : MRet result := λ A a, Ok a.
Global Instance result_bind : MBind result := λ A B f m,
  match m with
  | Ok a => f a
  | Raise e => Raise e
  end.

(** [traverse f l] evaluates [f] on the elements from left to right and
    stops at the first one that raises. *)
Fixpoint traverse {A B} (f : A → result B) (l : list A) : result (list B) :=
  match l with
  | [] => Ok []
  | x :: l => y ← f x; ys ← traverse f l; Ok (y :: ys)
  end.

Definition isna (c : Cell) : bool :=
  match c with NaN => true | _ => false end.
Definition notna (c : Cell) : bool := negb (isna c).

(** ** Frames *)

Definition Series : Type := list Cell.

Record DataFrame : Type := mkFrame {
  columns : list string;
  rows : list (list Cell)
}.

(** [pd.DataFrame()] *)
Definition DataFrame_empty : DataFrame := mkFrame [] [].

(** [df.empty]: some axis has length zero. *)
Definition empty (df : DataFrame) : bool :=
  bool_decide (columns df = []) || bool_decide (rows df = []).

(** [df.columns.get_loc(label)] *)
Definition get_loc (df : DataFrame) (label : string) : result nat :=
  match list_find (λ c, c = label) (columns df) with
  | Some (i, _) => Ok i
  | None => Raise (KeyError label)
  end.

Definition column_at (i : nat) (rs : list (list Cell)) : Series :=
  (λ r, r !!! i) <$> rs.

(** [df[label]] *)
Definition getitem (df : DataFrame) (label : string) : result Series :=
  i ← get_loc df label; Ok (column_at i (rows df)).

(** [df[label] = s], for a series [s] computed from [df] itself (so its
    index is the frame's): an existing column is overwritten in place, a new
    label is appended as the last column. *)
Definition setitem (df : DataFrame) (label : string) (s : Series) : DataFrame :=
  match list_find (λ c, c = label) (columns df) with
  | Some (i, _) =>
      mkFrame (columns df) (zip_with (λ r v, <[i:=v]> r) (rows df) s)
  | None =>
      mkFrame (columns df ++ [label]) (zip_with (λ r v, r ++ [v]) (rows df) s)
  end.

(** [df[mask]] for a boolean series [mask]. *)
Fixpoint select {A} (l : list A) (mask : list bool) : list A :=
  match l, mask with
  | x :: l, b :: mask => if b then x :: select l mask else select l mask
  | _, _ => []
  end.

Definition loc (df : DataFrame) (mask : list bool) : DataFrame :=
  mkFrame (columns df) (select (rows df) mask).

(** [df.dropna(subset=[label])] *)
Definition dropna (df : DataFrame) (label : string) : result DataFrame :=
  s ← getitem df label; Ok (loc df (notna <$> s)).

(** [s.fillna(value)] *)
Definition fillna (value : Cell) (c : Cell) : Cell :=
  if isna c then value else c.

(** [s == value] for a string [value], cell by cell. *)
Definition eq_str (value : string) (c : Cell) : bool :=
  match c with
  | Str s => bool_decide (s = value)
  | _ => false
  end.

(** ** Strings *)

(** Python's [str.strip()] with no argument, on a string of ASCII
    characters: white space is removed at both ends.  (The white space that
    Unicode has beyond ASCII, which Python removes as well, is not
    modelled.) *)
Definition py_isspace (c : ascii) : bool :=
  let n := nat_of_ascii c in
  bool_decide (n = 32 ∨ 9 ≤ n ≤ 13 ∨ 28 ≤ n ≤ 31)%nat.

Fixpoint lstrip (s : string) : string :=
  match s with
  | String c s' => if py_isspace c then lstrip s' else s
  | EmptyString => EmptyString
  end.

Definition strip (s : string) : string :=
  String.rev (lstrip (String.rev (lstrip s))).

(** [s.replace(c, '')] for a one-character pattern [c]. *)
Fixpoint remove_char (c : ascii) (s : string) : string :=
  match s with
  | String c' s' =>
      if bool_decide (c' = c) then remove_char c s'
      else String c' (remove_char c s')
  | EmptyString => EmptyString
  end.

Definition quote_char : ascii := ascii_of_nat 34.

(** A string of ASCII white space only. *)
Fixpoint blank (s : string) : bool :=
  match s with
  | EmptyString => true
  | String c s' => py_isspace c && blank s'
  end.

(** A string of ASCII characters. *)
Definition ascii_only (s : string) : bool :=
  forallb (λ c, bool_decide (nat_of_ascii c < 128)%nat) (list_ascii_of_string s).

(** A string from which [lstrip] removes nothing: it is empty, or its first
    character is not white space. *)
Definition starts_clean (s : string) : bool :=
  match s with
  | EmptyString => true
  | String c _ => negb (py_isspace c)
  end.

(** ** The conversions of the library

    pandas' scalar parsers and printers are not part of the program; the
    model takes them as a parameter.
    - [str_to_datetime col s]: how [pd.to_datetime] reads the string [s] of
      the column [col] (pandas may infer one format from the column and
      read every string against it): [None] when it cannot parse [s] (it
      raises, [errors='raise'] being the default), [Some None] for the
      spellings of NaT, [Some (Some t)] for a date.
    - [str_to_numeric s]: the number [pd.to_numeric] reads in [s], if any.
    - [num_to_str], [datetime_to_str]: [str(x)].
    - [na_to_str]: what [astype(str)] makes of a missing value: the text
      ['nan'] up to pandas 2 ([Some "nan"]); since pandas 3 the value stays
      missing ([None]). *)
Record Conversions : Type := mkConversions {
  str_to_datetime : Series → string → option (option Z);
  str_to_numeric : string → option Z;
  num_to_str : Z → string;
  datetime_to_str : Z → string;
  na_to_str : option string
}.

Section Normalizer.
Context (conv : Conversions).

(** [pd.to_datetime(col)], one element of the column [col] (default
    [errors='raise'], [unit='ns']). *)
Definition to_datetime_scalar (col : Series) (c : Cell) : result Cell :=
  match c with
  | NaN => Ok NaN
  | Num z => Ok (Time z)
  | Time t => Ok (Time t)
  | Str s =>
      match str_to_datetime conv col s with
      | Some (Some t) => Ok (Time t)
      | Some None => Ok NaN
      | None => Raise ValueError
      end
  end.

Definition to_datetime (s : Series) : result Series :=
  traverse (to_datetime_scalar s) s.

(** [pd.to_numeric(s, errors='coerce')], one element. *)
Definition to_numeric_coerce (c : Cell) : Cell :=
  match c with
  | NaN => NaN
  | Num z => Num z
  | Time t => Num t
  | Str s =>
      match str_to_numeric conv s with
      | Some z => Num z
      | None => NaN
      end
  end.

(** [s.astype(str)], one element. *)
Definition astype_str (c : Cell) : Cell :=
  match c with
  | NaN => from_option Str NaN (na_to_str conv)
  | Num z => Str (num_to_str conv z)
  | Str s => Str s
  | Time t => Str (datetime_to_str conv t)
  end.

(** [s.str.replace(q, '')] for the double quote [q], one element: what is
    not a string is missing in the result. *)
Definition str_replace_quote (c : Cell) : Cell :=
  match c with
  | Str s => Str (remove_char quote_char s)
  | _ => NaN
  end.

(** The rename table of [load_data]. *)
Definition column_mapping : gmap string string :=
  list_to_map [
    ("Booking ID", "trip_id");
    ("Date", "date");
    ("Pickup Location", "pickup");
    ("Drop Location", "dropoff");
    ("Booking Value", "fare");
    ("Ride Distance", "distance_miles");
    ("Vehicle Type", "vehicle_type");
    ("Payment Method", "payment_type");
    ("Avg CTAT", "duration_min")
  ].

(** [df.rename(columns=mapping)]: labels absent from the mapping are left
    as they are. *)
Definition rename_label (mapping : gmap string string) (c : string) : string :=
  default c (mapping !! c).

Definition rename (mapping : gmap string string) (df : DataFrame) : DataFrame :=
  mkFrame (rename_label mapping <$> columns df) (rows df).

(** The body of the [try] block of [load_data]; [read_csv] is the outcome
    of [pd.read_csv('data/ncr_ride_bookings.csv')]. *)
Definition load_data_try (read_csv : result DataFrame) : result DataFrame :=
  df ← read_csv;
  let df := mkFrame (strip <$> columns df) (rows df) in
  let df := rename column_mapping df in
  date ← getitem df "date";
  date ← to_datetime date;
  let df := setitem df "date" date in
  status ← getitem df "Booking Status";
  let df := loc df (eq_str "Completed" <$> status) in
  fare ← getitem df "fare";
  let df := setitem df "fare" (to_numeric_coerce <$> fare) in
  distance ← getitem df "distance_miles";
  let df := setitem df "distance_miles" (to_numeric_coerce <$> distance) in
  duration ← getitem df "duration_min";
  let df := setitem df "duration_min" (to_numeric_coerce <$> duration) in
  df ← dropna df "fare";
  trip ← getitem df "trip_id";
  let df := setitem df "trip_id"
              ((λ c, str_replace_quote (astype_str c)) <$> trip) in
  pickup ← getitem df "pickup";
  let df := setitem df "pickup" (fillna (Str "Unknown") <$> pickup) in
  dropoff ← getitem df "dropoff";
  let df := setitem df "dropoff" (fillna (Str "Unknown") <$> dropoff) in
  payment ← getitem df "payment_type";
  let df := setitem df "payment_type" (fillna (Str "Unknown") <$> payment) in
  vehicle ← getitem df "vehicle_type";
  let df := setitem df "vehicle_type" (fillna (Str "Unknown") <$> vehicle) in
  Ok df.

(** [load_data]: any exception is reported and the empty frame returned. *)
Definition load_data (read_csv : result DataFrame) : DataFrame :=
  match load_data_try read_csv with
  | Ok df => df
  | Raise _ => DataFrame_empty
  end.

End Normalizer.

(** ** The filter engine *)

Definition ns_per_day : Z := 86400000000000.

(** [s.dt.date], one element: the calendar day of a timestamp, NaT for a
    missing one; the accessor is refused on anything else. *)
Definition dt_date_scalar (c : Cell) : result (option Z) :=
  match c with
  | Time t => Ok (Some (t `div` ns_per_day))
  | NaN => Ok None
  | Num _ | Str _ => Raise AttributeError
  end.

Definition dt_date (s : Series) : result (list (option Z)) :=
  traverse dt_date_scalar s.

(** [(d >= start_date) & (d <= end_date)]: a comparison with NaT is false. *)
Definition in_range (start_date end_date : Z) (d : option Z) : bool :=
  match d with
  | Some d => bool_decide (start_date ≤ d) && bool_decide (d ≤ end_date)
  | None => false
  end.

(** [s.isin(values)], one element, for a list of strings. *)
Definition isin (values : list string) (c : Cell) : bool :=
  match c with
  | Str s => bool_decide (s ∈ values)
  | _ => false
  end.

(** The series that [s.dt.date] builds is of dtype [object] when it is empty
    or holds a day; when it has elements and all of them are NaT, pandas
    infers [datetime64] for it. *)
Definition all_nat (days : list (option Z)) : bool :=
  bool_decide (days ≠ []) && forallb (λ d, bool_decide (d = None)) days.

(** [(days >= start_date) & (days <= end_date)] for two [datetime.date]:
    cell by cell on a series of dtype [object], refused with a [TypeError]
    on a series of dtype [datetime64]. *)
Definition compare_days (start_date end_date : Z) (days : list (option Z))
    : result (list bool) :=
  if all_nat days then Raise TypeError
  else Ok (in_range start_date end_date <$> days).

(** The date block of [apply_filters]; [date_range] is the tuple given by
    the date widget, [[]] standing for an empty tuple or [None]. *)
Definition filter_date (date_range : list Z) (df : DataFrame) : result DataFrame :=
  match date_range with
  | [] => Ok df
  | [start_date; end_date] =>
      date ← getitem df "date";
      days ← dt_date date;
      mask ← compare_days start_date end_date days;
      Ok (loc df mask)
  | _ => Raise ValueError
  end.

(** One of the three selection blocks of [apply_filters]:
    [if flt and 'All' not in flt: df = df[df[label].isin(flt)]]. *)
Definition filter_isin (label : string) (flt : list string) (df : DataFrame)
    : result DataFrame :=
  if bool_decide (flt ≠ []) && bool_decide ("All" ∉ flt) then
    s ← getitem df label; Ok (loc df (isin flt <$> s))
  else Ok df.

Definition apply_filters (df : DataFrame) (date_range : list Z)
    (pickup_filter dropoff_filter vehicle_filter : list string) : result DataFrame :=
  let filtered_df := df in
  filtered_df ← filter_date date_range filtered_df;
  filtered_df ← filter_isin "pickup" pickup_filter filtered_df;
  filtered_df ← filter_isin "dropoff" dropoff_filter filtered_df;
  filtered_df ← filter_isin "vehicle_type" vehicle_filter filtered_df;
  Ok filtered_df.

(** ** The aggregator *)

(** The number a cell contributes to a sum: pandas sums skip missing
    values. *)
Definition cell_value (c : Cell) : Z :=
  match c with
  | Num z => z
  | _ => 0
  end.

(** [s.sum()] *)
Definition sum_cells (s : Series) : Z := foldr (λ c acc, cell_value c + acc) 0 s.

(** The sum of a list of numbers. *)
Definition sum_Z (l : list Z) : Z := foldr Z.add 0 l.

(** [s.count()]: the number of values that are not missing. *)
Definition count_cells (s : Series) : nat := length (filter (λ c, notna c) s).

(** ** float64

    pandas computes on float64 (IEEE 754 binary64).  The sums of the model
    are exact sums of whole numbers.  They are what float64 computes, in
    whatever order and grouping it adds, when no partial sum can leave the
    range of the whole numbers that float64 holds exactly, which ends at
    2^53 ([sums_exactly]); int64 sums do not wrap around in that range
    either.  Quotients and roundings are computed on binary64 itself, with
    the operations of the Standard Library ([SpecFloat]). *)
Definition f64 : Type := SpecFloat.spec_float.

Definition f64_zero : f64 := SpecFloat.S754_zero false.
Definition f64_of_Z (z : Z) : f64 := SpecFloat.binary_normalize 53 1024 z 0 false.
Definition f64_add : f64 → f64 → f64 := SpecFloat.SFadd 53 1024.
Definition f64_sub : f64 → f64 → f64 := SpecFloat.SFsub 53 1024.
Definition f64_mul : f64 → f64 → f64 := SpecFloat.SFmul 53 1024.
Definition f64_div : f64 → f64 → f64 := SpecFloat.SFdiv 53 1024.

(** [np.rint]: the nearest whole number, the even one of two that are
    equally near. *)
Definition f64_rint (x : f64) : f64 :=
  match x with
  | SpecFloat.S754_finite s m e =>
      if bool_decide (0 ≤ e) then x
      else
        let q := Z.pos m `div` 2 ^ (- e) in
        let r := Z.pos m `mod` 2 ^ (- e) in
        let half := 2 ^ (- e - 1) in
        let n := if bool_decide (r < half) then q
                 else if bool_decide (half < r) then q + 1
                 else if Z.even q then q else q + 1 in
        if bool_decide (n = 0) then SpecFloat.S754_zero s
        else SpecFloat.binary_normalize 53 1024 (if s then - n else n) 0 s
  | _ => x
  end.

(** [x.round(2)], as numpy computes it: [rint(x * 100) / 100]. *)
Definition f64_round_2 (x : f64) : f64 :=
  f64_div (f64_rint (f64_mul x (f64_of_Z 100))) (f64_of_Z 100).

(** [s.mean()]: the sum of the values that are not missing over their
    number; NaN when there is none. *)
Definition mean_cells (s : Series) : f64 :=
  f64_div (f64_of_Z (sum_cells s)) (f64_of_Z (Z.of_nat (count_cells s))).

(** A cell of a numeric column: a number, or missing. *)
Definition numeric_or_null (c : Cell) : Prop :=
  match c with
  | NaN | Num _ => True
  | Str _ | Time _ => False
  end.

Global Instance numeric_or_null_dec c : Decision (numeric_or_null c).
Proof. destruct c; simpl; apply _. Defined.

(** A numeric column, the absolute values of whose numbers add up to at
    most [bound]. *)
Definition within (bound : Z) (s : Series) : Prop :=
  Forall numeric_or_null s ∧ sum_Z ((λ c, Z.abs (cell_value c)) <$> s) ≤ bound.

Global Instance within_dec bound s : Decision (within bound s).
Proof. unfold within. apply _. Defined.

(** The float64 sums over the column are exact ... *)
Definition sums_exactly (s : Series) : Prop := within (2 ^ 53) s.

(** ... and so is their rounding to two decimals, which multiplies them by
    100. *)
Definition rounds_exactly (s : Series) : Prop := within (2 ^ 53 `div` 100) s.

Global Instance sums_exactly_dec s : Decision (sums_exactly s) := within_dec _ s.
Global Instance rounds_exactly_dec s : Decision (rounds_exactly s) := within_dec _ s.

(** A decidable statement about concrete data holds by evaluation. *)
Ltac by_evaluation := apply (bool_decide_unpack _); by vm_compute.

(** [s.sum()] on fewer than eight float64 values: numpy adds them from left
    to right (longer arrays are added by blocks). *)
Definition f64_sum (xs : list f64) : f64 := foldl f64_add f64_zero xs.

(** The sum of one group in [groupby(...).sum()]: pandas adds the values of
    the group in the order of the rows, with Kahan's compensation. *)
Definition f64_group_sum (xs : list f64) : f64 :=
  (foldl (λ acc val,
            let y := f64_sub val acc.2 in
            let t := f64_add acc.1 y in
            (t, f64_sub (f64_sub t acc.1) y))
         (f64_zero, f64_zero) xs).1.

(** [create_kpi_metrics]: the five key figures.  For an empty frame they
    are the integer 0. *)
Record Kpi : Type := mkKpi {
  total_bookings : nat;
  total_booking_value : Z;
  avg_booking_value : f64;
  total_distance : Z;
  avg_duration : f64
}.

Definition create_kpi_metrics (df : DataFrame) : result Kpi :=
  if empty df then Ok (mkKpi 0 0 f64_zero 0 f64_zero)
  else
    fare ← getitem df "fare";
    distance ← getitem df "distance_miles";
    duration ← getitem df "duration_min";
    Ok (mkKpi (length (rows df)) (sum_cells fare) (mean_cells fare)
              (sum_cells distance) (mean_cells duration)).

(** The order in which [groupby] sorts the keys of an object column:
    numbers, then timestamps, then strings. *)
Definition cell_le (a b : Cell) : Prop :=
  match a, b with
  | NaN, _ => True
  | _, NaN => False
  | Num x, Num y => x ≤ y
  | Num _, _ => True
  | _, Num _ => False
  | Time x, Time y => x ≤ y
  | Time _, _ => True
  | _, Time _ => False
  | Str s, Str t => String.le s t
  end.

Global Instance cell_le_dec : RelDecision cell_le.
Proof. intros [] []; simpl; apply _. Defined.

(** The key of a row for [groupby]: rows with a missing key are left out
    ([dropna=True]). *)
Definition group_key (c : Cell) : option Cell :=
  if isna c then None else Some c.

Section GroupBy.
Context {K : Type} `{EqDecision K} (R : relation K) `{∀ x y, Decision (R x y)}.

(** The distinct keys, sorted ([sort=True]). *)
Definition group_keys (keys : list (option K)) : list K :=
  merge_sort R (remove_dups (omap id keys)).

(** The sum of the values of the rows of one group. *)
Definition group_total (keys : list (option K)) (vals : Series) (k : K) : Z :=
  sum_cells (select vals ((λ k', bool_decide (k' = Some k)) <$> keys)).

(** [df.groupby(keys)[col].sum().reset_index()] *)
Definition groupby_sum (keys : list (option K)) (vals : Series) : list (K * Z) :=
  (λ k, (k, group_total keys vals k)) <$> group_keys keys.
End GroupBy.

(** The values of the rows of one group, in the order of the rows. *)
Definition group_values {K} `{EqDecision K} (keys : list (option K))
    (vals : Series) (k : K) : Series :=
  select vals ((λ k', bool_decide (k' = Some k)) <$> keys).

(** [create_donut_chart]: the table [value_counts] given to the pie chart
    (no table for an empty frame). *)
Definition create_donut_chart (df : DataFrame) (column : string)
    : result (list (Cell * Z)) :=
  if empty df then Ok []
  else
    keys ← getitem df column;
    fare ← getitem df "fare";
    Ok (groupby_sum cell_le (group_key <$> keys) fare).

(** [create_trend_chart]: the table [daily_revenue]. *)
Definition create_trend_chart (df : DataFrame) : result (list (Z * Z)) :=
  if empty df then Ok []
  else
    date ← getitem df "date";
    days ← dt_date date;
    fare ← getitem df "fare";
    Ok (groupby_sum Z.le days fare).

(** A sorting algorithm of numpy, as [argsort] gives it: the positions of
    the input in ascending order of the values.  Nothing more is promised
    for the [kind] that [sort_values] uses by default ('quicksort'): the
    order of positions with equal values is the algorithm's own. *)
Record SortKind : Type := mkSortKind {
  argsort : list Z → list nat;
  argsort_perm : ∀ xs, argsort xs ≡ₚ seq 0 (length xs);
  argsort_sorted : ∀ xs, Sorted Z.le ((λ i, xs !!! i) <$> argsort xs)
}.

(** [t.sort_values(col, ascending=False)] on a table whose column [col] is
    [snd], the way pandas computes it: the values are reversed, sorted in
    ascending order by positions, and the positions reversed again. *)
Definition sort_values_desc {K} `{Inhabited K} (kind : SortKind) (t : list (K * Z))
    : list (K * Z) :=
  let non_nans := reverse (snd <$> t) in
  let non_nan_idx := reverse (seq 0 (length t)) in
  let indexer := (λ i, non_nan_idx !!! i) <$> argsort kind non_nans in
  let indexer := reverse indexer in
  (λ i, t !!! i) <$> indexer.

(** [create_location_chart]: the table [location_revenue]. *)
Definition create_location_chart (kind : SortKind) (df : DataFrame)
    (location_type : string) : result (list (Cell * Z)) :=
  if empty df then Ok []
  else
    keys ← getitem df location_type;
    fare ← getitem df "fare";
    let location_revenue := groupby_sum cell_le (group_key <$> keys) fare in
    let location_revenue := sort_values_desc kind location_revenue in
    Ok (take 10 location_revenue).

(** [t.sort_values(col, ascending=False)] on a table whose rows have any
    shape, [by_col] giving the number a row has in the column [col]; computed
    as [sort_values_desc] is. *)
Definition sort_rows_desc {A} `{Inhabited A} (kind : SortKind) (by_col : A → Z)
    (t : list A) : list A :=
  let non_nans := reverse (by_col <$> t) in
  let non_nan_idx := reverse (seq 0 (length t)) in
  let indexer := (λ i, non_nan_idx !!! i) <$> argsort kind non_nans in
  let indexer := reverse indexer in
  (λ i, t !!! i) <$> indexer.

(** A row of the table [vehicle_summary], with the four columns it has once
    the index is reset. *)
Record SummaryRow : Type := mkSummaryRow {
  vehicle_type : Cell;
  Total_Bookings : nat;
  Total_Value : Z;
  Avg_Fare : f64
}.

Global Instance SummaryRow_inhabited : Inhabited SummaryRow :=
  populate (mkSummaryRow NaN 0 0 f64_zero).

(** [create_vehicle_summary_table]: the rows of the table it returns (none
    for an empty frame, for which it returns [pd.DataFrame()]).  Per vehicle
    type: the number of trip ids that are not missing, the sum of the fares
    and their mean, rounded to two decimals.  [round(2)] leaves the counts,
    which are integers, as they are, and the sums too when they are whole
    numbers in the range of [rounds_exactly].  A missing aggregated column is
    reported by a [KeyError] that names it (pandas names all the missing ones
    in one message). *)
Definition create_vehicle_summary_table (kind : SortKind) (df : DataFrame)
    : result (list SummaryRow) :=
  if empty df then Ok []
  else
    keys ← getitem df "vehicle_type";
    trip_id ← getitem df "trip_id";
    fare ← getitem df "fare";
    let keys := group_key <$> keys in
    let vehicle_summary :=
      (λ k, mkSummaryRow k (count_cells (group_values keys trip_id k))
                         (sum_cells (group_values keys fare k))
                         (f64_round_2 (mean_cells (group_values keys fare k))))
      <$> group_keys cell_le keys in
    Ok (sort_rows_desc kind Total_Value vehicle_summary).

(** [groupby(keys)[col].sum().reset_index()] on float64 values. *)
Definition groupby_sum_f64 (keys : list (option Cell)) (vals : list f64)
    : list (Cell * f64) :=
  (λ k, (k, f64_group_sum
              (select vals ((λ k', bool_decide (k' = Some k)) <$> keys))))
  <$> group_keys cell_le keys.

(** ** The load, row by row

    [load_data] works column by column.  Its effect on one row is described
    here: the positions of the ten labels it reads ([layout]), the rows it
    keeps ([keep_row]) and what it makes of a kept row ([clean_row]). *)

(** The position of a label, if the frame has it. *)
Definition find_label (cols : list string) (label : string) : option nat :=
  fst <$> list_find (λ c, c = label) cols.

(** The positions of the ten labels that [load_data] reads. *)
Record Layout : Type := mkLayout {
  date_i : nat; status_i : nat; fare_i : nat; distance_i : nat;
  duration_i : nat; trip_i : nat; pickup_i : nat; dropoff_i : nat;
  payment_i : nat; vehicle_i : nat
}.

Definition layout_labels : list string :=
  ["date"; "Booking Status"; "fare"; "distance_miles"; "duration_min";
   "trip_id"; "pickup"; "dropoff"; "payment_type"; "vehicle_type"].

Definition layout_indices (lay : Layout) : list nat :=
  [date_i lay; status_i lay; fare_i lay; distance_i lay; duration_i lay;
   trip_i lay; pickup_i lay; dropoff_i lay; payment_i lay; vehicle_i lay].

Definition layout (cols : list string) : option Layout :=
  d ← find_label cols "date";
  s ← find_label cols "Booking Status";
  f ← find_label cols "fare";
  di ← find_label cols "distance_miles";
  du ← find_label cols "duration_min";
  t ← find_label cols "trip_id";
  p ← find_label cols "pickup";
  dr ← find_label cols "dropoff";
  pa ← find_label cols "payment_type";
  v ← find_label cols "vehicle_type";
  Some (mkLayout d s f di du t p dr pa v).

(** The labels of the canonical frame: trimmed, then renamed. *)
Definition canonical_columns (raw : DataFrame) : list string :=
  rename_label column_mapping <$> (strip <$> columns raw).

(** [r[i] = f(r[i])] on one row. *)
Definition upd (i : nat) (f : Cell → Cell) (r : list Cell) : list Cell :=
  <[i := f (r !!! i)]> r.

(** The cell of a row under a label of the frame. *)
Definition cell (df : DataFrame) (label : string) (r : list Cell) : result Cell :=
  i ← get_loc df label; Ok (r !!! i).

Section RowWise.
Context (conv : Conversions).

(** The date conversion does not raise on this cell of the column. *)
Definition date_ok (col : Series) (c : Cell) : bool :=
  match to_datetime_scalar conv col c with
  | Ok _ => true
  | Raise _ => false
  end.

(** The converted date of a cell on which the conversion does not raise. *)
Definition to_datetime_total (col : Series) (c : Cell) : Cell :=
  match to_datetime_scalar conv col c with
  | Ok v => v
  | Raise _ => c
  end.

(** [astype(str)] followed by the removal of the quote characters. *)
Definition clean_trip_id (c : Cell) : Cell :=
  str_replace_quote (astype_str conv c).

(** A raw row is kept when its status is "Completed" and its fare is read
    as a number. *)
Definition keep_row (lay : Layout) (r : list Cell) : bool :=
  eq_str "Completed" (r !!! status_i lay)
  && notna (to_numeric_coerce conv (r !!! fare_i lay)).

(** The canonical form of a kept row, [col] being the date column of the
    raw frame. *)
Definition clean_row (col : Series) (lay : Layout) (r : list Cell) : list Cell :=
  upd (vehicle_i lay) (fillna (Str "Unknown"))
    (upd (payment_i lay) (fillna (Str "Unknown"))
      (upd (dropoff_i lay) (fillna (Str "Unknown"))
        (upd (pickup_i lay) (fillna (Str "Unknown"))
          (upd (trip_i lay) clean_trip_id
            (upd (duration_i lay) (to_numeric_coerce conv)
              (upd (distance_i lay) (to_numeric_coerce conv)
                (upd (fare_i lay) (to_numeric_coerce conv)
                  (upd (date_i lay) (to_datetime_total col) r)))))))).

(** What the [try] block of [load_data] returns, stated on rows; [None]
    when it raises. *)
Definition load_data_rows (raw : DataFrame) : option DataFrame :=
  lay ← layout (canonical_columns raw);
  let date := column_at (date_i lay) (rows raw) in
  if forallb (λ r, date_ok date (r !!! date_i lay)) (rows raw) then
    Some (mkFrame (canonical_columns raw)
                  (clean_row date lay <$> filter (λ r, keep_row lay r) (rows raw)))
  else None.

End RowWise.

(** The assignments that [clean_row] makes, the last one first: the position
    assigned and the function applied to the cell. *)
Definition cleaning (conv : Conversions) (col : Series) (lay : Layout)
    : list (nat * (Cell → Cell)) :=
  [(vehicle_i lay, fillna (Str "Unknown"));
   (payment_i lay, fillna (Str "Unknown"));
   (dropoff_i lay, fillna (Str "Unknown"));
   (pickup_i lay, fillna (Str "Unknown"));
   (trip_i lay, clean_trip_id conv);
   (duration_i lay, to_numeric_coerce conv);
   (distance_i lay, to_numeric_coerce conv);
   (fare_i lay, to_numeric_coerce conv);
   (date_i lay, to_datetime_total conv col)].

(** A list of assignments applied to a row, the last of the list first. *)
Definition assign (steps : list (nat * (Cell → Cell))) (r : list Cell) : list Cell :=
  foldr (λ p r, upd p.1 p.2 r) r steps.

(** The positions of the nine columns that [load_data] assigns ... *)
Definition assigned_indices (lay : Layout) : list nat :=
  [date_i lay; fare_i lay; distance_i lay; duration_i lay; trip_i lay;
   pickup_i lay; dropoff_i lay; payment_i lay; vehicle_i lay].

(** ... and of the four in which it replaces missing values by "Unknown". *)
Definition filled_indices (lay : Layout) : list nat :=
  [pickup_i lay; dropoff_i lay; payment_i lay; vehicle_i lay].

(** The labels that [load_data] looks up once the dates are converted, in
    the order of the program. *)
Definition labels_after_date : list string :=
  ["Booking Status"; "fare"; "distance_miles"; "duration_min"; "trip_id";
   "pickup"; "dropoff"; "payment_type"; "vehicle_type"].

(** The first of the labels that the columns do not have. *)
Fixpoint first_missing (cols labels : list string) : option string :=
  match labels with
  | [] => None
  | l :: labels =>
      match find_label cols l with
      | None => Some l
      | Some _ => first_missing cols labels
      end
  end.

(** The exception that the [try] block of [load_data] raises on a frame that
    was read, if any: the date column is looked up first, then the dates are
    converted, then the other columns are looked up. *)
Definition load_error (conv : Conversions) (raw : DataFrame) : option exn :=
  let cols := canonical_columns raw in
  match find_label cols "date" with
  | None => Some (KeyError "date")
  | Some d =>
      if forallb (λ r, date_ok conv (column_at d (rows raw)) (r !!! d)) (rows raw)
      then KeyError <$> first_missing cols labels_after_date
      else Some ValueError
  end.

(** ** Properties of steps and datasets *)

(** A selection that leaves its field free: empty (or absent), or holding
    the sentinel "All". *)
Definition select_all (flt : list string) : Prop := flt = [] ∨ "All" ∈ flt.

(** A step that keeps the columns and keeps the rows that pass a test on
    the row alone, in their order; it does the same on every frame made of
    rows that it kept. *)
Definition row_filter (S : DataFrame → result DataFrame) : Prop :=
  ∀ df out, S df = Ok out →
    ∃ p : list Cell → bool,
      out = mkFrame (columns df) (filter (λ r, p r) (rows df))
      ∧ ∀ rs', rs' ⊆ rows out →
          S (mkFrame (columns df) rs')
          = Ok (mkFrame (columns df) (filter (λ r, p r) rs')).

(** The [.dt] accessor accepts the cell. *)
Definition dt_ok (c : Cell) : bool :=
  match dt_date_scalar c with
  | Ok _ => true
  | Raise _ => false
  end.

(** The calendar day of a cell, if it holds a timestamp. *)
Definition day_of (c : Cell) : option Z :=
  match dt_date_scalar c with
  | Ok d => d
  | Raise _ => None
  end.

(** A frame read from a file has one cell per column in every row. *)
Definition rectangular (df : DataFrame) : Prop :=
  Forall (λ r, length r = length (columns df)) (rows df).

(** The invariants of a loaded (and possibly filtered) dataset. *)
Definition canonical_row (lay : Layout) (r : list Cell) : Prop :=
  dt_ok (r !!! date_i lay)
  ∧ r !!! status_i lay = Str "Completed"
  ∧ (∃ z, r !!! fare_i lay = Num z)
  ∧ r !!! pickup_i lay ≠ NaN ∧ r !!! dropoff_i lay ≠ NaN
  ∧ r !!! payment_i lay ≠ NaN ∧ r !!! vehicle_i lay ≠ NaN.

(** A canonical dataset has the ten columns of [load_data], and all its rows
    satisfy the invariants. *)
Definition canonical (df : DataFrame) : Prop :=
  ∃ lay, layout (columns df) = Some lay ∧ Forall (canonical_row lay) (rows df).

(** The label [c'] is the label [c] with ASCII white space around it. *)
Definition padded (c c' : string) : Prop :=
  ∃ l r, blank l = true ∧ blank r = true ∧ c' = l +:+ c +:+ r.

(** The test of one selection block of [apply_filters] on the cell of its
    column. *)
Definition selected (flt : list string) (c : Cell) : bool :=
  if bool_decide (flt ≠ []) && bool_decide ("All" ∉ flt) then isin flt c else true.

(** The test of the date block on the date of a record. *)
Definition in_date_range (date_range : list Z) (c : Cell) : bool :=
  match date_range with
  | [start_date; end_date] => in_range start_date end_date (day_of c)
  | _ => true
  end.

(** A record passes the four blocks of [apply_filters]. *)
Definition passes (lay : Layout) (date_range : list Z)
    (pickup_filter dropoff_filter vehicle_filter : list string) (r : list Cell) : bool :=
  in_date_range date_range (r !!! date_i lay)
  && selected pickup_filter (r !!! pickup_i lay)
  && selected dropoff_filter (r !!! dropoff_i lay)
  && selected vehicle_filter (r !!! vehicle_i lay).

(** The date ranges that [apply_filters] can unpack: no date, or a start and
    an end. *)
Definition unpacks (date_range : list Z) : Prop :=
  length date_range = 0%nat ∨ length date_range = 2%nat.

(** The date block has no day to compare: a date range is given, there are
    records, and none of them has a date. *)
Definition undated (date_range : list Z) (dates : Series) : bool :=
  bool_decide (date_range ≠ []) && all_nat (day_of <$> dates).

(** The table [vehicle_summary] before it is sorted, read on the rows of the
    frame: [i], [t] and [j] are the positions of the vehicle type, of the
    trip id and of the fare. *)
Definition summary_rows (i t j : nat) (rs : list (list Cell)) : list SummaryRow :=
  (λ k, let group := filter (λ r, r !!! i = k) rs in
        mkSummaryRow k (count_cells (column_at t group))
                     (sum_cells (column_at j group))
                     (f64_round_2 (mean_cells (column_at j group))))
  <$> group_keys cell_le ((λ r, group_key (r !!! i)) <$> rs).

(** The float64 sums over the column [label] of a frame are exact ... *)
Definition exact_sums (df : DataFrame) (label : string) : Prop :=
  ∀ j, find_label (columns df) label = Some j → sums_exactly (column_at j (rows df)).

(** ... and so are their roundings to two decimals. *)
Definition exact_rounding (df : DataFrame) (label : string) : Prop :=
  ∀ j, find_label (columns df) label = Some j → rounds_exactly (column_at j (rows df)).

(** ** Orders for sorting by positions *)

(** Sorting the positions with their values by merge sort gives an
    [argsort]; how equal values are ordered is the choice of the order [R]. *)
Definition argsort_by (R : relation (nat * Z)) `{∀ x y, Decision (R x y)}
    (xs : list Z) : list nat :=
  (merge_sort R (zip (seq 0 (length xs)) xs)).*1.

(** Equal values in increasing order of position: the order of a stable
    sort (numpy's kinds 'stable' and 'mergesort'). *)
Definition ties_first (a b : nat * Z) : Prop :=
  a.2 < b.2 ∨ (a.2 = b.2 ∧ (a.1 ≤ b.1)%nat).

Global Instance ties_first_dec : RelDecision ties_first.
Proof. intros a b. unfold ties_first. apply _. Defined.

(** ** The default sort of numpy on a vector processor

    With the default kind 'quicksort', [argsort] on float64 keys runs the
    vectorised sort of x86-simd-sort where the processor has AVX-512 (and,
    with numpy 2, AVX2).  Up to eight keys (four with AVX2) are sorted in
    one vector register by a bitonic network of compare-and-exchange steps:
    [sort_zmm_64bit].  A lane of the register holds a key and the position
    the key came from; the lanes past the last key hold +infinity and are
    [None] here. *)
Definition Lane : Type := option (Z * nat).

(** One lane of [cmp_merge]: the lane gets the smaller of its key and the
    key of its partner lane, the larger one where the bit of the mask is
    set, and it keeps its position when the key it gets equals its own. *)
Definition cmp_lane (mask : bool) (a b : Lane) : Lane :=
  match a, b with
  | Some (x, i), Some (y, j) =>
      let k := if mask then Z.max x y else Z.min x y in
      Some (k, if bool_decide (k = x) then i else j)
  | Some (x, i), None => if mask then None else Some (x, i)
  | None, Some (y, j) => if mask then None else Some (y, j)
  | None, None => None
  end.

(** [cmp_merge(v, permute(v), mask)]: [partner] gives the lane that each
    lane is compared with. *)
Definition cmp_merge (partner : list nat) (mask : list bool) (v : list Lane)
    : list Lane :=
  imap (λ l a, cmp_lane (mask !!! l) a (v !!! (partner !!! l))) v.

(** The permutations and the masks of the network, lane 0 first. *)
Definition SHUFFLE_1_1_1_1 : list nat := [1; 0; 3; 2; 5; 4; 7; 6]%nat.
Definition NETWORK_64BIT_1 : list nat := [3; 2; 1; 0; 7; 6; 5; 4]%nat.
Definition NETWORK_64BIT_2 : list nat := [7; 6; 5; 4; 3; 2; 1; 0]%nat.
Definition NETWORK_64BIT_3 : list nat := [2; 3; 0; 1; 6; 7; 4; 5]%nat.
Definition mask_0xAA : list bool :=
  [false; true; false; true; false; true; false; true].
Definition mask_0xCC : list bool :=
  [false; false; true; true; false; false; true; true].
Definition mask_0xF0 : list bool :=
  [false; false; false; false; true; true; true; true].

Definition sort_zmm_64bit (v : list Lane) : list Lane :=
  let v := cmp_merge SHUFFLE_1_1_1_1 mask_0xAA v in
  let v := cmp_merge NETWORK_64BIT_1 mask_0xCC v in
  let v := cmp_merge SHUFFLE_1_1_1_1 mask_0xAA v in
  let v := cmp_merge NETWORK_64BIT_2 mask_0xF0 v in
  let v := cmp_merge NETWORK_64BIT_3 mask_0xCC v in
  cmp_merge SHUFFLE_1_1_1_1 mask_0xAA v.

(** [argsort] of at most eight keys: the keys are loaded with their
    positions, the register is sorted, the positions are stored. *)
Definition argsort_8_64bit (xs : list Z) : list nat :=
  let lanes :=
    (Some <$> zip xs (seq 0 (length xs))) ++ replicate (8 - length xs) None in
  omap (fmap snd) (take (length xs) (sort_zmm_64bit lanes)).

(** What [argsort] promises of its result. *)
Definition is_argsort (xs : list Z) (r : list nat) : Prop :=
  r ≡ₚ seq 0 (length xs) ∧ Sorted Z.le ((λ i, xs !!! i) <$> r).

(** The default [argsort] of numpy on such a processor, for at most eight
    keys.  Longer arrays go through wider networks and a vectorised
    quicksort, which are not modelled: they are given in the stable order
    here, and nothing is stated of them.  The promise of [argsort] is tested
    on the output of the network rather than proved of it. *)
Definition simd_argsort (xs : list Z) : list nat :=
  if decide ((length xs ≤ 8)%nat ∧ is_argsort xs (argsort_8_64bit xs))
  then argsort_8_64bit xs
  else argsort_by ties_first xs.

(** ** A sample instance and sample frames

    One admissible choice of the library's conversions, used to run the
    model on concrete frames: dates written [YYYY-MM-DD], numbers written in
    decimal digits. *)

Definition digit_value (c : ascii) : option Z := Z.of_nat <$> Ascii.is_nat c.

Fixpoint decimal_go (acc : Z) (s : string) : option Z :=
  match s with
  | EmptyString => Some acc
  | String c s' => d ← digit_value c; decimal_go (10 * acc + d) s'
  end.

Definition decimal (s : string) : option Z :=
  match s with
  | EmptyString => None
  | _ => decimal_go 0 s
  end.

(** The day number of a civil date (days since 1970-01-01). *)
Definition days_from_civil (y m d : Z) : Z :=
  let y' := if bool_decide (m ≤ 2) then y - 1 else y in
  let era := y' `div` 400 in
  let yoe := y' - era * 400 in
  let mp := if bool_decide (m ≤ 2) then m + 9 else m - 3 in
  let doy := (153 * mp + 2) `div` 5 + d - 1 in
  let doe := yoe * 365 + yoe `div` 4 - yoe `div` 100 + doy in
  era * 146097 + doe - 719468.

Definition iso_date (s : string) : option Z :=
  if bool_decide (String.length s = 10%nat ∧ String.get 4 s = Some "-"%char
                  ∧ String.get 7 s = Some "-"%char) then
    y ← decimal (substring 0 4 s);
    m ← decimal (substring 5 2 s);
    d ← decimal (substring 8 2 s);
    if bool_decide (1 ≤ m ≤ 12 ∧ 1 ≤ d ≤ 31)
    then Some (days_from_civil y m d * ns_per_day) else None
  else None.

Definition sample_conversions : Conversions :=
  mkConversions (λ _ s, Some <$> iso_date s) decimal pretty pretty None.

(** The header of the sample frames (one label has a trailing blank). *)
Definition raw_columns : list string :=
  ["Date"; "Booking ID"; "Booking Status"; "Customer ID"; "Vehicle Type";
   "Pickup Location"; "Drop Location"; "Avg CTAT"; "Booking Value";
   "Ride Distance"; "Payment Method "].

(** The three completed rides of the worked scenario. *)
Definition completed_rows : list (list Cell) := [
  [Str "2024-01-01"; Str "CNR1"; Str "Completed"; Str "CID1"; Str "Auto";
   Str "A"; Str "X"; Num 30; Num 100; Num 5; Str "UPI"];
  [Str "2024-01-01"; Str "CNR2"; Str "Completed"; Str "CID2"; Str "Bike";
   Str "B"; NaN; NaN; Str "50"; Num 7; NaN];
  [Str "2024-01-02"; Str "CNR3"; Str "Completed"; Str "CID3"; NaN;
   Str "A"; Str "Y"; Num 12; Num 25; Str "3"; Str "Cash"]
].

(** A cancelled ride of fare 999. *)
Definition cancelled_row : list Cell :=
  [Str "2024-01-02"; Str "CNR4"; Str "Cancelled"; Str "CID4"; Str "Bike";
   Str "B"; Str "X"; NaN; Num 999; Num 7; Str "UPI"].

(** A completed ride whose fare is the text "N/A". *)
Definition unparsable_fare_row : list Cell :=
  [Str "2024-01-02"; Str "CNR5"; Str "Completed"; Str "CID5"; Str "Bike";
   Str "B"; Str "X"; Num 20; Str "N/A"; Num 7; Str "UPI"].

(** A completed ride whose date is the text "not a date". *)
Definition unparsable_date_row : list Cell :=
  [Str "not a date"; Str "CNR6"; Str "Completed"; Str "CID6"; Str "Auto";
   Str "A"; Str "X"; Num 20; Num 40; Num 7; Str "UPI"].

(** A completed ride with no date. *)
Definition missing_date_row : list Cell :=
  [NaN; Str "CNR7"; Str "Completed"; Str "CID7"; Str "Auto";
   Str "A"; Str "X"; Num 20; Num 40; Num 7; Str "UPI"].

Definition scenario_raw : DataFrame := mkFrame raw_columns completed_rows.

(** The positions of the columns that [load_data] reads, in the sample
    frames. *)
Definition sample_layout : Layout := mkLayout 0 2 8 9 7 1 5 6 10 4.

(** The canonical dataset of the worked scenario. *)
Definition scenario : DataFrame := load_data sample_conversions (Ok scenario_raw).

(** The first ride of the scenario alone. *)
Definition scenario_first_day : DataFrame :=
  mkFrame (columns scenario) (take 1 (rows scenario)).

(** Two rides with the same fare from two pickup locations. *)
Definition tie_rows : list (list Cell) := [
  [Str "2024-01-01"; Str "CNR1"; Str "Completed"; Str "CID1"; Str "Auto";
   Str "A"; Str "X"; Num 30; Num 50; Num 5; Str "UPI"];
  [Str "2024-01-01"; Str "CNR2"; Str "Completed"; Str "CID2"; Str "Bike";
   Str "B"; Str "Y"; Num 10; Num 50; Num 7; Str "Cash"]
].

Definition tie : DataFrame :=
  load_data sample_conversions (Ok (mkFrame raw_columns tie_rows)).

(** Four rides from four pickup locations, with fares 10, 10, 20 and 20. *)
Definition four_pickups_rows : list (list Cell) := [
  [Str "2024-01-01"; Str "CNR1"; Str "Completed"; Str "CID1"; Str "Auto";
   Str "A"; Str "X"; Num 30; Num 10; Num 5; Str "UPI"];
  [Str "2024-01-01"; Str "CNR2"; Str "Completed"; Str "CID2"; Str "Bike";
   Str "B"; Str "Y"; Num 10; Num 10; Num 7; Str "Cash"];
  [Str "2024-01-02"; Str "CNR3"; Str "Completed"; Str "CID3"; Str "Auto";
   Str "C"; Str "X"; Num 20; Num 20; Num 4; Str "UPI"];
  [Str "2024-01-02"; Str "CNR4"; Str "Completed"; Str "CID4"; Str "Bike";
   Str "D"; Str "Y"; Num 15; Num 20; Num 6; Str "Cash"]
].

Definition four_pickups : DataFrame :=
  load_data sample_conversions (Ok (mkFrame raw_columns four_pickups_rows)).

(** The fares 0.1, 0.2 and 0.4 of three rides, as float64 reads them, and
    how the rides were paid. *)
Definition decimal_fares : list f64 :=
  [f64_div (f64_of_Z 1) (f64_of_Z 10);
   f64_div (f64_of_Z 2) (f64_of_Z 10);
   f64_div (f64_of_Z 4) (f64_of_Z 10)].

Definition decimal_payments : Series := [Str "Cash"; Str "UPI"; Str "Cash"].

(** The scenario with one more ride, which has no date. *)
Definition scenario_undated : DataFrame :=
  load_data sample_conversions
    (Ok (mkFrame raw_columns (missing_date_row :: completed_rows))).

(** The first record of the scenario. *)
Definition scenario_first_row : list Cell := rows scenario !!! 0%nat.

(** A dataset of one ride, which has no date. *)
Definition undated_rides : DataFrame :=
  load_data sample_conversions (Ok (mkFrame raw_columns [missing_date_row])).

(** The scenario with one more ride, from "C", which has no date. *)
Definition rides_with_undated : DataFrame :=
  load_data sample_conversions
    (Ok (mkFrame raw_columns
           (completed_rows ++
            [[NaN; Str "CNR8"; Str "Completed"; Str "CID8"; Str "Auto";
              Str "C"; Str "X"; Num 20; Num 40; Num 7; Str "UPI"]]))).

(** ** Lists, masks and columns *)

Lemma select_fmap {A} (p : A → bool) (l : list A) :
  select l (p <$> l) = filter (λ x, p x) l.
Proof.
  induction l as [|x l IH]; [done|].
  cbn [fmap list_fmap select]. rewrite filter_cons, IH.
  destruct (p x); by simpl.
Qed.

Lemma select_column (p : Cell → bool) i (rs : list (list Cell)) :
  select rs (p <$> column_at i rs) = filter (λ r, p (r !!! i)) rs.
Proof.
  unfold column_at. rewrite <- list_fmap_compose. apply (select_fmap (p ∘ (λ r, r !!! i))).
Qed.

Lemma filter_fmap {A B} (f : A → B) (P : B → Prop) `{!∀ y, Decision (P y)}
    (l : list A) :
  filter P (f <$> l) = f <$> filter (λ x, P (f x)) l.
Proof.
  induction l as [|x l IH]; [done|].
  cbn [fmap list_fmap]. rewrite !filter_cons, IH.
  by destruct (decide (P (f x))).
Qed.

Lemma zip_with_column i (f : Cell → Cell) (rs : list (list Cell)) :
  zip_with (λ r v, <[i:=v]> r) rs (f <$> column_at i rs) = upd i f <$> rs.
Proof.
  unfold column_at. induction rs as [|r rs IH]; [done|].
  simpl. f_equal. apply IH.
Qed.

Lemma upd_length i f r : length (upd i f r) = length r.
Proof. apply length_insert. Qed.

Lemma upd_lookup_ne i j f r : i ≠ j → upd i f r !!! j = r !!! j.
Proof. apply list_lookup_total_insert_ne. Qed.

Lemma upd_lookup_eq i f r : (i < length r)%nat → upd i f r !!! i = f (r !!! i).
Proof. apply list_lookup_total_insert_eq. Qed.

Lemma lookup_total_ge_NaN (r : list Cell) i : (length r ≤ i)%nat → r !!! i = NaN.
Proof.
  intros Hi. rewrite list_lookup_total_alt, (lookup_ge_None_2 _ _ Hi). done.
Qed.

(** A cell that is not missing lies inside its row. *)
Lemma lookup_total_not_NaN (r : list Cell) i : r !!! i ≠ NaN → (i < length r)%nat.
Proof.
  intros Hne. destruct (decide (i < length r)%nat) as [|Hge]; [done|].
  destruct Hne. apply lookup_total_ge_NaN. lia.
Qed.

(** ** The row-wise description of the load is exact *)

Lemma find_label_Some cols l i :
  find_label cols l = Some i ↔
  cols !! i = Some l ∧ ∀ j, (j < i)%nat → cols !! j ≠ Some l.
Proof.
  unfold find_label. split.
  - destruct (list_find _ cols) as [[i' x]|] eqn:Hf; [|done].
    intros [= <-]. apply list_find_Some in Hf as (Hi & -> & Hmin).
    split; [done|]. intros j Hj Hcj. by eapply Hmin.
  - intros [Hi Hmin].
    assert (list_find (λ c, c = l) cols = Some (i, l)) as ->; [|done].
    apply list_find_Some. split_and!; [done..|].
    intros j y Hy Hj ->. by eapply Hmin.
Qed.

Lemma getitem_find cols rs l :
  getitem (mkFrame cols rs) l =
  match find_label cols l with
  | Some i => Ok (column_at i rs)
  | None => Raise (KeyError l)
  end.
Proof.
  unfold getitem, get_loc, find_label. simpl.
  by destruct (list_find _ cols) as [[??]|].
Qed.

Lemma setitem_find cols rs l i s :
  find_label cols l = Some i →
  setitem (mkFrame cols rs) l s =
  mkFrame cols (zip_with (λ r v, <[i:=v]> r) rs s).
Proof.
  unfold setitem, find_label. simpl.
  destruct (list_find _ cols) as [[??]|]; [|done]. by intros [= ->].
Qed.

Lemma to_datetime_Ok conv col d rs dates :
  traverse (to_datetime_scalar conv col) (column_at d rs) = Ok dates →
  dates = to_datetime_total conv col <$> column_at d rs
  ∧ forallb (λ r, date_ok conv col (r !!! d)) rs = true.
Proof.
  unfold column_at. revert dates.
  induction rs as [|r rs IH]; intros dates; simpl.
  - by intros [= <-].
  - unfold date_ok, to_datetime_total.
    destruct (to_datetime_scalar conv col (r !!! d)) as [v|e]; simpl; [|done].
    destruct (traverse _ _) as [vs|e]; simpl; [|done].
    intros [= <-]. destruct (IH vs eq_refl) as [IH1 IH2].
    split; [by f_equal | exact IH2].
Qed.

Lemma to_datetime_Raise conv col d rs e :
  traverse (to_datetime_scalar conv col) (column_at d rs) = Raise e →
  forallb (λ r, date_ok conv col (r !!! d)) rs = false.
Proof.
  unfold column_at.
  induction rs as [|r rs IH]; simpl; [done|].
  unfold date_ok.
  destruct (to_datetime_scalar conv col (r !!! d)) as [v|e']; simpl; [|done].
  destruct (traverse _ _) as [vs|e']; simpl; [done|]. exact IH.
Qed.

Lemma layout_lookup cols lay :
  layout cols = Some lay →
  (λ i, cols !! i) <$> layout_indices lay = Some <$> layout_labels.
Proof.
  unfold layout. intros H.
  repeat match type of H with
  | (find_label cols ?l ≫= _) = _ =>
      let E := fresh "E" in
      destruct (find_label cols l) eqn:E; cbn [mbind option_bind] in H; [|done];
      apply find_label_Some in E as [E _]
  end.
  injection H as <-. cbn. by repeat f_equal.
Qed.

Lemma layout_NoDup cols lay :
  layout cols = Some lay → NoDup (layout_indices lay).
Proof.
  intros H%layout_lookup.
  apply (NoDup_fmap_1 (λ i, cols !! i)). rewrite H.
  apply (NoDup_fmap_2 _). apply (bool_decide_unpack _). by vm_compute.
Qed.

Lemma upd_lookup i j f r :
  upd i f r !!! j = if decide (i = j ∧ (i < length r)%nat) then f (r !!! i) else r !!! j.
Proof. apply list_lookup_total_insert. Qed.

Lemma notna_upd_numeric conv i r :
  notna (upd i (to_numeric_coerce conv) r !!! i) = notna (to_numeric_coerce conv (r !!! i)).
Proof.
  rewrite upd_lookup. case_decide as Hi; [done|].
  rewrite lookup_total_ge_NaN by (destruct (decide (i < length r)%nat); [naive_solver|lia]).
  done.
Qed.

Ltac distinct_indices H :=
  unfold layout_indices in H;
  rewrite ?NoDup_cons, ?not_elem_of_cons in H;
  cbn in H; destruct_and?.

Lemma staged_rows conv col lay (rs : list (list Cell)) :
  NoDup (layout_indices lay) →
  upd (vehicle_i lay) (fillna (Str "Unknown")) <$>
   (upd (payment_i lay) (fillna (Str "Unknown")) <$>
    (upd (dropoff_i lay) (fillna (Str "Unknown")) <$>
     (upd (pickup_i lay) (fillna (Str "Unknown")) <$>
      (upd (trip_i lay) (clean_trip_id conv) <$>
        filter (λ r, notna (r !!! fare_i lay))
          (upd (duration_i lay) (to_numeric_coerce conv) <$>
           (upd (distance_i lay) (to_numeric_coerce conv) <$>
            (upd (fare_i lay) (to_numeric_coerce conv) <$>
              filter (λ r, eq_str "Completed" (r !!! status_i lay))
                (upd (date_i lay) (to_datetime_total conv col) <$> rs))))))))
  = clean_row conv col lay <$> filter (λ r, keep_row conv lay r) rs.
Proof.
  intros Hnd. distinct_indices Hnd.
  rewrite !filter_fmap, list_filter_filter, <- !list_fmap_compose.
  erewrite list_filter_iff; [apply list_fmap_ext; intros; reflexivity|].
  intros r. cbn beta. unfold keep_row.
  rewrite andb_True.
  rewrite !(upd_lookup_ne _ (fare_i lay)) by done.
  rewrite notna_upd_numeric.
  rewrite !(upd_lookup_ne _ (fare_i lay)) by done.
  rewrite !(upd_lookup_ne _ (status_i lay)) by done.
  tauto.
Qed.

(** The column-wise program and its row-wise description agree. *)
Lemma load_data_try_rowwise conv raw :
  ok_value (load_data_try conv (Ok raw)) = load_data_rows conv raw.
Proof.
  destruct raw as [cols rs].
  unfold ok_value, load_data_rows, load_data_try, canonical_columns, rename, dropna, loc.
  cbn [mbind result_bind columns rows].
  set (cols' := rename_label column_mapping <$> (strip <$> cols)).
  unfold layout.
  rewrite getitem_find.
  destruct (find_label cols' "date") as [d|] eqn:Hd; [|done].
  cbn [mbind result_bind option_bind].
  unfold to_datetime.
  destruct (traverse _ (column_at d rs)) as [dates|e] eqn:Hdt.
  2:{ apply to_datetime_Raise in Hdt. cbn [mbind result_bind].
      repeat match goal with
      | |- context [find_label cols' ?l] =>
          destruct (find_label cols' l); cbn [mbind option_bind]; [|done]
      end.
      cbn [date_i]. by rewrite Hdt. }
  apply to_datetime_Ok in Hdt as [-> Hok].
  cbn [mbind result_bind].
  rewrite (setitem_find _ _ _ _ _ Hd), zip_with_column. cbn [columns rows].
  rewrite getitem_find.
  destruct (find_label cols' "Booking Status") as [s|] eqn:Hs; [|done].
  cbn [mbind result_bind option_bind].
  rewrite select_column.
  rewrite getitem_find.
  destruct (find_label cols' "fare") as [f|] eqn:Hf; [|done].
  cbn [mbind result_bind option_bind].
  rewrite (setitem_find _ _ _ _ _ Hf), zip_with_column. cbn [columns rows].
  rewrite getitem_find.
  destruct (find_label cols' "distance_miles") as [di|] eqn:Hdi; [|done].
  cbn [mbind result_bind option_bind].
  rewrite (setitem_find _ _ _ _ _ Hdi), zip_with_column. cbn [columns rows].
  rewrite getitem_find.
  destruct (find_label cols' "duration_min") as [du|] eqn:Hdu; [|done].
  cbn [mbind result_bind option_bind].
  rewrite (setitem_find _ _ _ _ _ Hdu), zip_with_column. cbn [columns rows].
  rewrite getitem_find, Hf.
  cbn [mbind result_bind option_bind columns rows].
  rewrite select_column.
  rewrite getitem_find.
  destruct (find_label cols' "trip_id") as [t|] eqn:Ht; [|done].
  cbn [mbind result_bind option_bind].
  rewrite (setitem_find _ _ _ _ _ Ht).
  rewrite (zip_with_column t (clean_trip_id conv)). cbn [columns rows].
  rewrite getitem_find.
  destruct (find_label cols' "pickup") as [p|] eqn:Hp; [|done].
  cbn [mbind result_bind option_bind].
  rewrite (setitem_find _ _ _ _ _ Hp), zip_with_column. cbn [columns rows].
  rewrite getitem_find.
  destruct (find_label cols' "dropoff") as [dr|] eqn:Hdr; [|done].
  cbn [mbind result_bind option_bind].
  rewrite (setitem_find _ _ _ _ _ Hdr), zip_with_column. cbn [columns rows].
  rewrite getitem_find.
  destruct (find_label cols' "payment_type") as [pa|] eqn:Hpa; [|done].
  cbn [mbind result_bind option_bind].
  rewrite (setitem_find _ _ _ _ _ Hpa), zip_with_column. cbn [columns rows].
  rewrite getitem_find.
  destruct (find_label cols' "vehicle_type") as [v|] eqn:Hv; [|done].
  cbn [mbind result_bind option_bind].
  rewrite (setitem_find _ _ _ _ _ Hv), zip_with_column. cbn [columns rows].
  cbn [date_i]. rewrite Hok. do 2 f_equal.
  apply (staged_rows conv _ (mkLayout d s f di du t p dr pa v)).
  apply (layout_NoDup cols'). unfold layout.
  rewrite Hd, Hs, Hf, Hdi, Hdu, Ht, Hp, Hdr, Hpa, Hv. done.
Qed.

Lemma load_data_try_Ok conv raw df :
  load_data_try conv (Ok raw) = Ok df ↔ load_data_rows conv raw = Some df.
Proof.
  rewrite <- load_data_try_rowwise.
  destruct (load_data_try conv (Ok raw)); simpl; split; congruence.
Qed.

Lemma load_data_rowwise conv raw :
  load_data conv (Ok raw) = default DataFrame_empty (load_data_rows conv raw).
Proof.
  rewrite <- load_data_try_rowwise. unfold load_data.
  by destruct (load_data_try conv (Ok raw)).
Qed.

Lemma layout_find cols lay :
  layout cols = Some lay →
  find_label cols <$> layout_labels = Some <$> layout_indices lay.
Proof.
  unfold layout. intros H.
  repeat match type of H with
  | (find_label cols ?l ≫= _) = _ =>
      let E := fresh "E" in
      destruct (find_label cols l) eqn:E; cbn [mbind option_bind] in H; [|done]
  end.
  injection H as <-. cbn. by repeat f_equal.
Qed.

Lemma get_loc_find cols rs label i :
  find_label cols label = Some i → get_loc (mkFrame cols rs) label = Ok i.
Proof.
  unfold get_loc, find_label. simpl.
  destruct (list_find _ cols) as [[??]|]; [|done]. by intros [= ->].
Qed.

(** Every row of a loaded frame is the cleaned form of a kept raw row. *)
Lemma load_data_rows_elem conv raw df r' :
  load_data_rows conv raw = Some df → r' ∈ rows df →
  ∃ lay col r, layout (canonical_columns raw) = Some lay
    ∧ columns df = canonical_columns raw
    ∧ r ∈ rows raw ∧ keep_row conv lay r ∧ r' = clean_row conv col lay r.
Proof.
  unfold load_data_rows.
  destruct (layout (canonical_columns raw)) as [lay|] eqn:Hlay; [|done].
  cbn [mbind option_bind]. case_match; [|done]. intros [= <-]. cbn [rows columns].
  intros (r & -> & [Hk Hr]%list_elem_of_filter)%list_elem_of_fmap.
  by eexists lay, _, r.
Qed.

Lemma clean_row_status conv col lay r :
  NoDup (layout_indices lay) →
  clean_row conv col lay r !!! status_i lay = r !!! status_i lay.
Proof.
  intros Hnd. distinct_indices Hnd. unfold clean_row.
  by rewrite !upd_lookup_ne by done.
Qed.

Lemma clean_row_fare conv col lay r :
  NoDup (layout_indices lay) → r !!! fare_i lay ≠ NaN →
  clean_row conv col lay r !!! fare_i lay = to_numeric_coerce conv (r !!! fare_i lay).
Proof.
  intros Hnd Hr. distinct_indices Hnd. unfold clean_row.
  rewrite !(upd_lookup_ne _ (fare_i lay)) by done.
  rewrite upd_lookup_eq.
  - by rewrite upd_lookup_ne by done.
  - rewrite upd_length. by apply lookup_total_not_NaN.
Qed.

Lemma clean_row_date conv col lay r :
  NoDup (layout_indices lay) → r !!! date_i lay = NaN →
  clean_row conv col lay r !!! date_i lay = NaN.
Proof.
  intros Hnd Hr. distinct_indices Hnd. unfold clean_row.
  rewrite !(upd_lookup_ne _ (date_i lay)) by done.
  rewrite upd_lookup, Hr. by case_decide.
Qed.

Lemma eq_str_true value c : eq_str value c = true → c = Str value.
Proof. destruct c; simpl; try done. by intros ->%bool_decide_eq_true. Qed.

Lemma to_numeric_coerce_notna conv c :
  notna (to_numeric_coerce conv c) → ∃ z, to_numeric_coerce conv c = Num z.
Proof.
  destruct c as [|z|s|t]; simpl; try done; eauto.
  destruct (str_to_numeric conv s); simpl; [eauto|done].
Qed.

Lemma keep_row_elim conv lay r :
  keep_row conv lay r →
  r !!! status_i lay = Str "Completed"
  ∧ ∃ z, to_numeric_coerce conv (r !!! fare_i lay) = Num z.
Proof.
  unfold keep_row. intros [Hs Hf]%andb_True. split.
  - apply eq_str_true. by apply Is_true_true.
  - by apply to_numeric_coerce_notna.
Qed.

Lemma to_datetime_scalar_ext conv col col' c :
  (∀ s, str_to_datetime conv col s = str_to_datetime conv col' s) →
  to_datetime_scalar conv col c = to_datetime_scalar conv col' c.
Proof. intros H. destruct c; simpl; try done. by rewrite H. Qed.

Lemma clean_row_ext conv col col' lay r :
  (∀ s, str_to_datetime conv col s = str_to_datetime conv col' s) →
  clean_row conv col lay r = clean_row conv col' lay r.
Proof.
  intros H. unfold clean_row, to_datetime_total, upd at 9.
  by rewrite (to_datetime_scalar_ext _ _ _ _ H).
Qed.

Lemma date_ok_column_ext conv col col' i (rs : list (list Cell)) :
  (∀ s, str_to_datetime conv col s = str_to_datetime conv col' s) →
  forallb (λ r, date_ok conv col (r !!! i)) rs
  = forallb (λ r, date_ok conv col' (r !!! i)) rs.
Proof.
  intros H. induction rs as [|r rs IH]; [done|]. cbn [forallb].
  unfold date_ok at 1 3. by rewrite IH, (to_datetime_scalar_ext _ _ _ _ H).
Qed.

(** A raw row that [load_data] does not keep, and whose date converts, leaves
    no trace in the canonical dataset, provided the dates of the column are
    read the same with and without it. *)
Lemma load_data_drop_row conv cols rs1 r rs2 lay :
  layout (rename_label column_mapping <$> (strip <$> cols)) = Some lay →
  (∀ s, str_to_datetime conv (column_at (date_i lay) (rs1 ++ r :: rs2)) s
        = str_to_datetime conv (column_at (date_i lay) (rs1 ++ rs2)) s) →
  date_ok conv (column_at (date_i lay) (rs1 ++ r :: rs2)) (r !!! date_i lay)
    = true →
  keep_row conv lay r = false →
  load_data conv (Ok (mkFrame cols (rs1 ++ r :: rs2)))
  = load_data conv (Ok (mkFrame cols (rs1 ++ rs2))).
Proof.
  intros Hlay Hctx Hd Hk. rewrite !load_data_rowwise.
  unfold load_data_rows, canonical_columns. cbn [columns rows].
  rewrite Hlay. cbn [mbind option_bind]. cbv zeta.
  rewrite <- (date_ok_column_ext _ _ _ _ (rs1 ++ rs2) Hctx).
  rewrite !forallb_app. cbn [forallb]. rewrite Hd, andb_true_l.
  rewrite !filter_app, filter_cons_False by (rewrite Hk; by intros []).
  destruct (_ && _); [|done]. unfold default, from_option, id. f_equal.
  apply list_fmap_ext. intros ? r' _. by apply clean_row_ext.
Qed.

(** ** The record normalizer *)

Lemma layout_find_status cols lay :
  layout cols = Some lay → find_label cols "Booking Status" = Some (status_i lay).
Proof. intros H%layout_find. by injection H. Qed.

Lemma layout_find_fare cols lay :
  layout cols = Some lay → find_label cols "fare" = Some (fare_i lay).
Proof. intros H%layout_find. by injection H. Qed.

Lemma date_ok_str conv col s :
  date_ok conv col (Str s) = bool_decide (is_Some (str_to_datetime conv col s)).
Proof.
  unfold date_ok. simpl.
  destruct (str_to_datetime conv col s) as [[t|]|]; symmetry;
    (apply bool_decide_eq_true || apply bool_decide_eq_false);
    eauto using is_Some_None.
Qed.

Lemma date_ok_forall conv col i (rs : list (list Cell)) :
  forallb (λ r, date_ok conv col (r !!! i)) rs = true ↔
  ∀ r s, r ∈ rs → r !!! i = Str s → is_Some (str_to_datetime conv col s).
Proof.
  rewrite forallb_forall. split.
  - intros H r s Hr Hs. apply list_elem_of_In, H in Hr.
    rewrite Hs, date_ok_str in Hr. by apply bool_decide_eq_true in Hr.
  - intros H r Hr%list_elem_of_In.
    destruct (r !!! i) as [|z|s|t] eqn:Hc; try done.
    rewrite date_ok_str. apply bool_decide_eq_true. eauto.
Qed.

(** C1 (counterexample).  One completed ride whose date is the text
    "not a date", followed by the three rides of the scenario: the date
    does not parse, the conversion raises, and [load_data] returns the empty
    frame.  The row is not kept with a null date, and the three other rides,
    which load on their own, are lost with it. *)
Lemma unparsable_date_empties_the_load :
  unparsable_date_row !!! date_i sample_layout = Str "not a date"
  ∧ (∀ col, str_to_datetime sample_conversions col "not a date" = None)
  ∧ load_data sample_conversions
      (Ok (mkFrame raw_columns (unparsable_date_row :: completed_rows)))
    = DataFrame_empty
  ∧ length (rows (load_data sample_conversions
                    (Ok (mkFrame raw_columns completed_rows)))) = 3%nat.
Proof. split_and!; [by vm_compute|by intros|by vm_compute..]. Qed.

(** C1 (amended).  In a frame that has the ten columns [load_data] reads,
    [date] being its date column: a date that the parser rejects is fatal
    to the whole load, which returns the empty frame; when no date is
    rejected, a row whose date is missing is kept (if it is a completed
    ride with a numeric fare), cleaned like any other row, and its date
    stays null. *)
Theorem load_data_date_coercion conv raw lay :
  layout (canonical_columns raw) = Some lay →
  let date := column_at (date_i lay) (rows raw) in
  (∀ r s, r ∈ rows raw → r !!! date_i lay = Str s →
     str_to_datetime conv date s = None →
     load_data conv (Ok raw) = DataFrame_empty)
  ∧ ((∀ r s, r ∈ rows raw → r !!! date_i lay = Str s →
        is_Some (str_to_datetime conv date s)) →
     ∀ r, r ∈ rows raw → r !!! date_i lay = NaN → keep_row conv lay r →
       clean_row conv date lay r ∈ rows (load_data conv (Ok raw))
       ∧ clean_row conv date lay r !!! date_i lay = NaN).
Proof.
  intros Hlay date. rewrite load_data_rowwise. unfold load_data_rows.
  rewrite Hlay. cbn [mbind option_bind]. cbv zeta. fold date. split.
  - intros r s Hr Hs Hnone.
    destruct (forallb _ _) eqn:Hall; [|done].
    destruct (proj1 (date_ok_forall conv _ _ _) Hall r s Hr Hs) as [? ?].
    congruence.
  - intros Hall r Hr Hd Hk.
    rewrite (proj2 (date_ok_forall conv _ _ _) Hall). cbn [default rows]. split.
    + apply list_elem_of_fmap_2, list_elem_of_filter. done.
    + apply clean_row_date; [by eapply layout_NoDup|done].
Qed.

Lemma load_data_date_coercion_witness :
  layout (canonical_columns (mkFrame raw_columns (missing_date_row :: completed_rows)))
    = Some sample_layout
  ∧ clean_row sample_conversions
      (column_at (date_i sample_layout) (missing_date_row :: completed_rows))
      sample_layout missing_date_row
      ∈ rows (load_data sample_conversions
                (Ok (mkFrame raw_columns (missing_date_row :: completed_rows))))
  ∧ clean_row sample_conversions
      (column_at (date_i sample_layout) (missing_date_row :: completed_rows))
      sample_layout missing_date_row !!! date_i sample_layout = NaN.
Proof.
  split; [reflexivity|].
  apply (load_data_date_coercion sample_conversions
           (mkFrame raw_columns (missing_date_row :: completed_rows))
           sample_layout eq_refl).
  - intros r s Hr Hs. cbn [rows] in Hr.
    unfold completed_rows in Hr.
    repeat (apply elem_of_cons in Hr as [->|Hr]);
      [..|by apply not_elem_of_nil in Hr];
      vm_compute in Hs; try discriminate Hs;
      injection Hs as <-; vm_compute; eauto.
  - apply list_elem_of_here.
  - reflexivity.
  - vm_compute. exact I.
Defined.

(** C2 (counterexample).  The raw frame of the scenario has the fields
    "Customer ID" and "Booking Status", for which the rename table has no
    entry; both are columns of the canonical dataset. *)
Lemma unmapped_columns_are_retained :
  column_mapping !! "Customer ID" = None
  ∧ column_mapping !! "Booking Status" = None
  ∧ "Customer ID" ∈ columns scenario_raw
  ∧ "Customer ID" ∈ columns scenario
  ∧ "Booking Status" ∈ columns scenario
  ∧ columns scenario =
      ["date"; "trip_id"; "Booking Status"; "Customer ID"; "vehicle_type";
       "pickup"; "dropoff"; "duration_min"; "fare"; "distance_miles";
       "payment_type"].
Proof.
  split_and!.
  - by vm_compute.
  - by vm_compute.
  - apply (bool_decide_unpack _). by vm_compute.
  - apply (bool_decide_unpack _). by vm_compute.
  - apply (bool_decide_unpack _). by vm_compute.
  - by vm_compute.
Qed.

(** C2 (amended).  When the load succeeds, the canonical dataset has one
    column per source field, in the source order: a field of the rename
    table under its canonical name, every other field under its own
    (trimmed) name.  No field is dropped. *)
Theorem load_data_keeps_every_column conv raw df :
  load_data_try conv (Ok raw) = Ok df →
  columns df = rename_label column_mapping <$> (strip <$> columns raw)
  ∧ (∀ c, c ∈ columns raw → column_mapping !! strip c = None →
       strip c ∈ columns df)
  ∧ (∀ c c', c ∈ columns raw → column_mapping !! strip c = Some c' →
       c' ∈ columns df).
Proof.
  intros Hok%load_data_try_Ok. unfold load_data_rows in Hok.
  destruct (layout (canonical_columns raw)) as [lay|]; [|done].
  cbn [mbind option_bind] in Hok. case_match; [|done].
  injection Hok as <-. cbn [columns]. unfold canonical_columns.
  split_and!; [done|..].
  - intros c Hc Hnone. apply list_elem_of_fmap. exists (strip c). split.
    + unfold rename_label. by rewrite Hnone.
    + by apply list_elem_of_fmap_2.
  - intros c c' Hc Hsome. apply list_elem_of_fmap. exists (strip c). split.
    + unfold rename_label. by rewrite Hsome.
    + by apply list_elem_of_fmap_2.
Qed.

Lemma load_data_keeps_every_column_witness :
  load_data_try sample_conversions (Ok scenario_raw) = Ok scenario
  ∧ columns scenario
    = rename_label column_mapping <$> (strip <$> columns scenario_raw).
Proof.
  assert (load_data_try sample_conversions (Ok scenario_raw) = Ok scenario)
    as H by (by vm_compute).
  split; [exact H|].
  exact (proj1 (load_data_keeps_every_column _ _ _ H)).
Defined.

(** C3.  Every record of the canonical dataset has the status "Completed",
    exactly.  A raw row with any other status changes nothing in the
    canonical dataset, hence in no aggregate computed from it (its date
    converting, and the other dates being read as without it); so it is for
    a "Cancelled" row with fare 999 added to the three rides of the
    scenario. *)
Theorem canonical_status_completed :
  (∀ conv read_csv,
     Forall (λ r, cell (load_data conv read_csv) "Booking Status" r
                  = Ok (Str "Completed"))
            (rows (load_data conv read_csv)))
  ∧ (∀ conv cols rs1 r rs2 lay,
       layout (rename_label column_mapping <$> (strip <$> cols)) = Some lay →
       r !!! status_i lay ≠ Str "Completed" →
       (∀ s, str_to_datetime conv (column_at (date_i lay) (rs1 ++ r :: rs2)) s
             = str_to_datetime conv (column_at (date_i lay) (rs1 ++ rs2)) s) →
       date_ok conv (column_at (date_i lay) (rs1 ++ r :: rs2))
               (r !!! date_i lay) = true →
       load_data conv (Ok (mkFrame cols (rs1 ++ r :: rs2)))
       = load_data conv (Ok (mkFrame cols (rs1 ++ rs2))))
  ∧ (cancelled_row !!! status_i sample_layout = Str "Cancelled"
     ∧ cancelled_row !!! fare_i sample_layout = Num 999
     ∧ load_data sample_conversions
         (Ok (mkFrame raw_columns (completed_rows ++ [cancelled_row])))
       = scenario).
Proof.
  split_and!; [| |by vm_compute|by vm_compute|by vm_compute].
  - intros conv [raw|e]; [|by constructor].
    rewrite load_data_rowwise.
    destruct (load_data_rows conv raw) as [df|] eqn:Hdf; [|by constructor].
    unfold default, from_option, id. apply Forall_forall. intros r' Hr'.
    destruct (load_data_rows_elem _ _ _ _ Hdf Hr')
      as (lay & col & r & Hlay & Hcols & Hr & Hk & ->).
    unfold cell. destruct df as [cols rs]. cbn [columns] in Hcols. subst cols.
    rewrite (get_loc_find _ _ _ _ (layout_find_status _ _ Hlay)).
    cbn [mbind result_bind].
    rewrite clean_row_status by (by eapply layout_NoDup).
    by destruct (keep_row_elim _ _ _ Hk) as [-> _].
  - intros conv cols rs1 r rs2 lay Hlay Hs Hctx Hd.
    apply (load_data_drop_row _ _ _ _ _ lay); [done..|].
    unfold keep_row. destruct (eq_str _ _) eqn:He; [|done].
    by apply eq_str_true in He.
Qed.

(** C4.  Every record of the canonical dataset has a fare that is a
    number.  A raw row whose fare is not read as a number changes nothing
    in the canonical dataset, whatever its status (its date converting, and
    the other dates being read as without it); so it is for a "Completed"
    row with fare "N/A" added to the three rides of the scenario. *)
Theorem canonical_fare_numeric :
  (∀ conv read_csv,
     Forall (λ r, ∃ z, cell (load_data conv read_csv) "fare" r = Ok (Num z))
            (rows (load_data conv read_csv)))
  ∧ (∀ conv cols rs1 r rs2 lay,
       layout (rename_label column_mapping <$> (strip <$> cols)) = Some lay →
       to_numeric_coerce conv (r !!! fare_i lay) = NaN →
       (∀ s, str_to_datetime conv (column_at (date_i lay) (rs1 ++ r :: rs2)) s
             = str_to_datetime conv (column_at (date_i lay) (rs1 ++ rs2)) s) →
       date_ok conv (column_at (date_i lay) (rs1 ++ r :: rs2))
               (r !!! date_i lay) = true →
       load_data conv (Ok (mkFrame cols (rs1 ++ r :: rs2)))
       = load_data conv (Ok (mkFrame cols (rs1 ++ rs2))))
  ∧ (unparsable_fare_row !!! status_i sample_layout = Str "Completed"
     ∧ unparsable_fare_row !!! fare_i sample_layout = Str "N/A"
     ∧ to_numeric_coerce sample_conversions (Str "N/A") = NaN
     ∧ load_data sample_conversions
         (Ok (mkFrame raw_columns (unparsable_fare_row :: completed_rows)))
       = scenario).
Proof.
  split_and!; [| |by vm_compute..].
  - intros conv [raw|e]; [|by constructor].
    rewrite load_data_rowwise.
    destruct (load_data_rows conv raw) as [df|] eqn:Hdf; [|by constructor].
    unfold default, from_option, id. apply Forall_forall. intros r' Hr'.
    destruct (load_data_rows_elem _ _ _ _ Hdf Hr')
      as (lay & col & r & Hlay & Hcols & Hr & Hk & ->).
    unfold cell. destruct df as [cols rs]. cbn [columns] in Hcols. subst cols.
    rewrite (get_loc_find _ _ _ _ (layout_find_fare _ _ Hlay)).
    cbn [mbind result_bind].
    destruct (keep_row_elim _ _ _ Hk) as [_ [z Hz]]. exists z.
    rewrite clean_row_fare; [by rewrite Hz|by eapply layout_NoDup|].
    intros Hnan. by rewrite Hnan in Hz.
  - intros conv cols rs1 r rs2 lay Hlay Hf Hctx Hd.
    apply (load_data_drop_row _ _ _ _ _ lay); [done..|].
    unfold keep_row. rewrite Hf. apply andb_false_r.
Qed.

(** ** The filter engine *)

Lemma result_bind_Ok {A} (m : result A) : (a ← m; Ok a) = m.
Proof. by destruct m. Qed.

Lemma filter_all {A} (p : A → bool) (l : list A) :
  Forall (λ x, p x) l → filter (λ x, p x) l = l.
Proof.
  induction 1 as [|x l Hx Hl IH]; [done|].
  by rewrite filter_cons_True, IH.
Qed.

Lemma filter_idem {A} (p : A → bool) (l : list A) :
  filter (λ x, p x) (filter (λ x, p x) l) = filter (λ x, p x) l.
Proof.
  apply filter_all, Forall_forall. by intros x [? _]%list_elem_of_filter.
Qed.

Lemma dt_date_column i (rs : list (list Cell)) :
  dt_date (column_at i rs) =
  if forallb (λ r, dt_ok (r !!! i)) rs
  then Ok ((λ r, day_of (r !!! i)) <$> rs)
  else Raise AttributeError.
Proof.
  unfold dt_date, column_at, dt_ok, day_of.
  induction rs as [|r rs IH]; [done|].
  cbn [fmap list_fmap traverse forallb].
  destruct (r !!! i) as [|z|s|t]; cbn [dt_date_scalar mbind result_bind andb];
    try done.
  - rewrite IH. by destruct (forallb _ rs).
  - rewrite IH. by destruct (forallb _ rs).
Qed.

Lemma filter_isin_skip label flt df :
  select_all flt → filter_isin label flt df = Ok df.
Proof.
  unfold filter_isin. intros [->|Hall]; [done|].
  rewrite (bool_decide_eq_false_2 ("All" ∉ flt)) by auto.
  by rewrite andb_false_r.
Qed.

Lemma filter_isin_active label flt cols rs :
  ¬ select_all flt →
  filter_isin label flt (mkFrame cols rs) =
  match find_label cols label with
  | Some i => Ok (mkFrame cols (filter (λ r, isin flt (r !!! i)) rs))
  | None => Raise (KeyError label)
  end.
Proof.
  unfold select_all, filter_isin. intros Hn.
  rewrite (bool_decide_eq_true_2 (flt ≠ [])) by tauto.
  rewrite (bool_decide_eq_true_2 ("All" ∉ flt)) by tauto.
  cbn [andb]. rewrite getitem_find.
  destruct (find_label cols label); [|done].
  cbn [mbind result_bind]. unfold loc. cbn [columns rows].
  by rewrite select_column.
Qed.

Lemma filter_date_active start_date end_date cols rs :
  filter_date [start_date; end_date] (mkFrame cols rs) =
  match find_label cols "date" with
  | Some i =>
      if forallb (λ r, dt_ok (r !!! i)) rs then
        if all_nat ((λ r, day_of (r !!! i)) <$> rs) then Raise TypeError
        else
          Ok (mkFrame cols
                (filter (λ r, in_range start_date end_date (day_of (r !!! i))) rs))
      else Raise AttributeError
  | None => Raise (KeyError "date")
  end.
Proof.
  unfold filter_date. rewrite getitem_find.
  destruct (find_label cols "date") as [i|]; [|done].
  cbn [mbind result_bind]. rewrite dt_date_column.
  destruct (forallb _ rs); [|done].
  cbn [mbind result_bind]. unfold compare_days.
  destruct (all_nat _); [done|].
  cbn [mbind result_bind]. unfold loc. cbn [columns rows].
  f_equal. f_equal. rewrite <- list_fmap_compose.
  apply (select_fmap (in_range start_date end_date ∘ (λ r, day_of (r !!! i)))).
Qed.

(** Records that a date range lets through have a date. *)
Lemma all_nat_in_range start_date end_date i (rs : list (list Cell)) :
  Forall (λ r, in_range start_date end_date (day_of (r !!! i))) rs →
  all_nat ((λ r, day_of (r !!! i)) <$> rs) = false.
Proof.
  destruct 1 as [|r rs Hr _]; [done|].
  unfold all_nat. rewrite fmap_cons. cbn [forallb].
  destruct (day_of (r !!! i)); [|done].
  by rewrite (bool_decide_eq_false_2 (Some _ = None)), andb_false_r.
Qed.

Lemma forallb_subseteq {A} (p : A → bool) (l l' : list A) :
  l' ⊆ l → forallb p l = true → forallb p l' = true.
Proof.
  rewrite !forallb_forall. intros Hsub H x Hx%list_elem_of_In.
  apply H, list_elem_of_In, Hsub, Hx.
Qed.

Lemma row_filter_id : row_filter (λ df, Ok df).
Proof.
  intros [cols rs] out [= <-]. exists (λ _, true). cbn [columns rows]. split.
  - f_equal. symmetry. apply filter_all, Forall_forall. done.
  - intros rs' _. do 2 f_equal. symmetry. apply filter_all, Forall_forall. done.
Qed.

Lemma row_filter_isin label flt : row_filter (filter_isin label flt).
Proof.
  destruct (decide (select_all flt)) as [Hall|Hn].
  - intros df out. rewrite filter_isin_skip by done. intros [= <-].
    destruct (row_filter_id df df eq_refl) as (p & Hp & Hsub).
    exists p. split; [done|]. intros rs' Hrs'.
    rewrite filter_isin_skip by done. by apply Hsub.
  - intros [cols rs] out. rewrite filter_isin_active by done.
    destruct (find_label cols label) as [i|] eqn:Hi; [|done].
    intros [= <-]. exists (λ r, isin flt (r !!! i)). cbn [columns rows].
    split; [done|]. intros rs' _.
    by rewrite filter_isin_active, Hi by done.
Qed.

Lemma row_filter_date date_range : row_filter (filter_date date_range).
Proof.
  destruct date_range as [|start_date [|end_date [|]]];
    [apply row_filter_id|by intros ? ? [=]| |by intros ? ? [=]].
  intros [cols rs] out. rewrite filter_date_active.
  destruct (find_label cols "date") as [i|] eqn:Hi; [|done].
  destruct (forallb _ rs) eqn:Hok; [|done].
  destruct (all_nat _); [done|].
  intros [= <-].
  exists (λ r, in_range start_date end_date (day_of (r !!! i))).
  cbn [columns rows]. split; [done|]. intros rs' Hsub.
  rewrite filter_date_active, Hi.
  assert (rs' ⊆ rs) as Hsub'
    by (intros r Hr; by apply Hsub, list_elem_of_filter in Hr as [_ ?]).
  rewrite (forallb_subseteq _ rs rs' Hsub' Hok).
  rewrite (all_nat_in_range start_date end_date); [done|].
  apply Forall_forall. intros r Hr. by apply Hsub, list_elem_of_filter in Hr as [? _].
Qed.

Lemma row_filter_compose S1 S2 :
  row_filter S1 → row_filter S2 → row_filter (λ df, d ← S1 df; S2 d).
Proof.
  intros H1 H2 df out. cbn beta.
  destruct (S1 df) as [d1|] eqn:E1; [|done]. cbn [mbind result_bind].
  intros E2.
  destruct (H1 _ _ E1) as (p1 & -> & Hsub1).
  destruct (H2 _ _ E2) as (p2 & -> & Hsub2).
  cbn [columns rows] in *.
  exists (λ r, p1 r && p2 r). split.
  - f_equal. rewrite list_filter_filter. apply list_filter_iff.
    intros r. rewrite andb_True. tauto.
  - intros rs' Hrs'. rewrite Hsub1.
    2:{ intros r Hr. by apply Hrs', list_elem_of_filter in Hr as [_ ?]. }
    cbn [mbind result_bind]. rewrite Hsub2.
    + do 2 f_equal. rewrite list_filter_filter. apply list_filter_iff.
      intros r. rewrite andb_True. tauto.
    + intros r [Hp Hr]%list_elem_of_filter. by apply Hrs'.
Qed.

Lemma row_filter_idem S df out :
  row_filter S → S df = Ok out → S out = Ok out.
Proof.
  intros HS E. destruct (HS _ _ E) as (p & -> & Hsub).
  cbn [columns rows] in *. rewrite Hsub by done.
  by rewrite filter_idem.
Qed.

Lemma row_filter_apply_filters date_range pickup_filter dropoff_filter vehicle_filter :
  row_filter (λ df,
    apply_filters df date_range pickup_filter dropoff_filter vehicle_filter).
Proof.
  unfold apply_filters.
  apply (row_filter_compose (filter_date date_range)); [apply row_filter_date|].
  apply (row_filter_compose (filter_isin "pickup" pickup_filter));
    [apply row_filter_isin|].
  apply (row_filter_compose (filter_isin "dropoff" dropoff_filter));
    [apply row_filter_isin|].
  apply (row_filter_compose (filter_isin "vehicle_type" vehicle_filter));
    [apply row_filter_isin|apply row_filter_id].
Qed.

(** C5.  With no date range and the sentinel "All" as each of the three
    selections, [apply_filters] returns its input: the same columns and the
    same rows, hence the same multiset of records. *)
Theorem apply_filters_select_all df :
  ∃ out, apply_filters df [] ["All"] ["All"] ["All"] = Ok out
    ∧ columns out = columns df
    ∧ rows out ≡ₚ rows df
    ∧ out = df.
Proof. exists df. by split_and!. Qed.

(** C10.  A selection that is empty, or that holds "All", puts no
    restriction on its field: [apply_filters] then does what the other
    blocks do, and with the three selections free only the date range
    restricts.  With an empty pickup selection the three rides of the
    scenario are all returned. *)
Theorem empty_or_all_selection_is_unrestricted :
  (∀ df date_range pickup_filter dropoff_filter vehicle_filter,
     select_all pickup_filter →
     apply_filters df date_range pickup_filter dropoff_filter vehicle_filter
     = (d ← filter_date date_range df;
        d ← filter_isin "dropoff" dropoff_filter d;
        filter_isin "vehicle_type" vehicle_filter d))
  ∧ (∀ df date_range pickup_filter dropoff_filter vehicle_filter,
     select_all dropoff_filter →
     apply_filters df date_range pickup_filter dropoff_filter vehicle_filter
     = (d ← filter_date date_range df;
        d ← filter_isin "pickup" pickup_filter d;
        filter_isin "vehicle_type" vehicle_filter d))
  ∧ (∀ df date_range pickup_filter dropoff_filter vehicle_filter,
     select_all vehicle_filter →
     apply_filters df date_range pickup_filter dropoff_filter vehicle_filter
     = (d ← filter_date date_range df;
        d ← filter_isin "pickup" pickup_filter d;
        filter_isin "dropoff" dropoff_filter d))
  ∧ (∀ df date_range pickup_filter dropoff_filter vehicle_filter,
     select_all pickup_filter → select_all dropoff_filter →
     select_all vehicle_filter →
     apply_filters df date_range pickup_filter dropoff_filter vehicle_filter
     = filter_date date_range df)
  ∧ (∀ df label, filter_isin label [] df = Ok df)
  ∧ (∀ df label flt, "All" ∈ flt → filter_isin label flt df = Ok df)
  ∧ apply_filters scenario [] [] ["X"; "All"] ["All"; "Bike"] = Ok scenario
  ∧ length (rows scenario) = 3%nat.
Proof.
  split_and!.
  - intros df dr pf dof vf Hp. unfold apply_filters.
    destruct (filter_date dr df) as [d|]; [|done]. cbn [mbind result_bind].
    rewrite filter_isin_skip by done. cbn [mbind result_bind].
    destruct (filter_isin "dropoff" dof d); [|done]. cbn [mbind result_bind].
    apply result_bind_Ok.
  - intros df dr pf dof vf Hd. unfold apply_filters.
    destruct (filter_date dr df) as [d|]; [|done]. cbn [mbind result_bind].
    destruct (filter_isin "pickup" pf d) as [d'|]; [|done].
    cbn [mbind result_bind].
    rewrite filter_isin_skip by done. cbn [mbind result_bind].
    apply result_bind_Ok.
  - intros df dr pf dof vf Hv. unfold apply_filters.
    destruct (filter_date dr df) as [d|]; [|done]. cbn [mbind result_bind].
    destruct (filter_isin "pickup" pf d) as [d'|]; [|done].
    cbn [mbind result_bind].
    destruct (filter_isin "dropoff" dof d') as [d''|]; [|done].
    cbn [mbind result_bind].
    by rewrite filter_isin_skip by done.
  - intros df dr pf dof vf Hp Hd Hv. unfold apply_filters.
    destruct (filter_date dr df) as [d|]; [|done]. cbn [mbind result_bind].
    rewrite filter_isin_skip by done. cbn [mbind result_bind].
    rewrite filter_isin_skip by done. cbn [mbind result_bind].
    by rewrite filter_isin_skip by done.
  - intros df label. apply filter_isin_skip. by left.
  - intros df label flt Hall. apply filter_isin_skip. by right.
  - by vm_compute.
  - by vm_compute.
Qed.

(** ** The aggregator *)

Lemma sum_Z_zero {A} (l : list A) : sum_Z ((λ _, 0) <$> l) = 0.
Proof. unfold sum_Z. induction l as [|a l IH]; csimpl in *; lia. Qed.

Lemma sum_Z_add {A} (f g : A → Z) (l : list A) :
  sum_Z ((λ a, f a + g a) <$> l) = sum_Z (f <$> l) + sum_Z (g <$> l).
Proof.
  unfold sum_Z. induction l as [|a l IH]; csimpl in *; lia.
Qed.

(** The indicator of one key sums to the value over a list without repeats
    that holds the key, and to zero over a list that does not. *)
Lemma sum_Z_indicator {K} `{EqDecision K} (ks : list K) (k0 : K) (x : Z) :
  NoDup ks →
  sum_Z ((λ k, if decide (k0 = k) then x else 0) <$> ks)
  = if decide (k0 ∈ ks) then x else 0.
Proof.
  induction 1 as [|k ks Hk Hnd IH]; [done|].
  cbn [fmap list_fmap sum_Z foldr]. fold (sum_Z ((λ k, if decide (k0 = k) then x else 0) <$> ks)).
  rewrite IH.
  destruct (decide (k0 = k)) as [->|Hne].
  - rewrite decide_False by done. rewrite decide_True by (by left). lia.
  - destruct (decide (k0 ∈ ks)) as [Hin|Hnin].
    + rewrite decide_True by (by right). lia.
    + rewrite decide_False; [lia|]. by intros [?|?]%elem_of_cons.
Qed.

Section GroupByFacts.
Context {K : Type} `{EqDecision K} (R : relation K) `{∀ x y, Decision (R x y)}.

Lemma group_keys_Permutation keys :
  group_keys R keys ≡ₚ remove_dups (omap id keys).
Proof. apply merge_sort_Permutation. Qed.

Lemma group_keys_NoDup keys : NoDup (group_keys R keys).
Proof. rewrite group_keys_Permutation. apply NoDup_remove_dups. Qed.

Lemma elem_of_group_keys keys k : k ∈ group_keys R keys ↔ Some k ∈ keys.
Proof.
  rewrite group_keys_Permutation, elem_of_remove_dups, list_elem_of_omap.
  split; [|intros Hk; by exists (Some k)].
  intros (x & Hx & Hid). cbn in Hid. by subst.
Qed.

Lemma groupby_sum_keys keys vals : (groupby_sum R keys vals).*1 = group_keys R keys.
Proof.
  unfold groupby_sum. rewrite <- list_fmap_compose. apply list_fmap_id.
Qed.

Lemma elem_of_groupby_sum keys vals k v :
  (k, v) ∈ groupby_sum R keys vals ↔ Some k ∈ keys ∧ v = group_total keys vals k.
Proof.
  unfold groupby_sum. rewrite list_elem_of_fmap. split.
  - intros (k' & [= -> ->] & Hk%elem_of_group_keys). done.
  - intros [Hk ->]. exists k. split; [done|]. by apply elem_of_group_keys.
Qed.

Lemma group_total_cons key keys v vals (k : K) :
  group_total (key :: keys) (v :: vals) k
  = (if decide (key = Some k) then cell_value v else 0) + group_total keys vals k.
Proof.
  unfold group_total. cbn [fmap list_fmap select].
  unfold bool_decide at 1. destruct (decide_rel eq key (Some k)) as [->|Hne].
  - rewrite decide_True by done. done.
  - rewrite decide_False by done. done.
Qed.

(** The totals of the groups add up to the sum of the values of the rows
    that have a key. *)
Lemma group_total_sum (ks : list K) keys vals :
  NoDup ks → (∀ k, Some k ∈ keys → k ∈ ks) →
  length keys = length vals →
  sum_Z (group_total keys vals <$> ks)
  = sum_cells (select vals ((λ k, bool_decide (is_Some k)) <$> keys)).
Proof.
  intros Hnd. revert vals. induction keys as [|key keys IH]; intros vals Hin Hlen.
  - destruct vals; [|done]. cbn. unfold group_total. cbn.
    apply (sum_Z_zero ks).
  - destruct vals as [|v vals]; [done|]. injection Hlen as Hlen.
    rewrite (list_fmap_ext _ (λ k, (if decide (key = Some k) then cell_value v else 0)
                                   + group_total keys vals k) ks)
      by (intros; apply group_total_cons).
    rewrite sum_Z_add, IH; [|by intros k Hk; apply Hin; right|done].
    cbn [fmap list_fmap select].
    destruct key as [k0|]; cbn [sum_cells foldr].
    + rewrite bool_decide_eq_true_2 by eauto.
      rewrite (list_fmap_ext _ (λ k, if decide (k0 = k) then cell_value v else 0) ks).
      2:{ intros _ k _. destruct (decide (k0 = k)) as [->|Hne].
          - by rewrite decide_True.
          - rewrite decide_False; [done|congruence]. }
      rewrite sum_Z_indicator by done.
      rewrite decide_True by (apply Hin; by left). done.
    + rewrite bool_decide_eq_false_2 by (by intros [? ?]).
      rewrite (list_fmap_ext _ (λ _, 0) ks) by (intros; by rewrite decide_False).
      rewrite (sum_Z_zero ks). lia.
Qed.

Lemma groupby_sum_total keys vals :
  length keys = length vals →
  sum_Z (groupby_sum R keys vals).*2
  = sum_cells (select vals ((λ k, bool_decide (is_Some k)) <$> keys)).
Proof.
  intros Hlen. unfold groupby_sum. rewrite <- list_fmap_compose.
  change (snd ∘ _) with (group_total keys vals).
  apply group_total_sum; [apply group_keys_NoDup| |done].
  intros k. apply elem_of_group_keys.
Qed.

End GroupByFacts.

(** ** Sorting by positions *)

Lemma lookup_total_seq_fmap {A} `{!Inhabited A} (l : list A) :
  (λ i, l !!! i) <$> seq 0 (length l) = l.
Proof.
  apply list_eq. intros i. rewrite list_lookup_fmap.
  destruct (l !! i) as [x|] eqn:Hi.
  - assert (i < length l)%nat as Hlt by (by eapply lookup_lt_Some).
    rewrite (proj2 (lookup_seq 0 (length l) i i)) by done. simpl.
    by rewrite (list_lookup_total_correct _ _ _ Hi).
  - apply lookup_ge_None in Hi.
    rewrite (lookup_ge_None_2 (seq 0 (length l)) i); [done|].
    by rewrite length_seq.
Qed.

Lemma reverse_lookup_total {A} `{!Inhabited A} (l : list A) (i : nat) :
  (i < length l)%nat → reverse l !!! i = l !!! (length l - S i)%nat.
Proof. intros Hi. by rewrite !list_lookup_total_alt, reverse_lookup. Qed.

Lemma StronglySorted_fmap_inv {A B} (f : A → B) (R : relation B) (l : list A) :
  StronglySorted R (f <$> l) → StronglySorted (λ a b, R (f a) (f b)) l.
Proof.
  induction l as [|a l IH]; [intros _; apply SSorted_nil|].
  rewrite fmap_cons. intros Hs. inversion Hs as [|? ? Hl Hall]; subst.
  apply SSorted_cons; [by apply IH|].
  rewrite Forall_fmap in Hall. exact Hall.
Qed.

Lemma StronglySorted_take {A} (R : relation A) (n : nat) (l : list A) :
  StronglySorted R l → StronglySorted R (take n l).
Proof.
  intros Hl. rewrite <- (take_drop n l) in Hl.
  by apply StronglySorted_app_1_l in Hl.
Qed.

Lemma StronglySorted_le_lt (l : list Z) :
  StronglySorted Z.le l → NoDup l → StronglySorted Z.lt l.
Proof.
  induction 1 as [|x l Hl IH Hall]; intros Hnd; [apply SSorted_nil|].
  apply NoDup_cons in Hnd as [Hx Hnd]. apply SSorted_cons; [by apply IH|].
  apply Forall_forall. intros y Hy.
  assert (x ≤ y) by (by eapply Forall_forall in Hall).
  assert (x ≠ y) by (by intros ->). lia.
Qed.

Section SortValues.
Context {K : Type} `{!Inhabited K} (kind : SortKind) (t : list (K * Z)).

Lemma argsort_bound xs i : i ∈ argsort kind xs → (i < length xs)%nat.
Proof.
  rewrite (argsort_perm kind xs), elem_of_seq. lia.
Qed.

Lemma sort_values_desc_Permutation : sort_values_desc kind t ≡ₚ t.
Proof.
  unfold sort_values_desc.
  assert (argsort kind (reverse (t.*2)) ≡ₚ seq 0 (length t)) as Ha.
  { rewrite (argsort_perm kind). by rewrite length_reverse, length_fmap. }
  assert ((λ i, reverse (seq 0 (length t)) !!! i) <$> seq 0 (length t)
          = reverse (seq 0 (length t))) as Hr.
  { pose proof (lookup_total_seq_fmap (reverse (seq 0 (length t)))) as E.
    by rewrite length_reverse, length_seq in E. }
  rewrite reverse_Permutation, Ha, Hr, reverse_Permutation.
  by rewrite lookup_total_seq_fmap.
Qed.

Lemma sort_values_desc_values :
  (sort_values_desc kind t).*2
  = reverse ((λ i, reverse (t.*2) !!! i) <$> argsort kind (reverse (t.*2))).
Proof.
  unfold sort_values_desc.
  rewrite <- list_fmap_compose, fmap_reverse. f_equal.
  rewrite <- list_fmap_compose.
  apply list_fmap_ext. intros _ i Hi%list_elem_of_lookup_2%argsort_bound.
  rewrite length_reverse, length_fmap in Hi. cbn [compose].
  rewrite !reverse_lookup_total by (by rewrite ?length_seq, ?length_fmap).
  rewrite length_seq, length_fmap.
  rewrite lookup_total_seq_lt by lia. cbn [Nat.add].
  by rewrite (list_lookup_total_fmap snd t) by lia.
Qed.

Lemma sort_values_desc_sorted :
  StronglySorted (λ a b, b.2 ≤ a.2) (sort_values_desc kind t).
Proof.
  apply (StronglySorted_fmap_inv snd (flip Z.le)).
  rewrite sort_values_desc_values.
  apply Sorted_StronglySorted; [intros x y z; unfold flip; lia|].
  apply Sorted_reverse, argsort_sorted.
Qed.

End SortValues.

(** ** Two sorting algorithms *)

Section ArgsortBy.
Context (R : relation (nat * Z)) `{∀ x y, Decision (R x y)} `{!Total R}.
Context (R_le : ∀ a b, R a b → a.2 ≤ b.2).

Lemma argsort_by_perm xs : argsort_by R xs ≡ₚ seq 0 (length xs).
Proof.
  unfold argsort_by. rewrite merge_sort_Permutation.
  by rewrite fst_zip by (by rewrite length_seq).
Qed.

Lemma argsort_by_sorted xs :
  Sorted Z.le ((λ i, xs !!! i) <$> argsort_by R xs).
Proof.
  unfold argsort_by. rewrite <- list_fmap_compose.
  rewrite (list_fmap_ext _ snd).
  - apply (Sorted_fmap snd R Z.le); [done|]. by apply Sorted_merge_sort.
  - intros _ [i x] Hin%list_elem_of_lookup_2. cbn [compose fst snd].
    rewrite merge_sort_Permutation in Hin.
    apply list_elem_of_lookup in Hin as [j Hj].
    apply lookup_zip_with_Some in Hj as (i' & x' & [= -> ->] & Hi & Hx).
    apply lookup_seq in Hi as [-> _]. cbn [Nat.add].
    by apply list_lookup_total_correct.
Qed.

End ArgsortBy.

Global Instance ties_first_total : Total ties_first.
Proof. intros a b. unfold ties_first. lia. Qed.

Lemma ties_first_le a b : ties_first a b → a.2 ≤ b.2.
Proof. unfold ties_first. lia. Qed.

(** A stable algorithm (numpy's 'stable' and 'mergesort' kinds). *)
Definition stable_kind : SortKind :=
  mkSortKind (argsort_by ties_first) (argsort_by_perm ties_first)
             (argsort_by_sorted ties_first ties_first_le).

Lemma simd_argsort_is_argsort xs : is_argsort xs (simd_argsort xs).
Proof.
  unfold simd_argsort. case_decide as H; [by destruct H|].
  split.
  - apply (argsort_by_perm ties_first).
  - apply (argsort_by_sorted ties_first ties_first_le).
Qed.

(** The default algorithm ('quicksort') where numpy sorts with vector
    instructions. *)
Definition simd_kind : SortKind :=
  mkSortKind simd_argsort (λ xs, proj1 (simd_argsort_is_argsort xs))
             (λ xs, proj2 (simd_argsort_is_argsort xs)).

(** ** Grouped sums over the rows of a frame *)

Lemma getitem_columns df label :
  getitem df label =
  match find_label (columns df) label with
  | Some i => Ok (column_at i (rows df))
  | None => Raise (KeyError label)
  end.
Proof. destruct df. apply getitem_find. Qed.

Lemma empty_rows df : rows df = [] → empty df = true.
Proof. unfold empty. intros ->. apply orb_true_r. Qed.

Lemma empty_false df label i :
  find_label (columns df) label = Some i → rows df ≠ [] → empty df = false.
Proof.
  unfold empty. intros Hi Hr.
  rewrite (bool_decide_eq_false_2 (rows df = [])) by done.
  rewrite bool_decide_eq_false_2; [done|]. intros Hc. by rewrite Hc in Hi.
Qed.

Lemma length_column_at i (rs : list (list Cell)) : length (column_at i rs) = length rs.
Proof. apply length_fmap. Qed.

Lemma group_total_rows {K} `{EqDecision K} (g : Cell → option K) i j
    (rs : list (list Cell)) (k : K) :
  group_total ((λ r, g (r !!! i)) <$> rs) (column_at j rs) k
  = sum_cells (column_at j (filter (λ r, g (r !!! i) = Some k) rs)).
Proof.
  induction rs as [|r rs IH]; [done|].
  unfold column_at in *. rewrite !fmap_cons, group_total_cons, IH, filter_cons.
  destruct (decide (g (r !!! i) = Some k)); [|lia].
  by rewrite fmap_cons.
Qed.

Lemma group_key_Some c k : group_key c = Some k ↔ c = k ∧ k ≠ NaN.
Proof.
  unfold group_key. destruct c; simpl; split;
    try (intros [= <-]; by split); try (by intros [<- ?]); try done.
Qed.

Lemma select_all_Some {K} (keys : list (option K)) (vals : Series) :
  Forall is_Some keys → length keys = length vals →
  select vals ((λ k, bool_decide (is_Some k)) <$> keys) = vals.
Proof.
  intros Hall. revert vals. induction Hall as [|k keys Hk Hall IH];
    intros [|v vals] Hlen; try done.
  injection Hlen as Hlen. rewrite fmap_cons. cbn [select].
  rewrite bool_decide_eq_true_2 by done. by rewrite IH.
Qed.

Lemma sort_values_desc_nil {K} `{!Inhabited K} kind :
  sort_values_desc kind ([] : list (K * Z)) = [].
Proof. apply Permutation_nil_r, sort_values_desc_Permutation. Qed.

(** The keys and the totals of [groupby], read on the rows. *)
Lemma elem_of_groupby_rows {K} `{EqDecision K} (R : relation K)
    `{∀ x y, Decision (R x y)} (g : Cell → option K) i j
    (rs : list (list Cell)) (k : K) (v : Z) :
  (k, v) ∈ groupby_sum R ((λ r, g (r !!! i)) <$> rs) (column_at j rs)
  ↔ (∃ r, r ∈ rs ∧ g (r !!! i) = Some k)
    ∧ v = sum_cells (column_at j (filter (λ r, g (r !!! i) = Some k) rs)).
Proof.
  rewrite elem_of_groupby_sum, group_total_rows, list_elem_of_fmap. split.
  - intros [(r & Hk & Hr) ->]. split; [|done]. by exists r.
  - intros [(r & Hr & Hk) ->]. split; [|done]. by exists r.
Qed.

(** ** The canonical dataset *)

Lemma fillna_notna s c : fillna (Str s) c ≠ NaN.
Proof. by destruct c. Qed.

Lemma to_datetime_total_ok conv col c :
  date_ok conv col c = true → dt_ok (to_datetime_total conv col c).
Proof.
  unfold date_ok, to_datetime_total.
  destruct c as [|z|s|t]; simpl; try done.
  by destruct (str_to_datetime conv col s) as [[t|]|].
Qed.

Lemma layout_bound cols lay i :
  layout cols = Some lay → i ∈ layout_indices lay → (i < length cols)%nat.
Proof.
  intros Hlay%layout_lookup Hi.
  apply (list_elem_of_fmap_2 (λ i, cols !! i)) in Hi. rewrite Hlay in Hi.
  apply list_elem_of_fmap in Hi as (l & Hl & _).
  by eapply lookup_lt_Some.
Qed.

Ltac in_layout :=
  unfold layout_indices;
  repeat first [apply list_elem_of_here | apply list_elem_of_further].

Lemma clean_row_canonical conv col cols lay r :
  layout cols = Some lay → length r = length cols →
  date_ok conv col (r !!! date_i lay) = true → keep_row conv lay r →
  canonical_row lay (clean_row conv col lay r).
Proof.
  intros Hlay Hlen Hd Hk.
  pose proof (layout_NoDup _ _ Hlay) as Hnd.
  assert (∀ i, i ∈ layout_indices lay → (i < length r)%nat) as Hb.
  { intros i Hi. rewrite Hlen. by eapply layout_bound. }
  destruct (keep_row_elim _ _ _ Hk) as [Hs [z Hz]].
  unfold canonical_row. split_and!.
  - unfold clean_row. distinct_indices Hnd.
    rewrite !(upd_lookup_ne _ (date_i lay)) by done.
    rewrite upd_lookup_eq by (apply Hb; in_layout).
    by apply to_datetime_total_ok.
  - by rewrite clean_row_status.
  - exists z. rewrite clean_row_fare, Hz; [done..|].
    intros Hnan. by rewrite Hnan in Hz.
  - unfold clean_row. distinct_indices Hnd.
    rewrite !(upd_lookup_ne _ (pickup_i lay)) by done.
    rewrite upd_lookup_eq by (rewrite !upd_length; apply Hb; in_layout).
    apply fillna_notna.
  - unfold clean_row. distinct_indices Hnd.
    rewrite !(upd_lookup_ne _ (dropoff_i lay)) by done.
    rewrite upd_lookup_eq by (rewrite !upd_length; apply Hb; in_layout).
    apply fillna_notna.
  - unfold clean_row. distinct_indices Hnd.
    rewrite !(upd_lookup_ne _ (payment_i lay)) by done.
    rewrite upd_lookup_eq by (rewrite !upd_length; apply Hb; in_layout).
    apply fillna_notna.
  - unfold clean_row. distinct_indices Hnd.
    rewrite upd_lookup_eq by (rewrite !upd_length; apply Hb; in_layout).
    apply fillna_notna.
Qed.

(** A successful load of a rectangular frame gives a canonical dataset. *)
Lemma load_data_canonical conv raw df :
  rectangular raw → load_data_try conv (Ok raw) = Ok df → canonical df.
Proof.
  intros Hrect Hok%load_data_try_Ok. unfold load_data_rows in Hok.
  destruct (layout (canonical_columns raw)) as [lay|] eqn:Hlay; [|done].
  cbn [mbind option_bind] in Hok. cbv zeta in Hok.
  destruct (forallb _ _) eqn:Hdates; [|done]. injection Hok as <-.
  exists lay. cbn [columns rows]. split; [done|].
  apply Forall_fmap, Forall_forall. intros r [Hk Hr]%list_elem_of_filter.
  cbn [compose].
  apply (clean_row_canonical conv _ (canonical_columns raw)); [done| | |done].
  - unfold rectangular in Hrect. rewrite Forall_forall in Hrect.
    rewrite (Hrect r Hr). unfold canonical_columns. by rewrite !length_fmap.
  - rewrite forallb_forall in Hdates. by apply Hdates, list_elem_of_In.
Qed.

(** Filtering keeps a dataset canonical. *)
Lemma apply_filters_canonical df date_range pickup_filter dropoff_filter
    vehicle_filter out :
  canonical df →
  apply_filters df date_range pickup_filter dropoff_filter vehicle_filter = Ok out →
  canonical out.
Proof.
  intros (lay & Hlay & Hrows) Hout.
  destruct (row_filter_apply_filters _ _ _ _ _ _ Hout) as (p & -> & _).
  exists lay. cbn [columns rows]. split; [done|].
  rewrite Forall_forall in Hrows. apply Forall_forall.
  intros r [_ Hr]%list_elem_of_filter. by apply Hrows.
Qed.

Lemma filter_isin_Ok label flt df :
  is_Some (find_label (columns df) label) →
  ∃ out, filter_isin label flt df = Ok out ∧ columns out = columns df.
Proof.
  intros [i Hi]. destruct (decide (select_all flt)) as [Hall|Hn].
  - exists df. by rewrite filter_isin_skip.
  - destruct df as [cols rs]. rewrite filter_isin_active by done.
    cbn [columns] in Hi. rewrite Hi. by eexists.
Qed.

(** A column in which some record has a date is not all NaT. *)
Lemma all_nat_dated i (rs : list (list Cell)) r :
  r ∈ rs → dt_ok (r !!! i) → r !!! i ≠ NaN →
  all_nat ((λ r, day_of (r !!! i)) <$> rs) = false.
Proof.
  intros Hr Hdt Hnn. unfold all_nat.
  destruct (forallb _ _) eqn:E; [|by rewrite andb_false_r].
  rewrite forallb_forall in E.
  assert (day_of (r !!! i) ∈ (λ r, day_of (r !!! i)) <$> rs) as Hin
    by (apply list_elem_of_fmap; eauto).
  apply list_elem_of_In, E, bool_decide_eq_true in Hin.
  unfold dt_ok, day_of in *. by destruct (r !!! i).
Qed.

Lemma filter_date_Ok date_range df lay :
  layout (columns df) = Some lay → Forall (canonical_row lay) (rows df) →
  date_range = []
    ∨ (∃ start_date end_date, date_range = [start_date; end_date]
         ∧ ∃ r, r ∈ rows df ∧ r !!! date_i lay ≠ NaN) →
  ∃ out, filter_date date_range df = Ok out ∧ columns out = columns df.
Proof.
  intros Hlay Hrows [->|(start_date & end_date & -> & r & Hr & Hnn)].
  - by exists df.
  - destruct df as [cols rs]. rewrite filter_date_active.
    cbn [columns rows] in *.
    pose proof (layout_find _ _ Hlay) as Hf. injection Hf as Hd _.
    rewrite Hd. rewrite Forall_forall in Hrows.
    assert (forallb (λ r, dt_ok (r !!! date_i lay)) rs = true) as ->.
    { apply forallb_forall. intros r' Hr'%list_elem_of_In.
      destruct (Hrows r' Hr') as [Hdt _]. by apply Is_true_true. }
    rewrite (all_nat_dated _ _ r) by (done || by destruct (Hrows r Hr)).
    by eexists.
Qed.

(** On a canonical dataset, with no date range, or with a start and an end
    when some record has a date, [apply_filters] raises nothing. *)
Lemma apply_filters_Ok df lay date_range pickup_filter dropoff_filter
    vehicle_filter :
  layout (columns df) = Some lay → Forall (canonical_row lay) (rows df) →
  date_range = []
    ∨ (∃ start_date end_date, date_range = [start_date; end_date]
         ∧ ∃ r, r ∈ rows df ∧ r !!! date_i lay ≠ NaN) →
  ∃ out,
    apply_filters df date_range pickup_filter dropoff_filter vehicle_filter = Ok out.
Proof.
  intros Hlay Hc Hdr.
  pose proof (layout_find _ _ Hlay) as Hf.
  injection Hf as _ _ _ _ _ _ Hpick Hdrop _ Hveh.
  unfold apply_filters.
  destruct (filter_date_Ok date_range df lay Hlay Hc Hdr) as (d1 & -> & E1).
  cbn [mbind result_bind].
  destruct (filter_isin_Ok "pickup" pickup_filter d1) as (d2 & -> & E2);
    [rewrite E1; eauto|].
  cbn [mbind result_bind].
  destruct (filter_isin_Ok "dropoff" dropoff_filter d2) as (d3 & -> & E3);
    [rewrite E2, E1; eauto|].
  cbn [mbind result_bind].
  destruct (filter_isin_Ok "vehicle_type" vehicle_filter d3) as (d4 & -> & E4);
    [rewrite E3, E2, E1; eauto|].
  cbn [mbind result_bind]. by eexists.
Qed.

(** C9.  Filtering is idempotent: when [apply_filters] returns a frame,
    applying it again to that frame with the same criteria returns the
    same frame.  On a canonical dataset it does return a frame when no date
    range is given, and when a start and an end are given and some record
    has a date. *)
Theorem apply_filters_idempotent :
  (∀ df date_range pickup_filter dropoff_filter vehicle_filter out,
     apply_filters df date_range pickup_filter dropoff_filter vehicle_filter
       = Ok out →
     apply_filters out date_range pickup_filter dropoff_filter vehicle_filter
       = Ok out)
  ∧ (∀ df lay date_range pickup_filter dropoff_filter vehicle_filter,
       layout (columns df) = Some lay → Forall (canonical_row lay) (rows df) →
       date_range = []
         ∨ (∃ start_date end_date, date_range = [start_date; end_date]
              ∧ ∃ r, r ∈ rows df ∧ r !!! date_i lay ≠ NaN) →
       ∃ out,
         apply_filters df date_range pickup_filter dropoff_filter vehicle_filter
           = Ok out
         ∧ apply_filters out date_range pickup_filter dropoff_filter
             vehicle_filter = Ok out).
Proof.
  assert (∀ df date_range pickup_filter dropoff_filter vehicle_filter out,
     apply_filters df date_range pickup_filter dropoff_filter vehicle_filter
       = Ok out →
     apply_filters out date_range pickup_filter dropoff_filter vehicle_filter
       = Ok out) as Hidem.
  { intros df date_range pickup_filter dropoff_filter vehicle_filter out.
    apply (row_filter_idem (λ df,
      apply_filters df date_range pickup_filter dropoff_filter vehicle_filter)).
    apply row_filter_apply_filters. }
  split; [exact Hidem|].
  intros df lay date_range pickup_filter dropoff_filter vehicle_filter Hlay Hc Hdr.
  destruct (apply_filters_Ok df lay date_range pickup_filter dropoff_filter
              vehicle_filter Hlay Hc Hdr) as [out Hout].
  exists out. split; [done|]. by apply (Hidem df).
Qed.

Lemma apply_filters_idempotent_witness :
  apply_filters scenario
    [days_from_civil 2024 1 1; days_from_civil 2024 1 1] ["A"; "B"] [] ["Auto"]
  = Ok scenario_first_day
  ∧ apply_filters scenario_first_day
      [days_from_civil 2024 1 1; days_from_civil 2024 1 1] ["A"; "B"] [] ["Auto"]
    = Ok scenario_first_day.
Proof.
  assert (apply_filters scenario
            [days_from_civil 2024 1 1; days_from_civil 2024 1 1]
            ["A"; "B"] [] ["Auto"] = Ok scenario_first_day) as H
    by (by vm_compute).
  split; [exact H|].
  exact (proj1 apply_filters_idempotent _ _ _ _ _ _ H).
Defined.

(** X1.  Every dataset that [main] hands to the aggregator, a filtered load
    of a rectangular frame, is canonical or has no row: its status is
    "Completed", its fare a number, its date a timestamp or null, and its
    pickup, dropoff, payment type and vehicle type are never null. *)
Theorem filtered_load_is_canonical conv raw date_range pickup_filter
    dropoff_filter vehicle_filter df :
  rectangular raw →
  apply_filters (load_data conv (Ok raw)) date_range pickup_filter
    dropoff_filter vehicle_filter = Ok df →
  canonical df ∨ rows df = [].
Proof.
  intros Hrect Hdf. unfold load_data in Hdf.
  destruct (load_data_try conv (Ok raw)) as [loaded|e] eqn:Hload.
  - left. eapply apply_filters_canonical; [|done].
    by eapply load_data_canonical.
  - right. destruct (row_filter_apply_filters _ _ _ _ _ _ Hdf) as (p & -> & _).
    done.
Qed.

Lemma filtered_load_is_canonical_witness :
  rectangular scenario_raw
  ∧ apply_filters (load_data sample_conversions (Ok scenario_raw))
      [days_from_civil 2024 1 1; days_from_civil 2024 1 1] ["A"; "B"] [] ["Auto"]
    = Ok scenario_first_day
  ∧ (canonical scenario_first_day ∨ rows scenario_first_day = []).
Proof.
  assert (rectangular scenario_raw) as Hrect.
  { unfold rectangular. cbn [rows columns scenario_raw].
    unfold completed_rows. repeat constructor. }
  assert (apply_filters (load_data sample_conversions (Ok scenario_raw))
            [days_from_civil 2024 1 1; days_from_civil 2024 1 1]
            ["A"; "B"] [] ["Auto"] = Ok scenario_first_day) as H
    by (by vm_compute).
  split_and!; [exact Hrect|exact H|].
  exact (filtered_load_is_canonical _ _ _ _ _ _ _ Hrect H).
Defined.

(** ** Charts *)

Lemma create_trend_chart_rows df i j :
  find_label (columns df) "date" = Some i →
  find_label (columns df) "fare" = Some j →
  forallb (λ r, dt_ok (r !!! i)) (rows df) = true →
  create_trend_chart df
  = Ok (groupby_sum Z.le ((λ r, day_of (r !!! i)) <$> rows df)
                    (column_at j (rows df))).
Proof.
  intros Hi Hj Hok. unfold create_trend_chart.
  destruct (empty df) eqn:He.
  - destruct (rows df) as [|r rs] eqn:Hr; [done|].
    by rewrite (empty_false df "date" i) in He by (done || by rewrite Hr).
  - rewrite !getitem_columns, Hi, Hj. cbn [mbind result_bind].
    rewrite dt_date_column, Hok. done.
Qed.

Lemma create_groupby_chart_rows df column i j :
  find_label (columns df) column = Some i →
  find_label (columns df) "fare" = Some j →
  create_donut_chart df column
  = Ok (groupby_sum cell_le ((λ r, group_key (r !!! i)) <$> rows df)
                    (column_at j (rows df))).
Proof.
  intros Hi Hj. unfold create_donut_chart.
  destruct (empty df) eqn:He.
  - destruct (rows df) as [|r rs] eqn:Hr; [done|].
    by rewrite (empty_false df column i) in He by (done || by rewrite Hr).
  - rewrite !getitem_columns, Hi, Hj. cbn [mbind result_bind].
    unfold column_at at 1. by rewrite <- list_fmap_compose.
Qed.

Lemma create_location_chart_rows kind df location_type i j :
  find_label (columns df) location_type = Some i →
  find_label (columns df) "fare" = Some j →
  create_location_chart kind df location_type
  = Ok (take 10 (sort_values_desc kind
         (groupby_sum cell_le ((λ r, group_key (r !!! i)) <$> rows df)
                      (column_at j (rows df))))).
Proof.
  intros Hi Hj. unfold create_location_chart.
  destruct (empty df) eqn:He.
  - destruct (rows df) as [|r rs] eqn:Hr.
    + cbn. by rewrite sort_values_desc_nil.
    + by rewrite (empty_false df location_type i) in He by (done || by rewrite Hr).
  - rewrite !getitem_columns, Hi, Hj. cbn [mbind result_bind].
    unfold column_at at 1. by rewrite <- list_fmap_compose.
Qed.

(** C8.  The trend is grouped by calendar day: on a frame whose date column
    holds timestamps (or nulls), the days of the table are in strictly
    increasing order, a day is in the table exactly when some record falls
    on it, and its value is the sum of the fares of the records of that
    day.  For the three rides of the scenario the table is
    [(2024-01-01, 150), (2024-01-02, 25)]. *)
Theorem trend_groups_by_day :
  (∀ df i j,
     find_label (columns df) "date" = Some i →
     find_label (columns df) "fare" = Some j →
     forallb (λ r, dt_ok (r !!! i)) (rows df) = true →
     ∃ out, create_trend_chart df = Ok out
       ∧ StronglySorted Z.lt out.*1
       ∧ ∀ d v, (d, v) ∈ out ↔
           (∃ r, r ∈ rows df ∧ day_of (r !!! i) = Some d)
           ∧ v = sum_cells (column_at j
                   (filter (λ r, day_of (r !!! i) = Some d) (rows df))))
  ∧ (∀ df, canonical df ∨ rows df = [] →
       ∃ out, create_trend_chart df = Ok out ∧ StronglySorted Z.lt out.*1)
  ∧ ((λ r, (day_of (r !!! date_i sample_layout), r !!! pickup_i sample_layout,
           r !!! fare_i sample_layout)) <$> rows scenario
     = [(Some (days_from_civil 2024 1 1), Str "A", Num 100);
        (Some (days_from_civil 2024 1 1), Str "B", Num 50);
        (Some (days_from_civil 2024 1 2), Str "A", Num 25)]
     ∧ create_trend_chart scenario
       = Ok [(days_from_civil 2024 1 1, 150); (days_from_civil 2024 1 2, 25)]).
Proof.
  assert (∀ df i j,
     find_label (columns df) "date" = Some i →
     find_label (columns df) "fare" = Some j →
     forallb (λ r, dt_ok (r !!! i)) (rows df) = true →
     ∃ out, create_trend_chart df = Ok out
       ∧ StronglySorted Z.lt out.*1
       ∧ ∀ d v, (d, v) ∈ out ↔
           (∃ r, r ∈ rows df ∧ day_of (r !!! i) = Some d)
           ∧ v = sum_cells (column_at j
                   (filter (λ r, day_of (r !!! i) = Some d) (rows df))))
    as Hgen.
  { intros df i j Hi Hj Hok. eexists. split; [by apply create_trend_chart_rows|].
    split.
    - rewrite groupby_sum_keys. apply StronglySorted_le_lt.
      + apply StronglySorted_merge_sort; apply _.
      + apply group_keys_NoDup.
    - intros d v. apply elem_of_groupby_rows. }
  split_and!; [exact Hgen| |by vm_compute..].
  intros df [(lay & Hlay & Hrows)|Hnil].
  - pose proof (layout_find _ _ Hlay) as Hf. injection Hf as Hd _ Hfare _.
    destruct (Hgen df _ _ Hd Hfare) as (out & Hout & Hsorted & _); [|by eauto].
    apply forallb_forall. intros r Hr%list_elem_of_In.
    rewrite Forall_forall in Hrows. destruct (Hrows r Hr) as [Hdt _].
    by apply Is_true_true.
  - exists []. unfold create_trend_chart. rewrite (empty_rows _ Hnil).
    split; [done|apply SSorted_nil].
Qed.

Lemma create_kpi_metrics_total df j :
  find_label (columns df) "fare" = Some j →
  is_Some (find_label (columns df) "distance_miles") →
  is_Some (find_label (columns df) "duration_min") →
  ∃ kpi, create_kpi_metrics df = Ok kpi
    ∧ total_booking_value kpi = sum_cells (column_at j (rows df))
    ∧ total_bookings kpi = length (rows df).
Proof.
  intros Hj [di Hdi] [du Hdu]. unfold create_kpi_metrics.
  destruct (empty df) eqn:He.
  - destruct (rows df) as [|r rs] eqn:Hr; [by eexists|].
    by rewrite (empty_false df "fare" j) in He by (done || by rewrite Hr).
  - rewrite !getitem_columns, Hj, Hdi, Hdu. cbn [mbind result_bind].
    by eexists.
Qed.

(** C7 (counterexample).  Three rides with the fares 0.1, 0.2 and 0.4, the
    first and the last paid in cash.  In float64 the slices of the breakdown
    by payment type are 0.5 and 0.2 and add up to 0.7, while the total of
    the three fares is 0.7000000000000001. *)
Lemma float_breakdown_misses_the_total :
  decimal_fares
  = [SpecFloat.S754_finite false 7205759403792794 (-56);
     SpecFloat.S754_finite false 7205759403792794 (-55);
     SpecFloat.S754_finite false 7205759403792794 (-54)]
  ∧ groupby_sum_f64 (group_key <$> decimal_payments) decimal_fares
    = [(Str "Cash", SpecFloat.S754_finite false 4503599627370496 (-53));
       (Str "UPI", SpecFloat.S754_finite false 7205759403792794 (-55))]
  ∧ f64_sum (groupby_sum_f64 (group_key <$> decimal_payments) decimal_fares).*2
    = SpecFloat.S754_finite false 6305039478318694 (-53)
  ∧ f64_sum decimal_fares = SpecFloat.S754_finite false 6305039478318695 (-53)
  ∧ f64_sum (groupby_sum_f64 (group_key <$> decimal_payments) decimal_fares).*2
    ≠ f64_sum decimal_fares.
Proof. split_and!; by vm_compute. Qed.

(** C7 (amended).  When the fares are whole numbers whose absolute values
    add up to at most 2^53, so that float64 adds them exactly, the values of
    a categorical breakdown add up to the total fare: on every frame in
    which the category is never null, so on every canonical (or empty)
    dataset for [payment_type] and [vehicle_type], where the total is the
    booking value of [create_kpi_metrics]; on the scenario both breakdowns
    add up to 175. *)
Theorem breakdown_adds_up_to_total :
  (∀ df column i j,
     find_label (columns df) column = Some i →
     find_label (columns df) "fare" = Some j →
     (∀ r, r ∈ rows df → r !!! i ≠ NaN) →
     sums_exactly (column_at j (rows df)) →
     ∃ out, create_donut_chart df column = Ok out
       ∧ sum_Z out.*2 = sum_cells (column_at j (rows df)))
  ∧ (∀ df column,
       canonical df ∨ rows df = [] →
       column = "payment_type" ∨ column = "vehicle_type" →
       exact_sums df "fare" →
       ∃ out kpi, create_donut_chart df column = Ok out
         ∧ create_kpi_metrics df = Ok kpi
         ∧ sum_Z out.*2 = total_booking_value kpi)
  ∧ (exact_sums scenario "fare"
     ∧ create_donut_chart scenario "payment_type"
       = Ok [(Str "Cash", 25); (Str "UPI", 100); (Str "Unknown", 50)]
     ∧ create_donut_chart scenario "vehicle_type"
       = Ok [(Str "Auto", 100); (Str "Bike", 50); (Str "Unknown", 25)]
     ∧ total_booking_value <$> ok_value (create_kpi_metrics scenario) = Some 175).
Proof.
  assert (∀ df column i j,
     find_label (columns df) column = Some i →
     find_label (columns df) "fare" = Some j →
     (∀ r, r ∈ rows df → r !!! i ≠ NaN) →
     ∃ out, create_donut_chart df column = Ok out
       ∧ sum_Z out.*2 = sum_cells (column_at j (rows df))) as Hgen.
  { intros df column i j Hi Hj Hnn. eexists.
    split; [by apply create_groupby_chart_rows|].
    rewrite groupby_sum_total by (by rewrite length_column_at, length_fmap).
    f_equal. apply select_all_Some; [|by rewrite length_column_at, length_fmap].
    apply Forall_fmap, Forall_forall. intros r Hr. cbn [compose].
    specialize (Hnn r Hr). unfold group_key. by destruct (r !!! i). }
  split_and!; [ | | |by vm_compute..].
  { intros df column i j Hi Hj Hnn _. by apply (Hgen df column i j). }
  2:{ intros j Hj. vm_compute in Hj. injection Hj as <-. by_evaluation. }
  intros df column [(lay & Hlay & Hrows)|Hnil] Hcol _.
  2:{ exists [], (mkKpi 0 0 f64_zero 0 f64_zero).
      unfold create_donut_chart, create_kpi_metrics.
      by rewrite (empty_rows _ Hnil). }
  pose proof (layout_find _ _ Hlay) as Hf.
  injection Hf as _ _ Hfare Hdi Hdu _ _ _ Hpay Hveh.
  rewrite Forall_forall in Hrows.
  destruct (create_kpi_metrics_total df _ Hfare) as (kpi & Hkpi & Htot & _);
    [by eexists..|].
  assert (∃ i, find_label (columns df) column = Some i
               ∧ ∀ r, r ∈ rows df → r !!! i ≠ NaN) as (i & Hi & Hnn).
  { destruct Hcol as [-> | ->].
    - exists (payment_i lay). split; [done|]. intros r Hr.
      by destruct (Hrows r Hr) as (_ & _ & _ & _ & _ & ? & _).
    - exists (vehicle_i lay). split; [done|]. intros r Hr.
      by destruct (Hrows r Hr) as (_ & _ & _ & _ & _ & _ & ?). }
  destruct (Hgen df column i _ Hi Hfare Hnn) as (out & Hout & Hsum).
  exists out, kpi. by rewrite Htot.
Qed.

(** C6 (counterexample).  Four pickup locations, "A" and "B" with a revenue
    of 10, "C" and "D" with a revenue of 20, in this group order.  With the
    default sort of numpy on a vector processor the ranking is "D", "C",
    "B", "A": in descending order of revenue, with both ties against the
    group order ("C" before "D" and "A" before "B" would keep it).  Two
    locations with the same revenue alone stay in group order. *)
Lemma ranking_ties_not_in_group_order :
  create_donut_chart four_pickups "pickup"
  = Ok [(Str "A", 10); (Str "B", 10); (Str "C", 20); (Str "D", 20)]
  ∧ create_location_chart simd_kind four_pickups "pickup"
    = Ok [(Str "D", 20); (Str "C", 20); (Str "B", 10); (Str "A", 10)]
  ∧ create_location_chart stable_kind four_pickups "pickup"
    = Ok [(Str "C", 20); (Str "D", 20); (Str "A", 10); (Str "B", 10)]
  ∧ create_location_chart simd_kind tie "pickup"
    = Ok [(Str "A", 50); (Str "B", 50)].
Proof. by vm_compute. Qed.

(** C6 (amended).  Whatever the sorting algorithm: the ranking is the
    first ten entries of a list that holds each non-null location once,
    with the sum of the fares of its records, in descending order of that
    sum; the order of entries with equal sums is the algorithm's.  On every
    canonical (or empty) dataset the ranking by pickup or by dropoff is
    returned, has at most ten entries and is in descending order.  For the
    scenario, where no two sums are equal, the ranking is
    [("A", 125), ("B", 50)] with every algorithm. *)
Theorem location_ranking_top_ten :
  (∀ kind df location_type i j,
     find_label (columns df) location_type = Some i →
     find_label (columns df) "fare" = Some j →
     ∃ ranked,
       create_location_chart kind df location_type = Ok (take 10 ranked)
       ∧ (length (take 10 ranked) ≤ 10)%nat
       ∧ StronglySorted (λ a b, b.2 ≤ a.2) ranked
       ∧ NoDup ranked.*1
       ∧ ∀ k v, (k, v) ∈ ranked ↔
           (k ≠ NaN ∧ ∃ r, r ∈ rows df ∧ r !!! i = k)
           ∧ v = sum_cells (column_at j (filter (λ r, r !!! i = k) (rows df))))
  ∧ (∀ kind df location_type,
       canonical df ∨ rows df = [] →
       location_type = "pickup" ∨ location_type = "dropoff" →
       ∃ out, create_location_chart kind df location_type = Ok out
         ∧ (length out ≤ 10)%nat
         ∧ StronglySorted (λ a b, b.2 ≤ a.2) out)
  ∧ (∀ kind, create_location_chart kind scenario "pickup"
             = Ok [(Str "A", 125); (Str "B", 50)]).
Proof.
  assert (∀ kind df location_type i j,
     find_label (columns df) location_type = Some i →
     find_label (columns df) "fare" = Some j →
     ∃ ranked,
       create_location_chart kind df location_type = Ok (take 10 ranked)
       ∧ (length (take 10 ranked) ≤ 10)%nat
       ∧ StronglySorted (λ a b, b.2 ≤ a.2) ranked
       ∧ NoDup ranked.*1
       ∧ ∀ k v, (k, v) ∈ ranked ↔
           (k ≠ NaN ∧ ∃ r, r ∈ rows df ∧ r !!! i = k)
           ∧ v = sum_cells (column_at j (filter (λ r, r !!! i = k) (rows df))))
    as Hgen.
  { intros kind df location_type i j Hi Hj. eexists.
    split; [by apply create_location_chart_rows|].
    split; [rewrite length_take; lia|].
    split; [apply sort_values_desc_sorted|].
    split.
    - rewrite sort_values_desc_Permutation, groupby_sum_keys.
      apply group_keys_NoDup.
    - intros k v. rewrite sort_values_desc_Permutation, elem_of_groupby_rows.
      split.
      + intros [(r & Hr & [<- Hk]%group_key_Some) ->]. split; [by eauto|].
        f_equal. f_equal. apply list_filter_iff. intros r'.
        rewrite group_key_Some. tauto.
      + intros [[Hk (r & Hr & <-)] ->]. split.
        * exists r. split; [done|]. by apply group_key_Some.
        * f_equal. f_equal. apply list_filter_iff. intros r'.
          rewrite group_key_Some. tauto. }
  split; [exact Hgen|]. split.
  { intros kind df location_type [(lay & Hlay & Hrows)|Hnil] Hloc.
    - pose proof (layout_find _ _ Hlay) as Hf.
      injection Hf as _ _ Hfare _ _ _ Hpick Hdrop _ _.
      assert (∃ i, find_label (columns df) location_type = Some i) as [i Hi]
        by (destruct Hloc as [-> | ->]; eauto).
      destruct (Hgen kind df location_type i _ Hi Hfare)
        as (ranked & Hout & Hlen & Hsorted & _).
      exists (take 10 ranked). split_and!; [done..|].
      by apply StronglySorted_take.
    - exists []. unfold create_location_chart. rewrite (empty_rows _ Hnil).
      split_and!; [done|cbn; lia|apply SSorted_nil]. }
  intros kind.
  rewrite (create_location_chart_rows kind scenario "pickup"
             (pickup_i sample_layout) (fare_i sample_layout))
    by (by vm_compute).
  assert (groupby_sum cell_le
            ((λ r, group_key (r !!! pickup_i sample_layout)) <$> rows scenario)
            (column_at (fare_i sample_layout) (rows scenario))
          = [(Str "A", 125); (Str "B", 50)]) as -> by (by vm_compute).
  pose proof (sort_values_desc_Permutation kind [(Str "A", 125); (Str "B", 50)])
    as Hperm.
  pose proof (sort_values_desc_sorted kind [(Str "A", 125); (Str "B", 50)])
    as Hsorted.
  symmetry in Hperm. apply Permutation_length_2_inv in Hperm as [-> | E]; [done|].
  rewrite E in Hsorted. apply StronglySorted_cons in Hsorted as [Hle _].
  apply Forall_cons in Hle as [Hle _]. cbn in Hle. lia.
Qed.

(** * Further properties of the pipeline

    ** White space around a label *)

Lemma string_app_cons c (s t : string) : String c s +:+ t = String c (s +:+ t).
Proof. done. Qed.

Lemma string_app_empty_r (s : string) : s +:+ "" = s.
Proof. induction s as [|c s IH]; [done|]. by rewrite string_app_cons, IH. Qed.

Lemma string_app_assoc (s t u : string) : s +:+ (t +:+ u) = (s +:+ t) +:+ u.
Proof. induction s as [|c s IH]; [done|]. by rewrite !string_app_cons, IH. Qed.

Lemma string_rev_app_app s t : String.rev_app s t = String.rev s +:+ t.
Proof.
  unfold String.rev. revert t. induction s as [|c s IH]; intros t; [done|].
  cbn [String.rev_app]. rewrite IH, (IH (String c "")).
  by rewrite <- string_app_assoc.
Qed.

Lemma string_rev_cons c s : String.rev (String c s) = String.rev s +:+ String c "".
Proof. unfold String.rev at 1. cbn [String.rev_app]. apply string_rev_app_app. Qed.

Lemma string_rev_app_distr s t : String.rev (s +:+ t) = String.rev t +:+ String.rev s.
Proof.
  induction s as [|c s IH].
  - change ("" +:+ t) with t. by rewrite string_app_empty_r.
  - rewrite string_app_cons, !string_rev_cons, IH. by rewrite string_app_assoc.
Qed.

Lemma string_rev_involutive s : String.rev (String.rev s) = s.
Proof.
  induction s as [|c s IH]; [done|].
  by rewrite string_rev_cons, string_rev_app_distr, IH.
Qed.

Lemma blank_app s t : blank (s +:+ t) = blank s && blank t.
Proof.
  induction s as [|c s IH]; [done|]. rewrite string_app_cons. cbn [blank].
  rewrite IH. by rewrite andb_assoc.
Qed.

Lemma blank_rev s : blank (String.rev s) = blank s.
Proof.
  induction s as [|c s IH]; [done|].
  rewrite string_rev_cons, blank_app, IH. cbn [blank]. rewrite andb_true_r. apply andb_comm.
Qed.

Lemma lstrip_app s t :
  lstrip (s +:+ t) = if blank s then lstrip t else lstrip s +:+ t.
Proof.
  induction s as [|c s IH]; [done|]. rewrite string_app_cons. cbn [lstrip blank].
  destruct (py_isspace c); [|done]. apply IH.
Qed.

Lemma lstrip_blank s : blank s = true → lstrip s = "".
Proof.
  induction s as [|c s IH]; [done|]. cbn [lstrip blank].
  intros [-> Hs]%andb_true_iff. by apply IH.
Qed.

Lemma lstrip_clean s : starts_clean s = true → lstrip s = s.
Proof. destruct s as [|c s]; [done|]. cbn. by intros ->%negb_true_iff. Qed.

Lemma starts_clean_lstrip s : starts_clean (lstrip s) = true.
Proof.
  induction s as [|c s IH]; [done|]. cbn [lstrip].
  destruct (py_isspace c) eqn:E; [done|]. cbn [starts_clean]. by rewrite E.
Qed.

(** White space around a string is not seen by [strip]. *)
Lemma strip_pad l s r :
  blank l = true → blank r = true → strip (l +:+ s +:+ r) = strip s.
Proof.
  intros Hl Hr. unfold strip. rewrite (lstrip_app l), Hl, (lstrip_app s).
  destruct (blank s) eqn:Hs.
  - by rewrite (lstrip_blank r), (lstrip_blank s).
  - by rewrite string_rev_app_distr, lstrip_app, blank_rev, Hr.
Qed.

(** Removing white space at the end leaves a clean start clean. *)
Lemma starts_clean_rstrip s :
  starts_clean s = true → starts_clean (String.rev (lstrip (String.rev s))) = true.
Proof.
  destruct s as [|c s]; [done|]. cbn [starts_clean]. intros Hc.
  rewrite string_rev_cons, lstrip_app.
  destruct (blank (String.rev s)).
  - cbn [lstrip]. apply negb_true_iff in Hc. rewrite Hc. cbn. by rewrite Hc.
  - rewrite string_rev_app_distr. cbn. done.
Qed.

Lemma strip_idem s : strip (strip s) = strip s.
Proof.
  unfold strip. set (t := lstrip (String.rev (lstrip s))).
  assert (starts_clean t = true) as Ht by apply starts_clean_lstrip.
  rewrite (lstrip_clean (String.rev t)).
  - by rewrite string_rev_involutive, (lstrip_clean t).
  - unfold t. apply starts_clean_rstrip, starts_clean_lstrip.
Qed.

(** ** The sample frames *)

Lemma scenario_raw_rectangular : rectangular scenario_raw.
Proof.
  unfold rectangular. cbn [rows columns scenario_raw].
  unfold completed_rows. repeat constructor.
Qed.

Lemma scenario_raw_dates r :
  r ∈ rows scenario_raw →
  date_ok sample_conversions (column_at (date_i sample_layout) (rows scenario_raw))
    (r !!! date_i sample_layout) = true.
Proof.
  intros Hr. cbn [rows scenario_raw] in Hr. unfold completed_rows in Hr.
  repeat (apply elem_of_cons in Hr as [->|Hr]); [..|by apply not_elem_of_nil in Hr];
    by vm_compute.
Qed.

Lemma scenario_canonical : canonical scenario.
Proof.
  apply (load_data_canonical sample_conversions scenario_raw).
  - apply scenario_raw_rectangular.
  - by vm_compute.
Qed.

(** ** The load: errors *)

Lemma traverse_exn {A B} (f : A → result B) (P : exn → Prop) l e :
  (∀ x e, f x = Raise e → P e) → traverse f l = Raise e → P e.
Proof.
  intros Hf. induction l as [|x l IH]; [done|]. cbn [traverse].
  destruct (f x) as [y|e'] eqn:E; cbn [mbind result_bind].
  - destruct (traverse f l) as [ys|e'']; cbn [mbind result_bind]; [done|].
    intros [= <-]. by apply IH.
  - intros [= <-]. by eapply Hf.
Qed.

Lemma to_datetime_exn conv col s e :
  traverse (to_datetime_scalar conv col) s = Raise e → e = ValueError.
Proof.
  apply (traverse_exn _ (λ e, e = ValueError)). intros c e'.
  destruct c as [|z|x|t]; simpl; try done.
  destruct (str_to_datetime conv col x) as [[?|]|]; try done. by intros [= <-].
Qed.

Lemma load_data_try_error conv raw :
  match load_data_try conv (Ok raw) with
  | Ok df => load_error conv raw = None
  | Raise e => load_error conv raw = Some e
  end.
Proof.
  destruct raw as [cols rs].
  unfold load_error, load_data_try, canonical_columns, rename, dropna, loc.
  cbn [mbind result_bind columns rows].
  set (cols' := rename_label column_mapping <$> (strip <$> cols)).
  rewrite getitem_find.
  destruct (find_label cols' "date") as [d|] eqn:Hd; [|done].
  cbn [mbind result_bind option_bind].
  unfold to_datetime.
  destruct (traverse _ (column_at d rs)) as [dates|e] eqn:Hdt.
  2:{ rewrite (to_datetime_exn _ _ _ _ Hdt).
      apply to_datetime_Raise in Hdt. cbn [mbind result_bind].
      by rewrite Hdt. }
  apply to_datetime_Ok in Hdt as [-> Hok]. rewrite Hok.
  cbn [mbind result_bind].
  rewrite (setitem_find _ _ _ _ _ Hd). cbn [columns rows].
  unfold labels_after_date. cbn [first_missing].
  rewrite getitem_find.
  destruct (find_label cols' "Booking Status") as [s|] eqn:Hs; [|done].
  cbn [mbind result_bind option_bind].
  rewrite getitem_find.
  destruct (find_label cols' "fare") as [f|] eqn:Hf; [|done].
  cbn [mbind result_bind option_bind].
  rewrite (setitem_find _ _ _ _ _ Hf). cbn [columns rows].
  rewrite getitem_find.
  destruct (find_label cols' "distance_miles") as [di|] eqn:Hdi; [|done].
  cbn [mbind result_bind option_bind].
  rewrite (setitem_find _ _ _ _ _ Hdi). cbn [columns rows].
  rewrite getitem_find.
  destruct (find_label cols' "duration_min") as [du|] eqn:Hdu; [|done].
  cbn [mbind result_bind option_bind].
  rewrite (setitem_find _ _ _ _ _ Hdu). cbn [columns rows].
  rewrite getitem_find, Hf.
  cbn [mbind result_bind option_bind columns rows].
  rewrite getitem_find.
  destruct (find_label cols' "trip_id") as [t|] eqn:Ht; [|done].
  cbn [mbind result_bind option_bind].
  rewrite (setitem_find _ _ _ _ _ Ht). cbn [columns rows].
  rewrite getitem_find.
  destruct (find_label cols' "pickup") as [p|] eqn:Hp; [|done].
  cbn [mbind result_bind option_bind].
  rewrite (setitem_find _ _ _ _ _ Hp). cbn [columns rows].
  rewrite getitem_find.
  destruct (find_label cols' "dropoff") as [dr|] eqn:Hdr; [|done].
  cbn [mbind result_bind option_bind].
  rewrite (setitem_find _ _ _ _ _ Hdr). cbn [columns rows].
  rewrite getitem_find.
  destruct (find_label cols' "payment_type") as [pa|] eqn:Hpa; [|done].
  cbn [mbind result_bind option_bind].
  rewrite (setitem_find _ _ _ _ _ Hpa). cbn [columns rows].
  rewrite getitem_find.
  destruct (find_label cols' "vehicle_type") as [v|] eqn:Hv; [|done].
  done.
Qed.

(** X2.  The load, row by row.  In a frame whose labels are ASCII and, once
    trimmed and renamed, distinct, which has the ten columns that
    [load_data] reads and in which every date converts, the load raises
    nothing and returns
    the renamed header with, in the order of the file, the cleaned form of
    each row whose status is "Completed" and whose fare reads as a number.
    (In the cleaned form a missing Booking ID is what the library's
    conversion to strings makes of a missing value.) *)
Theorem load_data_row_by_row conv raw lay :
  Forall (λ c, ascii_only c) (columns raw) →
  NoDup (canonical_columns raw) →
  layout (canonical_columns raw) = Some lay →
  let date := column_at (date_i lay) (rows raw) in
  (∀ r, r ∈ rows raw → date_ok conv date (r !!! date_i lay) = true) →
  load_data_try conv (Ok raw)
  = Ok (mkFrame (canonical_columns raw)
          (clean_row conv date lay <$> filter (λ r, keep_row conv lay r) (rows raw))).
Proof.
  intros _ _ Hlay date Hok. apply load_data_try_Ok. unfold load_data_rows.
  rewrite Hlay. cbn [mbind option_bind]. cbv zeta. fold date.
  assert (forallb (λ r, date_ok conv date (r !!! date_i lay)) (rows raw) = true)
    as ->; [|done].
  apply forallb_forall. intros r Hr%list_elem_of_In. by apply Hok.
Qed.

Lemma load_data_row_by_row_witness :
  Forall (λ c, ascii_only c) (columns scenario_raw)
  ∧ NoDup (canonical_columns scenario_raw)
  ∧ layout (canonical_columns scenario_raw) = Some sample_layout
  ∧ load_data_try sample_conversions (Ok scenario_raw)
    = Ok (mkFrame (canonical_columns scenario_raw)
            (clean_row sample_conversions
               (column_at (date_i sample_layout) (rows scenario_raw)) sample_layout
             <$> filter (λ r, keep_row sample_conversions sample_layout r)
                   (rows scenario_raw))).
Proof.
  assert (Forall (λ c, ascii_only c) (columns scenario_raw)) as Hascii
    by by_evaluation.
  assert (NoDup (canonical_columns scenario_raw)) as Hnd by by_evaluation.
  split; [exact Hascii|]. split; [exact Hnd|]. split; [reflexivity|].
  apply (load_data_row_by_row sample_conversions scenario_raw sample_layout
           Hascii Hnd eq_refl).
  intros r Hr. cbn [rows scenario_raw] in Hr. unfold completed_rows in Hr.
  repeat (apply elem_of_cons in Hr as [->|Hr]); [..|by apply not_elem_of_nil in Hr];
    by vm_compute.
Defined.

(** X3.  The errors of the load.  When the file cannot be read, the
    exception of [read_csv] is the one raised.  On a frame that was read,
    whose labels are ASCII and, once trimmed and renamed, distinct:
    [KeyError 'date'] when there is no date column; else [ValueError] when a
    date does not parse; else the [KeyError] of the first column that is
    missing, in the order of the program; and no exception exactly when none
    of these applies, the result having the renamed header.  Whatever the
    exception, [load_data] returns the empty frame. *)
Theorem load_data_error_report conv raw :
  NoDup (canonical_columns raw) →
  Forall (λ c, ascii_only c) (columns raw) →
  match load_error conv raw with
  | Some e =>
      load_data_try conv (Ok raw) = Raise e
      ∧ load_data conv (Ok raw) = DataFrame_empty
  | None =>
      ∃ df, load_data_try conv (Ok raw) = Ok df
            ∧ load_data conv (Ok raw) = df
            ∧ columns df = canonical_columns raw
  end
  ∧ (∀ e, load_data_try conv (Raise e) = Raise e
          ∧ load_data conv (Raise e) = DataFrame_empty).
Proof.
  intros _ _. split; [|done].
  pose proof (load_data_try_error conv raw) as H. unfold load_data.
  destruct (load_data_try conv (Ok raw)) as [df|e] eqn:E.
  - rewrite H. exists df. split; [done|]. split; [done|].
    apply load_data_try_Ok in E. unfold load_data_rows in E.
    destruct (layout _); [|done]. cbn [mbind option_bind] in E.
    case_match; [|done]. by injection E as <-.
  - by rewrite H.
Qed.

Lemma load_data_error_report_witness :
  (NoDup (canonical_columns scenario_raw)
   ∧ Forall (λ c, ascii_only c) (columns scenario_raw)
   ∧ load_error sample_conversions scenario_raw = None
   ∧ ∃ df, load_data_try sample_conversions (Ok scenario_raw) = Ok df
           ∧ load_data sample_conversions (Ok scenario_raw) = df
           ∧ columns df = canonical_columns scenario_raw)
  ∧ (NoDup (canonical_columns (mkFrame raw_columns [unparsable_date_row]))
     ∧ Forall (λ c, ascii_only c) raw_columns
     ∧ load_error sample_conversions (mkFrame raw_columns [unparsable_date_row])
       = Some ValueError
     ∧ load_data_try sample_conversions
         (Ok (mkFrame raw_columns [unparsable_date_row])) = Raise ValueError).
Proof.
  assert (NoDup (canonical_columns scenario_raw)) as Hnd
    by (apply (bool_decide_unpack _); by vm_compute).
  assert (Forall (λ c, ascii_only c) raw_columns) as Hascii
    by (apply (bool_decide_unpack _); by vm_compute).
  pose proof (proj1 (load_data_error_report sample_conversions scenario_raw
                       Hnd Hascii)) as H.
  pose proof (proj1 (load_data_error_report sample_conversions
                       (mkFrame raw_columns [unparsable_date_row]) Hnd Hascii)) as H'.
  split.
  - split; [exact Hnd|]. split; [exact Hascii|].
    destruct (load_error sample_conversions scenario_raw) as [e|] eqn:E;
      [by vm_compute in E|].
    split; [done|]. exact H.
  - split; [exact Hnd|]. split; [exact Hascii|].
    destruct (load_error sample_conversions
                (mkFrame raw_columns [unparsable_date_row])) as [e|] eqn:E;
      [|by vm_compute in E].
    assert (e = ValueError) as -> by (vm_compute in E; congruence).
    split; [done|]. by destruct H' as [-> _].
Defined.

(** ** The load: labels and cells *)

Lemma strip_padded cols cols' :
  Forall2 padded cols cols' → strip <$> cols' = strip <$> cols.
Proof.
  induction 1 as [|c c' cols cols' (l & r & Hl & Hr & ->) _ IH]; [done|].
  rewrite !fmap_cons, IH. f_equal. by apply strip_pad.
Qed.

(** X4.  ASCII white space (blanks, tabs, line breaks) around the labels of
    the header changes nothing: a frame whose labels are padded with it
    loads as the frame itself does (the same dataset, or the same
    exception). *)
Theorem load_data_ignores_header_blanks conv cols cols' rs :
  Forall2 padded cols cols' →
  load_data_try conv (Ok (mkFrame cols' rs)) = load_data_try conv (Ok (mkFrame cols rs)).
Proof.
  intros H%strip_padded. unfold load_data_try. cbn [mbind result_bind columns rows].
  by rewrite H.
Qed.

Lemma load_data_ignores_header_blanks_witness :
  Forall2 padded (strip <$> raw_columns) raw_columns
  ∧ load_data_try sample_conversions (Ok (mkFrame raw_columns completed_rows))
    = load_data_try sample_conversions
        (Ok (mkFrame (strip <$> raw_columns) completed_rows)).
Proof.
  assert (Forall2 padded (strip <$> raw_columns) raw_columns) as H.
  { unfold raw_columns. rewrite !fmap_cons.
    repeat (constructor;
            [first [by (exists "", ""; split_and!; vm_compute)
                   |by (exists "", " "; split_and!; vm_compute)]|]).
    constructor. }
  split; [exact H|].
  exact (load_data_ignores_header_blanks _ _ _ _ H).
Defined.

(** ** Cleaning a row, cell by cell *)

Lemma clean_row_assign conv col lay r :
  clean_row conv col lay r = assign (cleaning conv col lay) r.
Proof. done. Qed.

Lemma assign_cons i f steps r :
  assign ((i, f) :: steps) r = upd i f (assign steps r).
Proof. done. Qed.

Lemma assign_length steps r : length (assign steps r) = length r.
Proof.
  induction steps as [|[i f] steps IH]; [done|].
  by rewrite assign_cons, upd_length.
Qed.

Lemma assign_lookup_other steps r j :
  j ∉ steps.*1 → assign steps r !!! j = r !!! j.
Proof.
  induction steps as [|[i f] steps IH]; [done|].
  rewrite fmap_cons, not_elem_of_cons. cbn [fst]. intros [Hne Hj].
  rewrite assign_cons, upd_lookup_ne by done. by apply IH.
Qed.

Lemma assign_lookup steps r j f :
  NoDup steps.*1 → (j, f) ∈ steps → (j < length r)%nat →
  assign steps r !!! j = f (r !!! j).
Proof.
  induction steps as [|[i g] steps IH]; [by intros _ ?%not_elem_of_nil|].
  rewrite fmap_cons, NoDup_cons. cbn [fst]. intros [Hi Hnd] Hin Hj.
  rewrite assign_cons. apply elem_of_cons in Hin as [[= -> ->]|Hin].
  - rewrite upd_lookup_eq by (by rewrite assign_length).
    f_equal. by apply assign_lookup_other.
  - rewrite upd_lookup_ne; [by apply IH|].
    intros ->. apply Hi. by apply (list_elem_of_fmap_2 fst) in Hin.
Qed.

Lemma upd_fix i f r :
  ((i < length r)%nat → f (r !!! i) = r !!! i) → upd i f r = r.
Proof.
  intros H. unfold upd. destruct (decide (i < length r)%nat) as [Hi|Hi].
  - rewrite (H Hi). apply list_insert_id. by apply list_lookup_lookup_total_lt.
  - apply list_insert_ge. lia.
Qed.

Lemma assign_fix steps r :
  (∀ i f, (i, f) ∈ steps → (i < length r)%nat → f (r !!! i) = r !!! i) →
  assign steps r = r.
Proof.
  induction steps as [|[i f] steps IH]; [done|]. intros H.
  rewrite assign_cons.
  rewrite IH by (intros j g Hg; apply H; by right).
  apply upd_fix, H. by left.
Qed.

Lemma cleaning_indices conv col lay :
  (cleaning conv col lay).*1 = reverse (assigned_indices lay).
Proof. done. Qed.

Lemma assigned_NoDup cols lay :
  layout cols = Some lay → NoDup (assigned_indices lay).
Proof.
  intros Hnd%layout_NoDup. unfold layout_indices in Hnd.
  apply NoDup_cons in Hnd as [H1 Hnd]. apply NoDup_cons in Hnd as [H2 Hnd].
  apply NoDup_cons. split; [|done].
  intros H. apply H1. by right.
Qed.

Lemma cleaning_NoDup conv col cols lay :
  layout cols = Some lay → NoDup (cleaning conv col lay).*1.
Proof.
  intros Hlay. rewrite cleaning_indices, reverse_Permutation.
  by eapply assigned_NoDup.
Qed.

Lemma remove_char_idem c s : remove_char c (remove_char c s) = remove_char c s.
Proof.
  induction s as [|c' s IH]; [done|]. cbn [remove_char].
  case_bool_decide as Hc; [done|]. cbn [remove_char].
  by rewrite bool_decide_eq_false_2, IH.
Qed.

Lemma remove_char_not_elem c s : c ∉ list_ascii_of_string (remove_char c s).
Proof.
  induction s as [|c' s IH]; [apply not_elem_of_nil|]. cbn [remove_char].
  case_bool_decide as Hc; [done|]. cbn [list_ascii_of_string].
  apply not_elem_of_cons. split; [congruence|done].
Qed.

Lemma to_numeric_coerce_idem conv c :
  to_numeric_coerce conv (to_numeric_coerce conv c) = to_numeric_coerce conv c.
Proof.
  destruct c as [|z|s|t]; simpl; try done.
  by destruct (str_to_numeric conv s).
Qed.

Lemma clean_trip_id_idem conv c :
  clean_trip_id conv (clean_trip_id conv c) = clean_trip_id conv c.
Proof.
  unfold clean_trip_id.
  destruct c as [|z|s|t]; cbn [astype_str str_replace_quote];
    try (by rewrite remove_char_idem).
  destruct (na_to_str conv) as [x|] eqn:E;
    cbn [from_option astype_str str_replace_quote].
  - by rewrite remove_char_idem.
  - by rewrite E.
Qed.

Lemma fillna_idem v c : fillna v (fillna v c) = fillna v c.
Proof. unfold fillna. destruct c; simpl; try done. by destruct v. Qed.

Lemma to_datetime_total_idem conv col col' c :
  date_ok conv col c = true →
  to_datetime_total conv col' (to_datetime_total conv col c)
  = to_datetime_total conv col c.
Proof.
  unfold date_ok, to_datetime_total.
  destruct c as [|z|s|t]; simpl; try done.
  by destruct (str_to_datetime conv col s) as [[t|]|].
Qed.

Lemma date_ok_total conv col col' c :
  date_ok conv col c = true → date_ok conv col' (to_datetime_total conv col c) = true.
Proof.
  unfold date_ok, to_datetime_total.
  destruct c as [|z|s|t]; simpl; try done.
  by destruct (str_to_datetime conv col s) as [[t|]|].
Qed.

Lemma rename_strip_idem x :
  rename_label column_mapping (strip (rename_label column_mapping (strip x)))
  = rename_label column_mapping (strip x).
Proof.
  unfold rename_label at 2 3.
  destruct (column_mapping !! strip x) as [v|] eqn:E; cbn [default from_option id].
  - apply elem_of_list_to_map_2 in E.
    repeat (apply elem_of_cons in E as [[= _ ->]|E]); [by vm_compute..|].
    by apply not_elem_of_nil in E.
  - unfold rename_label. by rewrite strip_idem, E.
Qed.

Lemma canonical_columns_idem cols rs rs' :
  canonical_columns (mkFrame (canonical_columns (mkFrame cols rs)) rs')
  = canonical_columns (mkFrame cols rs).
Proof.
  unfold canonical_columns. cbn [columns]. rewrite <- !list_fmap_compose.
  apply list_fmap_ext. intros _ x _. apply rename_strip_idem.
Qed.

Ltac in_list := repeat first [apply list_elem_of_here | apply list_elem_of_further].

(** A cleaned row is clean: the load keeps it and cleans it to itself. *)
Lemma clean_row_clean conv col col' cols lay r :
  layout cols = Some lay →
  date_ok conv col (r !!! date_i lay) = true → keep_row conv lay r →
  let r' := clean_row conv col lay r in
  date_ok conv col' (r' !!! date_i lay) = true
  ∧ keep_row conv lay r'
  ∧ clean_row conv col' lay r' = r'.
Proof.
  intros Hlay Hd Hk r'.
  pose proof (layout_NoDup _ _ Hlay) as Hnd.
  pose proof (cleaning_NoDup conv col _ _ Hlay) as Hnd'.
  destruct (keep_row_elim _ _ _ Hk) as [Hs [z Hz]].
  assert (r !!! fare_i lay ≠ NaN) as Hf by (intros E; by rewrite E in Hz).
  assert (r' !!! fare_i lay = Num z) as Hf'.
  { unfold r'. by rewrite clean_row_fare, Hz. }
  assert (date_ok conv col' (r' !!! date_i lay) = true) as Hd'.
  { destruct (decide (date_i lay < length r)%nat) as [Hi|Hi].
    - unfold r'. rewrite clean_row_assign.
      rewrite (assign_lookup _ _ _ (to_datetime_total conv col)); [|done| |done].
      + by apply date_ok_total.
      + unfold cleaning. in_list.
    - rewrite lookup_total_ge_NaN; [done|].
      unfold r'. rewrite clean_row_assign, assign_length. lia. }
  split_and!; [done| |].
  - unfold keep_row. unfold r' at 1. rewrite clean_row_status, Hs by done.
    rewrite Hf'. done.
  - rewrite (clean_row_assign conv col'). apply assign_fix. intros i f Hin Hi.
    unfold r' in Hi. rewrite clean_row_assign, assign_length in Hi.
    unfold cleaning in Hin.
    repeat (apply elem_of_cons in Hin as [[= -> ->]|Hin]);
      [..|by apply not_elem_of_nil in Hin];
      unfold r'; rewrite clean_row_assign;
      (erewrite assign_lookup; [|done|unfold cleaning; in_list|done]);
      auto using fillna_idem, clean_trip_id_idem, to_numeric_coerce_idem,
        to_datetime_total_idem.
Qed.

(** X5.  Cleaning is idempotent: the load of a loaded dataset is that
    dataset; so it is for the empty frame of a failed load. *)
Theorem load_data_idempotent conv raw :
  load_data conv (Ok (load_data conv (Ok raw))) = load_data conv (Ok raw).
Proof.
  rewrite (load_data_rowwise conv raw).
  destruct (load_data_rows conv raw) as [df|] eqn:E; cbn [default from_option id].
  2:{ done. }
  unfold load_data_rows in E.
  destruct (layout (canonical_columns raw)) as [lay|] eqn:Hlay; [|done].
  cbn [mbind option_bind] in E. cbv zeta in E.
  destruct (forallb _ _) eqn:Hdates; [|done]. injection E as <-.
  rewrite forallb_forall in Hdates.
  rewrite load_data_rowwise. unfold load_data_rows.
  destruct raw as [cols rs]. rewrite canonical_columns_idem, Hlay.
  cbn [mbind option_bind rows]. cbv zeta.
  set (date := column_at (date_i lay) rs) in *.
  set (rs' := clean_row conv date lay <$> filter (λ r, keep_row conv lay r) rs).
  set (date' := column_at (date_i lay) rs').
  assert (∀ r', r' ∈ rs' →
            date_ok conv date' (r' !!! date_i lay) = true
            ∧ keep_row conv lay r' ∧ clean_row conv date' lay r' = r') as Hclean.
  { intros r' (r & -> & [Hk Hr]%list_elem_of_filter)%list_elem_of_fmap.
    apply (clean_row_clean conv date date' _ lay r Hlay); [|done].
    by apply Hdates, list_elem_of_In. }
  assert (forallb (λ r, date_ok conv date' (r !!! date_i lay)) rs' = true) as ->.
  { apply forallb_forall. intros r' Hr'%list_elem_of_In. by apply Hclean. }
  cbn [default from_option id]. f_equal.
  rewrite filter_all by (apply Forall_forall; intros r' Hr'; by apply Hclean).
  rewrite <- (list_fmap_id rs') at 2. apply list_fmap_ext.
  intros i r' Hr'%list_elem_of_lookup_2. by apply Hclean.
Qed.

Lemma load_data_loaded_rows conv raw lay :
  layout (canonical_columns raw) = Some lay →
  (∀ r, r ∈ rows raw →
     date_ok conv (column_at (date_i lay) (rows raw)) (r !!! date_i lay) = true) →
  load_data conv (Ok raw)
  = mkFrame (canonical_columns raw)
      (clean_row conv (column_at (date_i lay) (rows raw)) lay
       <$> filter (λ r, keep_row conv lay r) (rows raw)).
Proof.
  intros Hlay Hok. rewrite load_data_rowwise. unfold load_data_rows.
  rewrite Hlay. cbn [mbind option_bind]. cbv zeta.
  assert (forallb (λ r, date_ok conv (column_at (date_i lay) (rows raw))
                          (r !!! date_i lay)) (rows raw) = true) as ->; [|done].
  apply forallb_forall. intros r Hr%list_elem_of_In. by apply Hok.
Qed.

Lemma rectangular_length raw lay r i :
  rectangular raw → layout (canonical_columns raw) = Some lay →
  r ∈ rows raw → i ∈ layout_indices lay → (i < length r)%nat.
Proof.
  intros Hrect Hlay Hr Hi. unfold rectangular in Hrect.
  rewrite Forall_forall in Hrect. rewrite (Hrect r Hr).
  pose proof (layout_bound _ _ _ Hlay Hi) as Hb.
  unfold canonical_columns in Hb. by rewrite !length_fmap in Hb.
Qed.

Lemma clean_trip_id_cases conv c :
  (∃ s, clean_trip_id conv c = Str s ∧ quote_char ∉ list_ascii_of_string s)
  ∨ (clean_trip_id conv c = NaN ∧ na_to_str conv = None).
Proof.
  unfold clean_trip_id.
  destruct c as [|z|s|t]; cbn [astype_str str_replace_quote];
    try (left; eexists; split; [done|apply remove_char_not_elem]).
  destruct (na_to_str conv) as [x|]; cbn [from_option str_replace_quote].
  - left. eexists. split; [done|apply remove_char_not_elem].
  - by right.
Qed.

(** X6.  In every record of the load of a rectangular frame, the trip id is
    a string that holds no quote character, or it is missing, which it can
    be only where the library keeps a missing value missing when it
    converts to strings; the distance and the duration are numbers or
    missing. *)
Theorem load_data_cell_types conv raw r :
  rectangular raw → r ∈ rows (load_data conv (Ok raw)) →
  ∃ lay, layout (columns (load_data conv (Ok raw))) = Some lay
    ∧ ((∃ s, r !!! trip_i lay = Str s ∧ quote_char ∉ list_ascii_of_string s)
       ∨ (r !!! trip_i lay = NaN ∧ na_to_str conv = None))
    ∧ numeric_or_null (r !!! distance_i lay)
    ∧ numeric_or_null (r !!! duration_i lay).
Proof.
  intros Hrect. rewrite load_data_rowwise.
  destruct (load_data_rows conv raw) as [df|] eqn:E; cbn [default from_option id];
    [|by intros ?%not_elem_of_nil].
  intros Hr.
  destruct (load_data_rows_elem _ _ _ _ E Hr)
    as (lay & col & r0 & Hlay & Hcols & Hr0 & Hk & ->).
  exists lay. rewrite Hcols. split; [done|].
  pose proof (cleaning_NoDup conv col _ _ Hlay) as Hnd.
  rewrite clean_row_assign.
  split_and!.
  - rewrite (assign_lookup _ _ _ (clean_trip_id conv)); [|done|unfold cleaning; in_list|].
    + apply clean_trip_id_cases.
    + eapply rectangular_length; [done..|in_layout].
  - rewrite (assign_lookup _ _ _ (to_numeric_coerce conv));
      [|done|unfold cleaning; in_list|].
    + destruct (r0 !!! distance_i lay) as [|z|s|t]; simpl; try done.
      by destruct (str_to_numeric conv s).
    + eapply rectangular_length; [done..|in_layout].
  - rewrite (assign_lookup _ _ _ (to_numeric_coerce conv));
      [|done|unfold cleaning; in_list|].
    + destruct (r0 !!! duration_i lay) as [|z|s|t]; simpl; try done.
      by destruct (str_to_numeric conv s).
    + eapply rectangular_length; [done..|in_layout].
Qed.

Lemma load_data_cell_types_witness :
  rectangular scenario_raw
  ∧ scenario_first_row ∈ rows (load_data sample_conversions (Ok scenario_raw))
  ∧ ∃ lay,
      layout (columns (load_data sample_conversions (Ok scenario_raw))) = Some lay
      ∧ ((∃ s, scenario_first_row !!! trip_i lay = Str s
               ∧ quote_char ∉ list_ascii_of_string s)
         ∨ (scenario_first_row !!! trip_i lay = NaN
            ∧ na_to_str sample_conversions = None))
      ∧ numeric_or_null (scenario_first_row !!! distance_i lay)
      ∧ numeric_or_null (scenario_first_row !!! duration_i lay).
Proof.
  assert (scenario_first_row ∈ rows (load_data sample_conversions (Ok scenario_raw)))
    as H by (apply (list_elem_of_lookup_2 _ 0%nat); by vm_compute).
  split; [apply scenario_raw_rectangular|]. split; [exact H|].
  exact (load_data_cell_types _ _ _ scenario_raw_rectangular H).
Defined.

(** X7.  What the load leaves alone.  When the load of a rectangular frame
    succeeds, a column other than the nine that are assigned (so "Booking
    Status", and every field without an entry in the rename table) holds the
    cells of the rows that are kept, unchanged; and pickup, dropoff, payment
    type and vehicle type hold them with "Unknown" in place of the missing
    ones only. *)
Theorem load_data_changes_nine_columns conv raw lay :
  layout (canonical_columns raw) = Some lay → rectangular raw →
  (∀ r, r ∈ rows raw →
     date_ok conv (column_at (date_i lay) (rows raw)) (r !!! date_i lay) = true) →
  let kept := filter (λ r, keep_row conv lay r) (rows raw) in
  let loaded := rows (load_data conv (Ok raw)) in
  (∀ i, i ∉ assigned_indices lay → column_at i loaded = column_at i kept)
  ∧ (∀ i, i ∈ filled_indices lay →
       column_at i loaded = fillna (Str "Unknown") <$> column_at i kept).
Proof.
  intros Hlay Hrect Hok kept loaded. unfold loaded, kept.
  rewrite (load_data_loaded_rows conv raw lay Hlay Hok). cbn [rows].
  pose proof (cleaning_NoDup conv (column_at (date_i lay) (rows raw)) _ _ Hlay) as Hnd.
  unfold column_at. split.
  - intros i Hi. rewrite <- list_fmap_compose. apply list_fmap_ext.
    intros _ r _. cbn [compose]. rewrite clean_row_assign.
    apply assign_lookup_other. rewrite cleaning_indices. by rewrite elem_of_reverse.
  - intros i Hi. rewrite <- !list_fmap_compose. apply list_fmap_ext.
    intros _ r [_ Hr]%list_elem_of_lookup_2%list_elem_of_filter. cbn [compose].
    rewrite clean_row_assign.
    assert ((i < length r)%nat) as Hlen.
    { eapply rectangular_length; [done..|]. unfold filled_indices in Hi.
      unfold layout_indices.
      repeat (apply elem_of_cons in Hi as [->|Hi]);
        [..|by apply not_elem_of_nil in Hi]; in_list. }
    apply assign_lookup; [done| |done].
    unfold filled_indices in Hi. unfold cleaning.
    repeat (apply elem_of_cons in Hi as [->|Hi]);
      [..|by apply not_elem_of_nil in Hi]; in_list.
Qed.

Lemma load_data_changes_nine_columns_witness :
  layout (canonical_columns scenario_raw) = Some sample_layout
  ∧ rectangular scenario_raw
  ∧ (∀ i, i ∉ assigned_indices sample_layout →
       column_at i (rows (load_data sample_conversions (Ok scenario_raw)))
       = column_at i (filter (λ r, keep_row sample_conversions sample_layout r)
                        (rows scenario_raw)))
  ∧ (∀ i, i ∈ filled_indices sample_layout →
       column_at i (rows (load_data sample_conversions (Ok scenario_raw)))
       = fillna (Str "Unknown")
         <$> column_at i (filter (λ r, keep_row sample_conversions sample_layout r)
                            (rows scenario_raw))).
Proof.
  split; [reflexivity|]. split; [apply scenario_raw_rectangular|].
  exact (load_data_changes_nine_columns sample_conversions scenario_raw
           sample_layout eq_refl scenario_raw_rectangular scenario_raw_dates).
Defined.

(** ** The filters, record by record *)

Lemma unpacks_cases date_range :
  unpacks date_range ↔
  date_range = [] ∨ ∃ start_date end_date, date_range = [start_date; end_date].
Proof.
  unfold unpacks. split.
  - intros [H|H].
    + left. by destruct date_range.
    + right. destruct date_range as [|a [|b [|]]]; try done. by eexists _, _.
  - intros [->|(a & b & ->)]; auto.
Qed.

Lemma filter_date_arity date_range df :
  ¬ unpacks date_range → filter_date date_range df = Raise ValueError.
Proof.
  unfold unpacks. destruct date_range as [|a [|b [|]]]; simpl; try done; lia.
Qed.

Lemma apply_filters_unpacks df date_range pickup_filter dropoff_filter
    vehicle_filter out :
  apply_filters df date_range pickup_filter dropoff_filter vehicle_filter = Ok out →
  unpacks date_range.
Proof.
  intros H. destruct (decide (unpacks date_range)) as [|Hn]; [done|].
  unfold apply_filters in H. by rewrite filter_date_arity in H.
Qed.

Lemma filter_isin_rows label flt cols rs i :
  find_label cols label = Some i →
  filter_isin label flt (mkFrame cols rs)
  = Ok (mkFrame cols (filter (λ r, selected flt (r !!! i)) rs)).
Proof.
  intros Hi. destruct (decide (select_all flt)) as [Hall|Hn].
  - rewrite filter_isin_skip by done. do 2 f_equal. symmetry.
    apply filter_all, Forall_forall. intros r _. unfold selected.
    destruct Hall as [->|Hall]; [done|].
    rewrite (bool_decide_eq_false_2 ("All" ∉ flt)) by auto.
    by rewrite andb_false_r.
  - rewrite filter_isin_active, Hi by done. do 2 f_equal.
    apply list_filter_iff. intros r. unfold selected, select_all in *.
    rewrite (bool_decide_eq_true_2 (flt ≠ [])) by tauto.
    by rewrite (bool_decide_eq_true_2 ("All" ∉ flt)) by tauto.
Qed.

Lemma undated_column date_range i (rs : list (list Cell)) :
  undated date_range (column_at i rs)
  = bool_decide (date_range ≠ []) && all_nat ((λ r, day_of (r !!! i)) <$> rs).
Proof. unfold undated, column_at. by rewrite <- list_fmap_compose. Qed.

Lemma filter_date_rows date_range cols rs i :
  unpacks date_range → find_label cols "date" = Some i →
  Forall (λ r, dt_ok (r !!! i)) rs →
  filter_date date_range (mkFrame cols rs)
  = if undated date_range (column_at i rs) then Raise TypeError
    else Ok (mkFrame cols (filter (λ r, in_date_range date_range (r !!! i)) rs)).
Proof.
  intros [->|(a & b & ->)]%unpacks_cases Hi Hok; rewrite undated_column.
  - rewrite (bool_decide_eq_false_2 (_ ≠ _)) by (by intros []). cbn [andb].
    unfold filter_date. do 2 f_equal. symmetry.
    by apply (filter_all (λ r, in_date_range [] (r !!! i))), Forall_forall.
  - rewrite (bool_decide_eq_true_2 (_ ≠ _)) by done. cbn [andb].
    rewrite filter_date_active, Hi.
    assert (forallb (λ r, dt_ok (r !!! i)) rs = true) as ->; [|done].
    apply forallb_forall. intros r Hr%list_elem_of_In.
    rewrite Forall_forall in Hok. by apply Is_true_true, Hok.
Qed.

(** What the date block returns, when it returns. *)
Lemma filter_date_Ok_rows date_range cols rs i out :
  find_label cols "date" = Some i →
  filter_date date_range (mkFrame cols rs) = Ok out →
  out = mkFrame cols (filter (λ r, in_date_range date_range (r !!! i)) rs).
Proof.
  intros Hi. destruct date_range as [|a [|b [|]]]; try done.
  - intros [= <-]. f_equal. symmetry.
    by apply (filter_all (λ r, in_date_range [] (r !!! i))), Forall_forall.
  - rewrite filter_date_active, Hi.
    destruct (forallb _ rs); [|done]. destruct (all_nat _); [done|].
    by intros [= <-].
Qed.

Lemma apply_filters_rows df lay date_range pickup_filter dropoff_filter
    vehicle_filter :
  layout (columns df) = Some lay →
  Forall (λ r, dt_ok (r !!! date_i lay)) (rows df) →
  unpacks date_range →
  apply_filters df date_range pickup_filter dropoff_filter vehicle_filter
  = if undated date_range (column_at (date_i lay) (rows df)) then Raise TypeError
    else Ok (mkFrame (columns df)
               (filter (λ r, passes lay date_range pickup_filter dropoff_filter
                               vehicle_filter r) (rows df))).
Proof.
  intros Hlay Hok Hdr. destruct df as [cols rs]. cbn [columns rows] in *.
  pose proof (layout_find _ _ Hlay) as Hf.
  injection Hf as Hd _ _ _ _ _ Hpick Hdrop _ Hveh.
  unfold apply_filters.
  rewrite (filter_date_rows _ _ _ _ Hdr Hd Hok).
  destruct (undated _ _); [done|]. cbn [mbind result_bind].
  rewrite (filter_isin_rows _ _ _ _ _ Hpick). cbn [mbind result_bind].
  rewrite (filter_isin_rows _ _ _ _ _ Hdrop). cbn [mbind result_bind].
  rewrite (filter_isin_rows _ _ _ _ _ Hveh). cbn [mbind result_bind].
  do 2 f_equal. rewrite !list_filter_filter. apply list_filter_iff.
  intros r. unfold passes. rewrite !andb_True. tauto.
Qed.

(** What [apply_filters] returns, when it returns. *)
Lemma apply_filters_Ok_rows df lay date_range pickup_filter dropoff_filter
    vehicle_filter out :
  layout (columns df) = Some lay →
  apply_filters df date_range pickup_filter dropoff_filter vehicle_filter = Ok out →
  out = mkFrame (columns df)
          (filter (λ r, passes lay date_range pickup_filter dropoff_filter
                          vehicle_filter r) (rows df)).
Proof.
  intros Hlay. destruct df as [cols rs]. cbn [columns rows] in *.
  pose proof (layout_find _ _ Hlay) as Hf.
  injection Hf as Hd _ _ _ _ _ Hpick Hdrop _ Hveh.
  unfold apply_filters.
  destruct (filter_date date_range _) as [d1|] eqn:E1; [|done].
  apply (filter_date_Ok_rows _ _ _ _ _ Hd) in E1 as ->.
  cbn [mbind result_bind].
  rewrite (filter_isin_rows _ _ _ _ _ Hpick). cbn [mbind result_bind].
  rewrite (filter_isin_rows _ _ _ _ _ Hdrop). cbn [mbind result_bind].
  rewrite (filter_isin_rows _ _ _ _ _ Hveh). cbn [mbind result_bind].
  intros [= <-]. f_equal. rewrite !list_filter_filter. apply list_filter_iff.
  intros r. unfold passes. rewrite !andb_True. tauto.
Qed.

Lemma canonical_dates df lay :
  canonical df → layout (columns df) = Some lay →
  Forall (λ r, dt_ok (r !!! date_i lay)) (rows df).
Proof.
  intros (lay' & Hlay' & Hrows) Hlay. assert (lay' = lay) as -> by congruence.
  eapply Forall_impl; [done|]. by intros r [? _].
Qed.

Lemma scenario_dates :
  Forall (λ r, dt_ok (r !!! date_i sample_layout)) (rows scenario).
Proof. apply canonical_dates; [apply scenario_canonical|by vm_compute]. Qed.

Lemma undated_rides_dates :
  Forall (λ r, dt_ok (r !!! date_i sample_layout)) (rows undated_rides).
Proof. apply (bool_decide_unpack _). by vm_compute. Qed.

Lemma rides_with_undated_dates :
  Forall (λ r, dt_ok (r !!! date_i sample_layout)) (rows rides_with_undated).
Proof. apply (bool_decide_unpack _). by vm_compute. Qed.

(** X8.  Filtering adds nothing and reorders nothing: the result has the
    columns of the input, its records are records of the input, in the order
    of the input, and there are no more of them. *)
Theorem apply_filters_keeps_a_sublist df date_range pickup_filter dropoff_filter
    vehicle_filter out :
  apply_filters df date_range pickup_filter dropoff_filter vehicle_filter = Ok out →
  columns out = columns df
  ∧ rows out `sublist_of` rows df
  ∧ (length (rows out) ≤ length (rows df))%nat.
Proof.
  intros H. destruct (row_filter_apply_filters _ _ _ _ _ _ H) as (p & -> & _).
  cbn [columns rows]. split; [done|]. split; [apply sublist_filter|].
  apply length_filter.
Qed.

Lemma apply_filters_keeps_a_sublist_witness :
  apply_filters scenario
    [days_from_civil 2024 1 1; days_from_civil 2024 1 1] ["A"; "B"] [] ["Auto"]
  = Ok scenario_first_day
  ∧ columns scenario_first_day = columns scenario
  ∧ rows scenario_first_day `sublist_of` rows scenario
  ∧ (length (rows scenario_first_day) ≤ length (rows scenario))%nat.
Proof.
  assert (apply_filters scenario
            [days_from_civil 2024 1 1; days_from_civil 2024 1 1]
            ["A"; "B"] [] ["Auto"] = Ok scenario_first_day) as H
    by (by vm_compute).
  split; [exact H|].
  exact (apply_filters_keeps_a_sublist _ _ _ _ _ _ H).
Defined.

(** X9.  The filters, record by record.  On a frame that has the ten columns
    and whose dates are timestamps or missing, with a date range of no date
    or of two: when a range is given and the frame has records none of which
    has a date, [apply_filters] raises [TypeError]; in every other case it
    raises nothing and keeps exactly the records that pass its four
    tests. *)
Theorem apply_filters_row_by_row df lay date_range pickup_filter dropoff_filter
    vehicle_filter :
  layout (columns df) = Some lay →
  Forall (λ r, dt_ok (r !!! date_i lay)) (rows df) →
  unpacks date_range →
  (undated date_range (column_at (date_i lay) (rows df)) = true →
   apply_filters df date_range pickup_filter dropoff_filter vehicle_filter
   = Raise TypeError)
  ∧ (undated date_range (column_at (date_i lay) (rows df)) = false →
     ∃ out,
       apply_filters df date_range pickup_filter dropoff_filter vehicle_filter
       = Ok out
       ∧ columns out = columns df
       ∧ rows out = filter (λ r, passes lay date_range pickup_filter dropoff_filter
                                  vehicle_filter r) (rows df)).
Proof.
  intros Hlay Hok Hdr.
  rewrite (apply_filters_rows df lay) by done.
  split; intros ->; [done|]. by eexists.
Qed.

Lemma apply_filters_row_by_row_witness :
  (layout (columns scenario) = Some sample_layout
   ∧ Forall (λ r, dt_ok (r !!! date_i sample_layout)) (rows scenario)
   ∧ unpacks [days_from_civil 2024 1 1; days_from_civil 2024 1 1]
   ∧ ∃ out,
       apply_filters scenario
         [days_from_civil 2024 1 1; days_from_civil 2024 1 1] ["A"; "B"] [] ["Auto"]
       = Ok out
       ∧ columns out = columns scenario
       ∧ rows out
         = filter (λ r, passes sample_layout
                          [days_from_civil 2024 1 1; days_from_civil 2024 1 1]
                          ["A"; "B"] [] ["Auto"] r) (rows scenario))
  ∧ (layout (columns undated_rides) = Some sample_layout
     ∧ Forall (λ r, dt_ok (r !!! date_i sample_layout)) (rows undated_rides)
     ∧ length (rows undated_rides) = 1%nat
     ∧ apply_filters undated_rides
         [days_from_civil 2024 1 1; days_from_civil 2024 1 1] [] [] []
       = Raise TypeError).
Proof.
  assert (layout (columns scenario) = Some sample_layout) as Hlay by (by vm_compute).
  assert (unpacks [days_from_civil 2024 1 1; days_from_civil 2024 1 1]) as Hdr
    by (by right).
  assert (layout (columns undated_rides) = Some sample_layout) as Hlay'
    by (by vm_compute).
  pose proof undated_rides_dates as Hok'.
  assert (undated [days_from_civil 2024 1 1; days_from_civil 2024 1 1]
            (column_at (date_i sample_layout) (rows scenario)) = false) as Hu
    by (by vm_compute).
  assert (undated [days_from_civil 2024 1 1; days_from_civil 2024 1 1]
            (column_at (date_i sample_layout) (rows undated_rides)) = true) as Hu'
    by (by vm_compute).
  split.
  - split; [exact Hlay|]. split; [exact scenario_dates|]. split; [exact Hdr|].
    exact (proj2 (apply_filters_row_by_row scenario sample_layout _ ["A"; "B"] []
                    ["Auto"] Hlay scenario_dates Hdr) Hu).
  - split; [exact Hlay'|]. split; [exact Hok'|]. split; [by vm_compute|].
    exact (proj1 (apply_filters_row_by_row undated_rides sample_layout _ [] [] []
                    Hlay' Hok' Hdr) Hu').
Defined.

(** X10.  The date range is unpacked into a start and an end: with a range
    that holds one date, or more than two, [apply_filters] raises
    [ValueError].  On a frame that has the ten columns and whose dates are
    timestamps or missing, it returns a frame exactly when the range holds
    no date, or holds two and the frame has no record or a record with a
    date. *)
Theorem apply_filters_date_range_arity df lay date_range pickup_filter
    dropoff_filter vehicle_filter :
  layout (columns df) = Some lay →
  Forall (λ r, dt_ok (r !!! date_i lay)) (rows df) →
  (¬ unpacks date_range →
   apply_filters df date_range pickup_filter dropoff_filter vehicle_filter
   = Raise ValueError)
  ∧ ((∃ out, apply_filters df date_range pickup_filter dropoff_filter
               vehicle_filter = Ok out)
     ↔ unpacks date_range
       ∧ undated date_range (column_at (date_i lay) (rows df)) = false).
Proof.
  intros Hlay Hok.
  assert (¬ unpacks date_range →
     apply_filters df date_range pickup_filter dropoff_filter vehicle_filter
     = Raise ValueError) as Herr.
  { intros Hn. unfold apply_filters. by rewrite filter_date_arity. }
  split; [done|]. split.
  - intros [out Hout].
    destruct (decide (unpacks date_range)) as [Hdr|Hn];
      [|by rewrite Herr in Hout].
    split; [done|]. rewrite (apply_filters_rows df lay) in Hout by done.
    by destruct (undated _ _).
  - intros [Hdr Hu]. rewrite (apply_filters_rows df lay), Hu by done. by eexists.
Qed.

Lemma apply_filters_date_range_arity_witness :
  layout (columns scenario) = Some sample_layout
  ∧ Forall (λ r, dt_ok (r !!! date_i sample_layout)) (rows scenario)
  ∧ ¬ unpacks [days_from_civil 2024 1 1]
  ∧ apply_filters scenario [days_from_civil 2024 1 1] ["All"] ["All"] ["All"]
    = Raise ValueError.
Proof.
  assert (layout (columns scenario) = Some sample_layout) as Hlay by (by vm_compute).
  assert (¬ unpacks [days_from_civil 2024 1 1]) as Hn.
  { unfold unpacks. cbn [length]. lia. }
  split; [exact Hlay|]. split; [exact scenario_dates|]. split; [exact Hn|].
  exact (proj1 (apply_filters_date_range_arity scenario sample_layout _ ["All"]
                  ["All"] ["All"] Hlay scenario_dates) Hn).
Defined.

Lemma undated_nil dates : undated [] dates = false.
Proof. unfold undated. by rewrite (bool_decide_eq_false_2 (_ ≠ _)) by (by intros []). Qed.

(** X11.  Two filters in either order.  On a frame that has the ten columns
    and whose dates are timestamps or missing, when filtering by one set of
    criteria and then by another returns a frame, the other order returns
    the same frame, or raises [TypeError]; it can raise only if one of the
    two sets of criteria has a date range (whose block then meets records
    none of which has a date). *)
Theorem apply_filters_commute df lay date_range1 pickup_filter1 dropoff_filter1
    vehicle_filter1 date_range2 pickup_filter2 dropoff_filter2 vehicle_filter2 out :
  layout (columns df) = Some lay →
  Forall (λ r, dt_ok (r !!! date_i lay)) (rows df) →
  (a ← apply_filters df date_range1 pickup_filter1 dropoff_filter1 vehicle_filter1;
   apply_filters a date_range2 pickup_filter2 dropoff_filter2 vehicle_filter2)
  = Ok out →
  match
    b ← apply_filters df date_range2 pickup_filter2 dropoff_filter2 vehicle_filter2;
    apply_filters b date_range1 pickup_filter1 dropoff_filter1 vehicle_filter1
  with
  | Ok out' => out' = out
  | Raise e => e = TypeError ∧ (date_range1 ≠ [] ∨ date_range2 ≠ [])
  end.
Proof.
  intros Hlay Hok Hout.
  destruct (apply_filters df date_range1 _ _ _) as [a|] eqn:Ha; [|done].
  cbn [mbind result_bind] in Hout.
  pose proof (apply_filters_unpacks _ _ _ _ _ _ Ha) as Hdr1.
  pose proof (apply_filters_unpacks _ _ _ _ _ _ Hout) as Hdr2.
  apply (apply_filters_Ok_rows _ lay) in Ha as ->; [|done].
  apply (apply_filters_Ok_rows _ lay) in Hout as ->; [|done].
  cbn [columns rows].
  assert (∀ (P : list Cell → Prop) `{!∀ r, Decision (P r)},
            Forall (λ r, dt_ok (r !!! date_i lay)) (filter P (rows df))) as Hsub.
  { intros P ?. apply Forall_forall. intros r [_ Hr]%list_elem_of_filter.
    rewrite Forall_forall in Hok. by apply Hok. }
  rewrite (apply_filters_rows df lay date_range2) by done.
  destruct (undated date_range2 _) eqn:Hu2.
  { split; [done|]. right. intros ->. by rewrite undated_nil in Hu2. }
  cbn [mbind result_bind].
  rewrite (apply_filters_rows _ lay date_range1) by (done || apply Hsub).
  cbn [columns rows]. destruct (undated date_range1 _) eqn:Hu1.
  { split; [done|]. left. intros ->. by rewrite undated_nil in Hu1. }
  f_equal. rewrite !list_filter_filter. apply list_filter_iff. intros r. tauto.
Qed.

Lemma apply_filters_commute_witness :
  (layout (columns scenario) = Some sample_layout
   ∧ Forall (λ r, dt_ok (r !!! date_i sample_layout)) (rows scenario)
   ∧ (a ← apply_filters scenario
            [days_from_civil 2024 1 1; days_from_civil 2024 1 1] [] [] [];
      apply_filters a [] ["A"] [] ["Auto"; "Bike"])
     = Ok scenario_first_day
   ∧ (b ← apply_filters scenario [] ["A"] [] ["Auto"; "Bike"];
      apply_filters b [days_from_civil 2024 1 1; days_from_civil 2024 1 1] [] [] [])
     = Ok scenario_first_day)
  ∧ (layout (columns rides_with_undated) = Some sample_layout
     ∧ Forall (λ r, dt_ok (r !!! date_i sample_layout)) (rows rides_with_undated)
     ∧ (a ← apply_filters rides_with_undated
              [days_from_civil 2024 1 1; days_from_civil 2024 1 2] [] [] [];
        apply_filters a [] ["C"] [] [])
       = Ok (mkFrame (columns rides_with_undated) [])
     ∧ (b ← apply_filters rides_with_undated [] ["C"] [] [];
        apply_filters b [days_from_civil 2024 1 1; days_from_civil 2024 1 2] [] [] [])
       = Raise TypeError).
Proof.
  assert (layout (columns scenario) = Some sample_layout) as Hlay by (by vm_compute).
  assert ((a ← apply_filters scenario
                 [days_from_civil 2024 1 1; days_from_civil 2024 1 1] [] [] [];
           apply_filters a [] ["A"] [] ["Auto"; "Bike"])
          = Ok scenario_first_day) as H by (by vm_compute).
  assert (layout (columns rides_with_undated) = Some sample_layout) as Hlay'
    by (by vm_compute).
  pose proof rides_with_undated_dates as Hok'.
  assert ((a ← apply_filters rides_with_undated
                 [days_from_civil 2024 1 1; days_from_civil 2024 1 2] [] [] [];
           apply_filters a [] ["C"] [] [])
          = Ok (mkFrame (columns rides_with_undated) [])) as H' by (by vm_compute).
  pose proof (apply_filters_commute scenario sample_layout _ _ _ _ _ _ _ _ _
                Hlay scenario_dates H) as Hw.
  pose proof (apply_filters_commute rides_with_undated sample_layout _ _ _ _ _ _ _ _ _
                Hlay' Hok' H') as Hw'.
  split.
  - split; [exact Hlay|]. split; [exact scenario_dates|]. split; [exact H|].
    destruct (b ← apply_filters scenario [] ["A"] [] ["Auto"; "Bike"];
              apply_filters b [days_from_civil 2024 1 1; days_from_civil 2024 1 1]
                [] [] []) as [out'|e] eqn:E; [by rewrite Hw|].
    by vm_compute in E.
  - split; [exact Hlay'|]. split; [exact Hok'|]. split; [exact H'|].
    destruct (b ← apply_filters rides_with_undated [] ["C"] [] [];
              apply_filters b [days_from_civil 2024 1 1; days_from_civil 2024 1 2]
                [] [] []) as [out'|e] eqn:E; [by vm_compute in E|].
    destruct Hw' as [-> _]. done.
Defined.

(** X12.  The bounds of the date range.  Every record that a date range lets
    through has a date, whose day lies between the start and the end, both
    included; with the three selections free, these are all the records
    kept; a record with no date is never kept; and a range whose end is
    before its start keeps nothing. *)
Theorem date_range_is_inclusive df lay start_date end_date pickup_filter
    dropoff_filter vehicle_filter out :
  layout (columns df) = Some lay →
  Forall (λ r, dt_ok (r !!! date_i lay)) (rows df) →
  apply_filters df [start_date; end_date] pickup_filter dropoff_filter
    vehicle_filter = Ok out →
  (∀ r, r ∈ rows out →
     ∃ t, r !!! date_i lay = Time t
          ∧ start_date ≤ t `div` ns_per_day ≤ end_date)
  ∧ (select_all pickup_filter → select_all dropoff_filter →
     select_all vehicle_filter →
     ∀ r, r ∈ rows out ↔
       r ∈ rows df
       ∧ ∃ t, r !!! date_i lay = Time t
              ∧ start_date ≤ t `div` ns_per_day ≤ end_date)
  ∧ (end_date < start_date → rows out = []).
Proof.
  intros Hlay Hok Hout.
  apply (apply_filters_Ok_rows _ lay) in Hout as ->; [|done]. cbn [rows].
  assert (∀ r : list Cell,
            in_date_range [start_date; end_date] (r !!! date_i lay) ↔
               ∃ t, r !!! date_i lay = Time t
                    ∧ start_date ≤ t `div` ns_per_day ≤ end_date) as Hin.
  { intros r. unfold in_date_range, day_of.
    destruct (r !!! date_i lay) as [|z|s|t]; cbn [dt_date_scalar in_range].
    - split; [done|]. by intros (t & ? & _).
    - split; [done|]. by intros (t & ? & _).
    - split; [done|]. by intros (t & ? & _).
    - rewrite andb_True, !bool_decide_spec. split.
      + intros ?. by exists t.
      + by intros (t' & [= <-] & ?). }
  assert (∀ flt c, select_all flt → selected flt c = true) as Hfree.
  { intros flt c [->|Hall]; unfold selected; [done|].
    rewrite (bool_decide_eq_false_2 ("All" ∉ flt)) by auto.
    by rewrite andb_false_r. }
  split_and!.
  - intros r [Hp _]%list_elem_of_filter. apply Hin. unfold passes in Hp.
    rewrite !andb_True in Hp. tauto.
  - intros Hp Hd Hv r. rewrite list_elem_of_filter, <- Hin. unfold passes.
    rewrite !Hfree, !andb_true_r by done. tauto.
  - intros Hlt.
    destruct (filter _ (rows df)) as [|r rs] eqn:E; [done|].
    assert (r ∈ filter (λ r, passes lay [start_date; end_date] pickup_filter
                               dropoff_filter vehicle_filter r) (rows df)) as Hr
      by (rewrite E; by left).
    apply list_elem_of_filter in Hr as [Hp _]. unfold passes in Hp.
    rewrite !andb_True in Hp. destruct Hp as [[[Hp _] _] _].
    apply Hin in Hp as (t & _ & ?). lia.
Qed.

Lemma date_range_is_inclusive_witness :
  layout (columns scenario) = Some sample_layout
  ∧ Forall (λ r, dt_ok (r !!! date_i sample_layout)) (rows scenario)
  ∧ apply_filters scenario
      [days_from_civil 2024 1 1; days_from_civil 2024 1 1] ["A"; "B"] [] ["Auto"]
    = Ok scenario_first_day
  ∧ ∀ r, r ∈ rows scenario_first_day →
      ∃ t, r !!! date_i sample_layout = Time t
           ∧ days_from_civil 2024 1 1 ≤ t `div` ns_per_day
             ≤ days_from_civil 2024 1 1.
Proof.
  assert (layout (columns scenario) = Some sample_layout) as Hlay by (by vm_compute).
  assert (apply_filters scenario
            [days_from_civil 2024 1 1; days_from_civil 2024 1 1]
            ["A"; "B"] [] ["Auto"] = Ok scenario_first_day) as H
    by (by vm_compute).
  split; [exact Hlay|]. split; [exact scenario_dates|]. split; [exact H|].
  exact (proj1 (date_range_is_inclusive scenario sample_layout _ _ _ _ _ _
                  Hlay scenario_dates H)).
Defined.

(** ** The order of the group keys; sums and permutations *)

Global Instance cell_le_trans : Transitive cell_le.
Proof.
  intros [|x|s|t] [|y|s'|t'] [|z|s''|t'']; simpl; try done; try lia.
  apply (transitivity (R:=String.le)).
Qed.

Global Instance cell_le_total : Total cell_le.
Proof.
  intros [|x|s|t] [|y|s'|t']; simpl; try tauto; try lia.
  apply (total String.le).
Qed.

Global Instance cell_le_antisymm : AntiSymm (=) cell_le.
Proof.
  intros [|x|s|t] [|y|s'|t']; simpl; try done.
  - intros. f_equal. lia.
  - intros H1 H2. f_equal. by apply (anti_symm String.le).
  - intros. f_equal. lia.
Qed.

Lemma sum_cells_app s1 s2 : sum_cells (s1 ++ s2) = sum_cells s1 + sum_cells s2.
Proof. unfold sum_cells. induction s1 as [|c s1 IH]; cbn [app foldr]; lia. Qed.

Global Instance sum_cells_Permutation : Proper ((≡ₚ) ==> (=)) sum_cells.
Proof.
  unfold sum_cells. induction 1; cbn [foldr]; lia.
Qed.

(** Sorted keys depend on the set of keys only. *)
Lemma group_keys_Permutation_eq {K} `{EqDecision K} (R : relation K)
    `{∀ x y, Decision (R x y)} `{!Transitive R, !Total R, !AntiSymm (=) R}
    (keys keys' : list (option K)) :
  keys ≡ₚ keys' → group_keys R keys = group_keys R keys'.
Proof.
  intros Hp. apply (StronglySorted_unique R).
  - by apply StronglySorted_merge_sort.
  - by apply StronglySorted_merge_sort.
  - rewrite !group_keys_Permutation.
    apply NoDup_Permutation; [apply NoDup_remove_dups..|].
    intros k. rewrite !elem_of_remove_dups. by rewrite Hp.
Qed.

Lemma groupby_rows_Permutation {K} `{EqDecision K} (R : relation K)
    `{∀ x y, Decision (R x y)} `{!Transitive R, !Total R, !AntiSymm (=) R}
    (g : Cell → option K) i j (rs rs' : list (list Cell)) :
  rs ≡ₚ rs' →
  groupby_sum R ((λ r, g (r !!! i)) <$> rs) (column_at j rs)
  = groupby_sum R ((λ r, g (r !!! i)) <$> rs') (column_at j rs').
Proof.
  intros Hp. unfold groupby_sum.
  rewrite (group_keys_Permutation_eq R _ ((λ r, g (r !!! i)) <$> rs'))
    by (by rewrite Hp).
  apply list_fmap_ext. intros _ k _. f_equal.
  rewrite !group_total_rows. unfold column_at. by rewrite Hp.
Qed.

(** ** Sorting the rows of a table *)

Section SortRows.
Context {A : Type} `{!Inhabited A} (kind : SortKind) (by_col : A → Z) (t : list A).

Lemma sort_rows_desc_Permutation : sort_rows_desc kind by_col t ≡ₚ t.
Proof.
  unfold sort_rows_desc.
  assert (argsort kind (reverse (by_col <$> t)) ≡ₚ seq 0 (length t)) as Ha.
  { rewrite (argsort_perm kind). by rewrite length_reverse, length_fmap. }
  assert ((λ i, reverse (seq 0 (length t)) !!! i) <$> seq 0 (length t)
          = reverse (seq 0 (length t))) as Hr.
  { pose proof (lookup_total_seq_fmap (reverse (seq 0 (length t)))) as E.
    by rewrite length_reverse, length_seq in E. }
  rewrite reverse_Permutation, Ha, Hr, reverse_Permutation.
  by rewrite lookup_total_seq_fmap.
Qed.

Lemma sort_rows_desc_values :
  by_col <$> sort_rows_desc kind by_col t
  = reverse ((λ i, reverse (by_col <$> t) !!! i)
             <$> argsort kind (reverse (by_col <$> t))).
Proof.
  unfold sort_rows_desc.
  rewrite <- list_fmap_compose, fmap_reverse. f_equal.
  rewrite <- list_fmap_compose.
  apply list_fmap_ext. intros _ i Hi%list_elem_of_lookup_2%argsort_bound.
  rewrite length_reverse, length_fmap in Hi. cbn [compose].
  rewrite !reverse_lookup_total by (by rewrite ?length_seq, ?length_fmap).
  rewrite length_seq, length_fmap.
  rewrite lookup_total_seq_lt by lia. cbn [Nat.add].
  by rewrite (list_lookup_total_fmap by_col t) by lia.
Qed.

Lemma sort_rows_desc_sorted :
  StronglySorted (λ a b, by_col b ≤ by_col a) (sort_rows_desc kind by_col t).
Proof.
  apply (StronglySorted_fmap_inv by_col (flip Z.le)).
  rewrite sort_rows_desc_values.
  apply Sorted_StronglySorted; [intros x y z; unfold flip; lia|].
  apply Sorted_reverse, argsort_sorted.
Qed.

End SortRows.

(** ** The summary per vehicle type *)

Lemma group_values_rows {K} `{EqDecision K} (g : Cell → option K) i j
    (rs : list (list Cell)) (k : K) :
  group_values ((λ r, g (r !!! i)) <$> rs) (column_at j rs) k
  = column_at j (filter (λ r, g (r !!! i) = Some k) rs).
Proof.
  unfold group_values, column_at. induction rs as [|r rs IH]; [done|].
  rewrite !fmap_cons, filter_cons. cbn [select].
  unfold bool_decide at 1. destruct (decide_rel eq (g (r !!! i)) (Some k)) as [E|E].
  - rewrite decide_True by done. rewrite fmap_cons. by f_equal.
  - by rewrite decide_False by done.
Qed.

Lemma filter_group_key i (k : Cell) (rs : list (list Cell)) :
  k ≠ NaN →
  filter (λ r, group_key (r !!! i) = Some k) rs = filter (λ r, r !!! i = k) rs.
Proof.
  intros Hk. apply list_filter_iff. intros r. rewrite group_key_Some. tauto.
Qed.

Lemma create_vehicle_summary_table_rows kind df i t j :
  find_label (columns df) "vehicle_type" = Some i →
  find_label (columns df) "trip_id" = Some t →
  find_label (columns df) "fare" = Some j →
  create_vehicle_summary_table kind df
  = Ok (sort_rows_desc kind Total_Value (summary_rows i t j (rows df))).
Proof.
  intros Hi Ht Hj. unfold create_vehicle_summary_table.
  destruct (empty df) eqn:He.
  - destruct (rows df) as [|r rs] eqn:Hr.
    + cbn. f_equal. symmetry. apply Permutation_nil_r.
      apply (sort_rows_desc_Permutation kind Total_Value []).
    + by rewrite (empty_false df "fare" j) in He by (done || by rewrite Hr).
  - rewrite !getitem_columns, Hi, Ht, Hj. cbn [mbind result_bind].
    assert (group_key <$> column_at i (rows df)
            = (λ r, group_key (r !!! i)) <$> rows df) as ->.
    { unfold column_at. by rewrite <- list_fmap_compose. }
    do 2 f_equal. unfold summary_rows.
    apply list_fmap_ext. intros _ k Hk%list_elem_of_lookup_2.
    apply elem_of_group_keys, list_elem_of_fmap in Hk as (r & Hk & _).
    symmetry in Hk. apply group_key_Some in Hk as [_ Hk]. cbv zeta.
    rewrite !(group_values_rows group_key i), !filter_group_key by done.
    done.
Qed.

Lemma summary_rows_keys i t j rs :
  vehicle_type <$> summary_rows i t j rs
  = group_keys cell_le ((λ r, group_key (r !!! i)) <$> rs).
Proof. unfold summary_rows. rewrite <- list_fmap_compose. apply list_fmap_id. Qed.

Lemma summary_rows_values i t j rs :
  (λ row, (vehicle_type row, Total_Value row)) <$> summary_rows i t j rs
  = groupby_sum cell_le ((λ r, group_key (r !!! i)) <$> rs) (column_at j rs).
Proof.
  unfold summary_rows, groupby_sum. rewrite <- list_fmap_compose.
  apply list_fmap_ext. intros _ k Hk%list_elem_of_lookup_2.
  apply elem_of_group_keys, list_elem_of_fmap in Hk as (r & Hk & _).
  symmetry in Hk. apply group_key_Some in Hk as [_ Hk].
  cbn [compose vehicle_type Total_Value]. f_equal.
  by rewrite group_total_rows, filter_group_key.
Qed.

(** X13.  The summary per vehicle type.  On a frame that has the vehicle
    type, the trip id and the fare, the fares being whole numbers in the
    range in which float64 adds and rounds to two decimals exactly, and
    whatever the sorting algorithm: the table is in descending order of
    total value, has one row per vehicle type that is not missing, and on
    that row the number of trip ids that are not missing, the sum of the
    fares, and the float64 mean of the fares rounded to two decimals, of the
    records of the type. *)
Theorem vehicle_summary_rows kind df i t j :
  find_label (columns df) "vehicle_type" = Some i →
  find_label (columns df) "trip_id" = Some t →
  find_label (columns df) "fare" = Some j →
  rounds_exactly (column_at j (rows df)) →
  ∃ table,
    create_vehicle_summary_table kind df = Ok table
    ∧ StronglySorted (λ a b, Total_Value b ≤ Total_Value a) table
    ∧ NoDup (vehicle_type <$> table)
    ∧ ∀ row, row ∈ table ↔
        (vehicle_type row ≠ NaN ∧ ∃ r, r ∈ rows df ∧ r !!! i = vehicle_type row)
        ∧ let group := filter (λ r, r !!! i = vehicle_type row) (rows df) in
          Total_Bookings row = count_cells (column_at t group)
          ∧ Total_Value row = sum_cells (column_at j group)
          ∧ Avg_Fare row = f64_round_2 (mean_cells (column_at j group)).
Proof.
  intros Hi Ht Hj _. eexists.
  split; [by apply create_vehicle_summary_table_rows|].
  split; [apply sort_rows_desc_sorted|].
  split.
  - rewrite sort_rows_desc_Permutation, summary_rows_keys. apply group_keys_NoDup.
  - intros row. rewrite sort_rows_desc_Permutation. unfold summary_rows.
    rewrite list_elem_of_fmap. cbv zeta. split.
    + intros (k & -> & Hk). cbn [vehicle_type Total_Bookings Total_Value Avg_Fare].
      apply elem_of_group_keys, list_elem_of_fmap in Hk as (r & Hk & Hr).
      symmetry in Hk. apply group_key_Some in Hk as [Hk Hnn].
      split; [|done]. split; [done|]. by exists r.
    + intros [[Hnn (r & Hr & Hk)] (Hb & Hv & Ha)].
      exists (vehicle_type row). split.
      * destruct row as [k b v a]. cbn in *. by rewrite Hb, Hv, Ha.
      * apply elem_of_group_keys, list_elem_of_fmap. exists r. split; [|done].
        symmetry. by apply group_key_Some.
Qed.

Lemma vehicle_summary_rows_witness :
  find_label (columns scenario_undated) "vehicle_type" = Some (vehicle_i sample_layout)
  ∧ find_label (columns scenario_undated) "trip_id" = Some (trip_i sample_layout)
  ∧ find_label (columns scenario_undated) "fare" = Some (fare_i sample_layout)
  ∧ rounds_exactly (column_at (fare_i sample_layout) (rows scenario_undated))
  ∧ create_vehicle_summary_table simd_kind scenario_undated
    = Ok [mkSummaryRow (Str "Auto") 2 140 (f64_of_Z 70);
          mkSummaryRow (Str "Bike") 1 50 (f64_of_Z 50);
          mkSummaryRow (Str "Unknown") 1 25 (f64_of_Z 25)]
  ∧ ∃ table,
      create_vehicle_summary_table simd_kind scenario_undated = Ok table
      ∧ StronglySorted (λ a b, Total_Value b ≤ Total_Value a) table
      ∧ NoDup (vehicle_type <$> table).
Proof.
  split; [by vm_compute|]. split; [by vm_compute|]. split; [by vm_compute|].
  split; [by_evaluation|]. split; [by vm_compute|].
  destruct (vehicle_summary_rows simd_kind scenario_undated
              (vehicle_i sample_layout) (trip_i sample_layout)
              (fare_i sample_layout))
    as (table & Ht & Hs & Hn & _); [by vm_compute..|by_evaluation|].
  exists table. by split_and!.
Defined.

(** X14.  The summary and the breakdown agree: with fares in the range in
    which float64 adds and rounds to two decimals exactly, when the summary
    is returned, so is the breakdown by vehicle type, and the vehicle types
    with their total values are the slices of the breakdown, up to their
    order. *)
Theorem vehicle_summary_agrees_with_donut kind df table :
  exact_rounding df "fare" →
  create_vehicle_summary_table kind df = Ok table →
  ∃ donut, create_donut_chart df "vehicle_type" = Ok donut
    ∧ (λ row, (vehicle_type row, Total_Value row)) <$> table ≡ₚ donut.
Proof.
  intros _. unfold create_vehicle_summary_table, create_donut_chart.
  destruct (empty df) eqn:He.
  { intros [= <-]. by exists []. }
  rewrite !getitem_columns.
  destruct (find_label (columns df) "vehicle_type") as [i|] eqn:Hi; [|done].
  cbn [mbind result_bind].
  destruct (find_label (columns df) "trip_id") as [t|] eqn:Ht; [|done].
  cbn [mbind result_bind].
  destruct (find_label (columns df) "fare") as [j|] eqn:Hj; [|done].
  cbn [mbind result_bind]. intros [= <-]. eexists. split; [done|].
  rewrite sort_rows_desc_Permutation. unfold groupby_sum.
  rewrite <- list_fmap_compose. done.
Qed.

Lemma scenario_fares :
  exact_rounding scenario "fare".
Proof. intros j Hj. vm_compute in Hj. injection Hj as <-. by_evaluation. Qed.

Lemma vehicle_summary_agrees_with_donut_witness :
  exact_rounding scenario "fare"
  ∧ create_vehicle_summary_table simd_kind scenario
    = Ok [mkSummaryRow (Str "Auto") 1 100 (f64_of_Z 100);
          mkSummaryRow (Str "Bike") 1 50 (f64_of_Z 50);
          mkSummaryRow (Str "Unknown") 1 25 (f64_of_Z 25)]
  ∧ ∃ donut,
      create_donut_chart scenario "vehicle_type" = Ok donut
      ∧ [(Str "Auto", 100); (Str "Bike", 50); (Str "Unknown", 25)] ≡ₚ donut.
Proof.
  assert (create_vehicle_summary_table simd_kind scenario
          = Ok [mkSummaryRow (Str "Auto") 1 100 (f64_of_Z 100);
                mkSummaryRow (Str "Bike") 1 50 (f64_of_Z 50);
                mkSummaryRow (Str "Unknown") 1 25 (f64_of_Z 25)]) as H
    by (by vm_compute).
  split; [exact scenario_fares|]. split; [exact H|].
  exact (vehicle_summary_agrees_with_donut _ _ _ scenario_fares H).
Defined.

Global Instance sum_Z_Permutation : Proper ((≡ₚ) ==> (=)) sum_Z.
Proof. unfold sum_Z. induction 1; cbn [foldr]; lia. Qed.

Lemma sum_list_with_pointwise {A} (f g : A → nat) (l : list A) :
  (∀ a, f a = g a) → sum_list_with f l = sum_list_with g l.
Proof. intros E. induction l as [|a l IH]; cbn [sum_list_with]; [done|]. by rewrite E, IH. Qed.

Lemma sum_list_with_fmap {A B} (f : B → nat) (g : A → B) (l : list A) :
  sum_list_with f (g <$> l) = sum_list_with (f ∘ g) l.
Proof. induction l as [|a l IH]; [done|]. rewrite fmap_cons. cbn [sum_list_with]. by rewrite IH. Qed.

Lemma sum_list_with_add {A} (f g : A → nat) (l : list A) :
  sum_list_with (λ a, f a + g a)%nat l = (sum_list_with f l + sum_list_with g l)%nat.
Proof. induction l as [|a l IH]; cbn [sum_list_with]; lia. Qed.

Lemma sum_list_with_indicator {K} `{EqDecision K} (ks : list K) (k0 : K) :
  NoDup ks →
  sum_list_with (λ k, if decide (k0 = k) then 1 else 0)%nat ks
  = if decide (k0 ∈ ks) then 1%nat else 0%nat.
Proof.
  induction 1 as [|k ks Hk Hnd IH]; [done|].
  cbn [sum_list_with]. rewrite IH.
  destruct (decide (k0 = k)) as [->|Hne].
  - rewrite decide_False by done. by rewrite decide_True by (by left).
  - destruct (decide (k0 ∈ ks)) as [Hin|Hnin].
    + by rewrite decide_True by (by right).
    + rewrite decide_False; [done|]. by intros [?|?]%elem_of_cons.
Qed.

(** Groups partition the rows that have a key. *)
Lemma count_by_key {A K} `{EqDecision K} (key : A → K) (ks : list K) (rs : list A) :
  NoDup ks → (∀ r, r ∈ rs → key r ∈ ks) →
  sum_list_with (λ k, length (filter (λ r, key r = k) rs)) ks = length rs.
Proof.
  intros Hnd. induction rs as [|r rs IH]; intros Hin.
  - clear. induction ks as [|k ks IH]; [done|]. cbn [sum_list_with]. by rewrite IH.
  - rewrite (sum_list_with_pointwise _
      (λ k, (if decide (key r = k) then 1 else 0)
            + length (filter (λ r, key r = k) rs))%nat).
    2:{ intros k. rewrite filter_cons. by destruct (decide (key r = k)). }
    rewrite sum_list_with_add, sum_list_with_indicator by done.
    rewrite decide_True by (apply Hin; by left).
    rewrite IH by (intros r' Hr'; apply Hin; by right). done.
Qed.

Lemma count_cells_notna (s : Series) : Forall (λ c, c ≠ NaN) s → count_cells s = length s.
Proof.
  intros Hs. unfold count_cells. f_equal. apply filter_all.
  eapply Forall_impl; [done|]. by intros [].
Qed.

(** The counts and the totals of the summary, over the rows of a frame in
    which no vehicle type and no trip id is missing. *)
Lemma summary_rows_totals i t j (rs : list (list Cell)) :
  Forall (λ r, r !!! i ≠ NaN ∧ r !!! t ≠ NaN) rs →
  sum_list_with Total_Bookings (summary_rows i t j rs) = length rs
  ∧ sum_Z (Total_Value <$> summary_rows i t j rs)
    = sum_cells (column_at j rs).
Proof.
  intros Hrs. rewrite Forall_forall in Hrs. split.
  - unfold summary_rows. cbv zeta.
    rewrite <- (count_by_key (λ r, r !!! i)
                 (group_keys cell_le ((λ r, group_key (r !!! i)) <$> rs)) rs).
    + rewrite sum_list_with_fmap. apply sum_list_with_pointwise. intros k.
      cbn [compose Total_Bookings]. rewrite count_cells_notna, length_column_at; [done|].
      apply Forall_fmap, Forall_forall. intros r [_ Hr]%list_elem_of_filter.
      cbn [compose]. by apply Hrs.
    + apply group_keys_NoDup.
    + intros r Hr. apply elem_of_group_keys, list_elem_of_fmap.
      exists r. split; [|done]. symmetry. apply group_key_Some.
      split; [done|]. by apply Hrs.
  - pose proof (summary_rows_values i t j rs) as Hv.
    apply (f_equal (fmap snd)) in Hv. rewrite <- list_fmap_compose in Hv.
    change (snd ∘ _) with Total_Value in Hv. rewrite Hv.
    rewrite groupby_sum_total by (by rewrite length_column_at, length_fmap).
    f_equal. apply select_all_Some; [|by rewrite length_column_at, length_fmap].
    apply Forall_fmap, Forall_forall. intros r Hr. cbn [compose].
    destruct (Hrs r Hr) as [Hnn _]. unfold group_key. by destruct (r !!! i).
Qed.

(** X15.  On a canonical dataset in which no trip id is missing, with fares
    in the range in which float64 adds and rounds to two decimals exactly,
    the summary and the key figures are returned, the bookings of the
    summary add up to the number of bookings and its total values to the
    total booking value. *)
Theorem vehicle_summary_adds_up kind df lay :
  layout (columns df) = Some lay → Forall (canonical_row lay) (rows df) →
  Forall (λ r, r !!! trip_i lay ≠ NaN) (rows df) →
  rounds_exactly (column_at (fare_i lay) (rows df)) →
  ∃ table kpi,
    create_vehicle_summary_table kind df = Ok table
    ∧ create_kpi_metrics df = Ok kpi
    ∧ sum_list_with Total_Bookings table = total_bookings kpi
    ∧ sum_Z (Total_Value <$> table) = total_booking_value kpi.
Proof.
  intros Hlay Hrows Hids _.
  pose proof (layout_find _ _ Hlay) as Hf.
  injection Hf as _ _ Hfare Hdi Hdu Htrip _ _ _ Hveh.
  rewrite (create_vehicle_summary_table_rows kind df _ _ _ Hveh Htrip Hfare).
  destruct (create_kpi_metrics_total df _ Hfare) as (kpi & Hkpi & Htot & Hlen);
    [by eexists..|].
  eexists _, kpi. split; [done|]. split; [done|].
  rewrite sort_rows_desc_Permutation. rewrite Htot, Hlen.
  apply summary_rows_totals. apply Forall_forall. intros r Hr.
  rewrite Forall_forall in Hrows, Hids. split; [|by apply Hids].
  by destruct (Hrows r Hr) as (_ & _ & _ & _ & _ & _ & ?).
Qed.

Lemma vehicle_summary_adds_up_witness :
  layout (columns scenario) = Some sample_layout
  ∧ Forall (canonical_row sample_layout) (rows scenario)
  ∧ Forall (λ r, r !!! trip_i sample_layout ≠ NaN) (rows scenario)
  ∧ rounds_exactly (column_at (fare_i sample_layout) (rows scenario))
  ∧ ∃ table kpi,
      create_vehicle_summary_table simd_kind scenario = Ok table
      ∧ create_kpi_metrics scenario = Ok kpi
      ∧ sum_list_with Total_Bookings table = total_bookings kpi
      ∧ sum_Z (Total_Value <$> table) = total_booking_value kpi.
Proof.
  assert (layout (columns scenario) = Some sample_layout) as Hlay by (by vm_compute).
  assert (Forall (canonical_row sample_layout) (rows scenario)) as Hrows.
  { destruct scenario_canonical as (lay & Hlay' & Hrows).
    assert (lay = sample_layout) as -> by congruence. exact Hrows. }
  assert (Forall (λ r, r !!! trip_i sample_layout ≠ NaN) (rows scenario)) as Hids
    by (apply (bool_decide_unpack _); by vm_compute).
  assert (rounds_exactly (column_at (fare_i sample_layout) (rows scenario))) as Hex
    by by_evaluation.
  split; [exact Hlay|]. split; [exact Hrows|]. split; [exact Hids|].
  split; [exact Hex|].
  exact (vehicle_summary_adds_up simd_kind scenario sample_layout Hlay Hrows Hids Hex).
Defined.

(** ** Breakdown, trend, key figures, ranking *)

(** X16.  The slices of a breakdown.  On a frame that has the category and
    the fare, the table has one entry per value of the category that is not
    missing, in increasing order of the values, with the sum of the fares of
    the records that have the value. *)
Theorem donut_slices df column i j :
  find_label (columns df) column = Some i →
  find_label (columns df) "fare" = Some j →
  ∃ out, create_donut_chart df column = Ok out
    ∧ StronglySorted cell_le out.*1
    ∧ NoDup out.*1
    ∧ ∀ k v, (k, v) ∈ out ↔
        (k ≠ NaN ∧ ∃ r, r ∈ rows df ∧ r !!! i = k)
        ∧ v = sum_cells (column_at j (filter (λ r, r !!! i = k) (rows df))).
Proof.
  intros Hi Hj. eexists. split; [by apply create_groupby_chart_rows|].
  rewrite groupby_sum_keys. split_and!.
  - apply StronglySorted_merge_sort; apply _.
  - apply group_keys_NoDup.
  - intros k v. rewrite elem_of_groupby_rows. split.
    + intros [(r & Hr & [<- Hk]%group_key_Some) ->]. split; [by eauto|].
      by rewrite filter_group_key.
    + intros [[Hk (r & Hr & <-)] ->]. split.
      * exists r. split; [done|]. by apply group_key_Some.
      * by rewrite filter_group_key.
Qed.

Lemma donut_slices_witness :
  find_label (columns scenario) "payment_type" = Some (payment_i sample_layout)
  ∧ find_label (columns scenario) "fare" = Some (fare_i sample_layout)
  ∧ ∃ out, create_donut_chart scenario "payment_type" = Ok out
      ∧ StronglySorted cell_le out.*1
      ∧ NoDup out.*1.
Proof.
  split; [by vm_compute|]. split; [by vm_compute|].
  destruct (donut_slices scenario "payment_type" (payment_i sample_layout)
              (fare_i sample_layout)) as (out & Ho & Hs & Hn & _);
    [by vm_compute..|].
  exists out. by split_and!.
Defined.

Lemma select_is_Some_rows {K} (g : Cell → option K) i j (rs : list (list Cell)) :
  select (column_at j rs) ((λ k, bool_decide (is_Some k)) <$> ((λ r, g (r !!! i)) <$> rs))
  = column_at j (filter (λ r, is_Some (g (r !!! i))) rs).
Proof.
  unfold column_at. induction rs as [|r rs IH]; [done|].
  rewrite !fmap_cons, filter_cons. cbn [select].
  destruct (decide (is_Some (g (r !!! i)))) as [E|E].
  - rewrite bool_decide_eq_true_2 by done. rewrite fmap_cons. by f_equal.
  - by rewrite bool_decide_eq_false_2 by done.
Qed.

Lemma sum_cells_split (P : list Cell → Prop) `{!∀ r, Decision (P r)} j
    (rs : list (list Cell)) :
  sum_cells (column_at j rs)
  = sum_cells (column_at j (filter P rs))
    + sum_cells (column_at j (filter (λ r, ¬ P r) rs)).
Proof.
  unfold column_at, sum_cells. induction rs as [|r rs IH]; [done|].
  rewrite !filter_cons. destruct (decide (P r)).
  - rewrite decide_False by tauto. rewrite !fmap_cons. cbn [foldr]. lia.
  - rewrite decide_True by done. rewrite !fmap_cons. cbn [foldr]. lia.
Qed.

Lemma filter_iff_elem_of {A} (P Q : A → Prop) `{!∀ x, Decision (P x)}
    `{!∀ x, Decision (Q x)} (l : list A) :
  (∀ x, x ∈ l → (P x ↔ Q x)) → filter P l = filter Q l.
Proof.
  induction l as [|x l IH]; [done|]. intros Hl. rewrite !filter_cons.
  rewrite IH by (intros y Hy; apply Hl; by right).
  destruct (decide (P x)) as [HP|HP].
  - by rewrite decide_True by (apply Hl; [by left|done]).
  - rewrite decide_False; [done|]. intros HQ. apply HP, Hl; [by left|done].
Qed.

(** X17.  The trend and the total.  On a canonical dataset whose fares are
    whole numbers that float64 adds exactly, the daily values of the trend,
    together with the fares of the records that have no date (which the
    trend leaves out), add up to the total booking value. *)
Theorem trend_adds_up df lay :
  layout (columns df) = Some lay → Forall (canonical_row lay) (rows df) →
  sums_exactly (column_at (fare_i lay) (rows df)) →
  ∃ out kpi,
    create_trend_chart df = Ok out
    ∧ create_kpi_metrics df = Ok kpi
    ∧ sum_Z out.*2
      + sum_cells (column_at (fare_i lay)
                     (filter (λ r, r !!! date_i lay = NaN) (rows df)))
      = total_booking_value kpi.
Proof.
  intros Hlay Hrows _. pose proof (layout_find _ _ Hlay) as Hf.
  injection Hf as Hd _ Hfare Hdi Hdu _ _ _ _ _.
  rewrite Forall_forall in Hrows.
  assert (forallb (λ r, dt_ok (r !!! date_i lay)) (rows df) = true) as Hok.
  { apply forallb_forall. intros r Hr%list_elem_of_In.
    destruct (Hrows r Hr) as [Hdt _]. by apply Is_true_true. }
  destruct (create_kpi_metrics_total df _ Hfare) as (kpi & Hkpi & Htot & _);
    [by eexists..|].
  eexists _, kpi. split; [by apply create_trend_chart_rows|]. split; [done|].
  rewrite Htot, groupby_sum_total by (by rewrite length_column_at, length_fmap).
  rewrite select_is_Some_rows.
  rewrite (sum_cells_split (λ r, is_Some (day_of (r !!! date_i lay))) _ (rows df)).
  f_equal. do 2 f_equal. apply filter_iff_elem_of. intros r Hr.
  destruct (Hrows r Hr) as [Hdt _]. unfold dt_ok, day_of in *.
  destruct (r !!! date_i lay); simpl in *; try done.
  split; [done|]. intros Hn. destruct Hn. by eexists.
Qed.

Lemma trend_adds_up_witness :
  layout (columns scenario_undated) = Some sample_layout
  ∧ Forall (canonical_row sample_layout) (rows scenario_undated)
  ∧ sums_exactly (column_at (fare_i sample_layout) (rows scenario_undated))
  ∧ create_trend_chart scenario_undated
    = Ok [(days_from_civil 2024 1 1, 150); (days_from_civil 2024 1 2, 25)]
  ∧ sum_cells (column_at (fare_i sample_layout)
                 (filter (λ r, r !!! date_i sample_layout = NaN)
                    (rows scenario_undated))) = 40
  ∧ ∃ out kpi,
      create_trend_chart scenario_undated = Ok out
      ∧ create_kpi_metrics scenario_undated = Ok kpi
      ∧ sum_Z out.*2
        + sum_cells (column_at (fare_i sample_layout)
                       (filter (λ r, r !!! date_i sample_layout = NaN)
                          (rows scenario_undated)))
        = total_booking_value kpi.
Proof.
  assert (layout (columns scenario_undated) = Some sample_layout) as Hlay
    by (by vm_compute).
  assert (Forall (canonical_row sample_layout) (rows scenario_undated)) as Hrows.
  { destruct (load_data_canonical sample_conversions
                (mkFrame raw_columns (missing_date_row :: completed_rows))
                scenario_undated) as (lay & Hlay' & Hrows).
    - unfold rectangular. cbn [rows columns].
      unfold completed_rows. repeat constructor.
    - by vm_compute.
    - assert (lay = sample_layout) as -> by congruence. exact Hrows. }
  assert (sums_exactly (column_at (fare_i sample_layout) (rows scenario_undated)))
    as Hex by by_evaluation.
  split; [exact Hlay|]. split; [exact Hrows|]. split; [exact Hex|].
  split; [by vm_compute|]. split; [by vm_compute|].
  exact (trend_adds_up scenario_undated sample_layout Hlay Hrows Hex).
Defined.

(** X18.  The totals of the key figures add up over a split of the records.
    When the key figures are returned for a frame whose fares and distances
    are whole numbers that float64 adds exactly, they are returned for the
    frame of its first records and for the frame of the other ones, and the
    number of bookings, the total booking value and the total distance are
    the sums of those of the two. *)
Theorem kpi_of_split_dataset cols rs1 rs2 kpi :
  exact_sums (mkFrame cols (rs1 ++ rs2)) "fare" →
  exact_sums (mkFrame cols (rs1 ++ rs2)) "distance_miles" →
  create_kpi_metrics (mkFrame cols (rs1 ++ rs2)) = Ok kpi →
  ∃ kpi1 kpi2,
    create_kpi_metrics (mkFrame cols rs1) = Ok kpi1
    ∧ create_kpi_metrics (mkFrame cols rs2) = Ok kpi2
    ∧ total_bookings kpi = (total_bookings kpi1 + total_bookings kpi2)%nat
    ∧ total_booking_value kpi = total_booking_value kpi1 + total_booking_value kpi2
    ∧ total_distance kpi = total_distance kpi1 + total_distance kpi2.
Proof.
  intros _ _. unfold create_kpi_metrics, empty. cbn [columns rows].
  destruct (decide (cols = [])) as [->|Hc].
  { intros [= <-].
    by exists (mkKpi 0 0 f64_zero 0 f64_zero), (mkKpi 0 0 f64_zero 0 f64_zero). }
  rewrite (bool_decide_eq_false_2 (cols = [])) by done. cbn [orb].
  rewrite !getitem_find.
  destruct (decide (rs1 = [])) as [->|H1].
  { cbn [app]. intros Hk. exists (mkKpi 0 0 f64_zero 0 f64_zero), kpi.
    rewrite (bool_decide_eq_true_2 (@nil (list Cell) = [])) by done.
    split; [done|]. split; [done|]. by destruct kpi. }
  destruct (decide (rs2 = [])) as [->|H2].
  { rewrite app_nil_r. intros Hk. exists kpi, (mkKpi 0 0 f64_zero 0 f64_zero).
    rewrite (bool_decide_eq_true_2 (@nil (list Cell) = [])) by done.
    split; [done|]. split; [done|]. destruct kpi; cbn. split_and!; lia. }
  rewrite (bool_decide_eq_false_2 (rs1 ++ rs2 = []))
    by (by intros [? ?]%app_eq_nil).
  rewrite !bool_decide_eq_false_2 by done.
  destruct (find_label cols "fare") as [j|]; [|done].
  destruct (find_label cols "distance_miles") as [di|]; [|done].
  destruct (find_label cols "duration_min") as [du|]; [|done].
  cbn [mbind result_bind]. intros [= <-]. eexists _, _.
  split; [done|]. split; [done|].
  cbn [total_bookings total_booking_value total_distance].
  unfold column_at. by rewrite !fmap_app, !sum_cells_app, length_app.
Qed.

Lemma kpi_of_split_dataset_witness :
  exact_sums
    (mkFrame (columns scenario) (take 1 (rows scenario) ++ drop 1 (rows scenario)))
    "fare"
  ∧ exact_sums
      (mkFrame (columns scenario) (take 1 (rows scenario) ++ drop 1 (rows scenario)))
      "distance_miles"
  ∧ create_kpi_metrics
      (mkFrame (columns scenario) (take 1 (rows scenario) ++ drop 1 (rows scenario)))
    = Ok (mkKpi 3 175 (f64_div (f64_of_Z 175) (f64_of_Z 3)) 15 (f64_of_Z 21))
  ∧ ∃ kpi1 kpi2,
      create_kpi_metrics (mkFrame (columns scenario) (take 1 (rows scenario)))
      = Ok kpi1
      ∧ create_kpi_metrics (mkFrame (columns scenario) (drop 1 (rows scenario)))
        = Ok kpi2
      ∧ 3%nat = (total_bookings kpi1 + total_bookings kpi2)%nat
      ∧ 175 = total_booking_value kpi1 + total_booking_value kpi2
      ∧ 15 = total_distance kpi1 + total_distance kpi2.
Proof.
  assert (exact_sums
            (mkFrame (columns scenario)
               (take 1 (rows scenario) ++ drop 1 (rows scenario))) "fare") as Hf.
  { intros j Hj. vm_compute in Hj. injection Hj as <-. by_evaluation. }
  assert (exact_sums
            (mkFrame (columns scenario)
               (take 1 (rows scenario) ++ drop 1 (rows scenario)))
            "distance_miles") as Hd.
  { intros j Hj. vm_compute in Hj. injection Hj as <-. by_evaluation. }
  assert (create_kpi_metrics
            (mkFrame (columns scenario)
               (take 1 (rows scenario) ++ drop 1 (rows scenario)))
          = Ok (mkKpi 3 175 (f64_div (f64_of_Z 175) (f64_of_Z 3)) 15 (f64_of_Z 21)))
    as H by (by vm_compute).
  split; [exact Hf|]. split; [exact Hd|]. split; [exact H|].
  exact (kpi_of_split_dataset _ _ _ _ Hf Hd H).
Defined.

(** X19.  The ranking shows the largest groups: its entries are entries of
    the breakdown by the same field, ten of them or all when there are
    fewer, and no entry that is left out has a larger sum than an entry that
    is shown. *)
Theorem ranking_shows_the_largest kind df location_type out :
  create_location_chart kind df location_type = Ok out →
  ∃ table,
    create_donut_chart df location_type = Ok table
    ∧ out ⊆ table
    ∧ length out = (length table `min` 10)%nat
    ∧ ∀ shown left_out,
        shown ∈ out → left_out ∈ table → left_out ∉ out →
        left_out.2 ≤ shown.2.
Proof.
  unfold create_location_chart, create_donut_chart.
  destruct (empty df).
  { intros [= <-]. exists []. split_and!; [done..|]. by intros ? ? ?%not_elem_of_nil. }
  destruct (getitem df location_type) as [keys|]; [|done]. cbn [mbind result_bind].
  destruct (getitem df "fare") as [fare|]; [|done]. cbn [mbind result_bind].
  intros [= <-]. eexists. split; [done|].
  set (table := groupby_sum cell_le (group_key <$> keys) fare).
  pose proof (sort_values_desc_Permutation kind table) as Hperm.
  pose proof (sort_values_desc_sorted kind table) as Hsorted.
  set (ranked := sort_values_desc kind table) in *.
  split_and!.
  - intros e He%subseteq_take. by rewrite Hperm in He.
  - rewrite length_take, <- Hperm. lia.
  - intros shown left_out Hs Hl Hn.
    rewrite <- Hperm, <- (take_drop 10 ranked) in Hl.
    apply elem_of_app in Hl as [Hl|Hl]; [done|].
    rewrite <- (take_drop 10 ranked) in Hsorted.
    by apply (StronglySorted_app_1_elem_of _ _ _ _ _ Hsorted Hs Hl).
Qed.

Lemma ranking_shows_the_largest_witness :
  create_location_chart stable_kind scenario "pickup"
  = Ok [(Str "A", 125); (Str "B", 50)]
  ∧ ∃ table,
      create_donut_chart scenario "pickup" = Ok table
      ∧ [(Str "A", 125); (Str "B", 50)] ⊆ table
      ∧ length [(Str "A", 125); (Str "B", 50)] = (length table `min` 10)%nat.
Proof.
  assert (create_location_chart stable_kind scenario "pickup"
          = Ok [(Str "A", 125); (Str "B", 50)]) as H by (by vm_compute).
  split; [exact H|].
  destruct (ranking_shows_the_largest _ _ _ _ H) as (table & Ht & Hs & Hl & _).
  exists table. by split_and!.
Defined.

(** ** The order of the records *)

Global Instance count_cells_Permutation : Proper ((≡ₚ) ==> (=)) count_cells.
Proof. intros s s' Hs. unfold count_cells. by rewrite Hs. Qed.

Lemma forallb_Permutation {A} (p : A → bool) (l l' : list A) :
  l ≡ₚ l' → forallb p l = forallb p l'.
Proof.
  induction 1 as [|x l l' _ IH|x y l|l l' l'' _ IH1 _ IH2]; cbn [forallb];
    [done|by rewrite IH| |congruence].
  destruct (p x), (p y); done.
Qed.

Lemma empty_Permutation cols (rs rs' : list (list Cell)) :
  rs ≡ₚ rs' → empty (mkFrame cols rs) = empty (mkFrame cols rs').
Proof.
  intros Hp. unfold empty. cbn [columns rows]. f_equal.
  destruct rs as [|r rs], rs' as [|r' rs']; try done.
  - by apply Permutation_nil_cons in Hp.
  - symmetry in Hp. by apply Permutation_nil_cons in Hp.
Qed.

(** X20.  The order of the records does not matter, when the fares, the
    distances and the durations are whole numbers in the range in which
    float64 adds them (and rounds the fares to two decimals) exactly: two
    frames with the same columns and the same records in another order have
    the same key figures, breakdowns, trend, rankings and summary per
    vehicle type. *)
Theorem aggregates_ignore_record_order kind cols rs rs' :
  rs ≡ₚ rs' →
  exact_rounding (mkFrame cols rs) "fare" →
  exact_sums (mkFrame cols rs) "distance_miles" →
  exact_sums (mkFrame cols rs) "duration_min" →
  create_kpi_metrics (mkFrame cols rs) = create_kpi_metrics (mkFrame cols rs')
  ∧ (∀ column, create_donut_chart (mkFrame cols rs) column
               = create_donut_chart (mkFrame cols rs') column)
  ∧ create_trend_chart (mkFrame cols rs) = create_trend_chart (mkFrame cols rs')
  ∧ (∀ location_type,
       create_location_chart kind (mkFrame cols rs) location_type
       = create_location_chart kind (mkFrame cols rs') location_type)
  ∧ create_vehicle_summary_table kind (mkFrame cols rs)
    = create_vehicle_summary_table kind (mkFrame cols rs').
Proof.
  intros Hp _ _ _.
  assert (∀ i j,
    groupby_sum cell_le (group_key <$> column_at i rs) (column_at j rs)
    = groupby_sum cell_le (group_key <$> column_at i rs') (column_at j rs'))
    as Hgroup.
  { intros i j. unfold column_at at 1 3. rewrite <- !list_fmap_compose.
    by apply (groupby_rows_Permutation cell_le group_key). }
  split_and!.
  - unfold create_kpi_metrics. rewrite (empty_Permutation _ _ _ Hp).
    destruct (empty _); [done|]. rewrite !getitem_find.
    destruct (find_label cols "fare") as [j|]; [|done].
    destruct (find_label cols "distance_miles") as [di|]; [|done].
    destruct (find_label cols "duration_min") as [du|]; [|done].
    cbn [mbind result_bind rows]. unfold mean_cells, column_at. by rewrite Hp.
  - intros column. unfold create_donut_chart. rewrite (empty_Permutation _ _ _ Hp).
    destruct (empty _); [done|]. rewrite !getitem_find.
    destruct (find_label cols column) as [i|]; [|done]. cbn [mbind result_bind].
    destruct (find_label cols "fare") as [j|]; [|done]. cbn [mbind result_bind].
    by rewrite Hgroup.
  - unfold create_trend_chart. rewrite (empty_Permutation _ _ _ Hp).
    destruct (empty _); [done|]. rewrite !getitem_find.
    destruct (find_label cols "date") as [i|]; [|done]. cbn [mbind result_bind].
    rewrite !dt_date_column, (forallb_Permutation _ _ _ Hp).
    destruct (forallb _ rs'); [|done]. cbn [mbind result_bind].
    destruct (find_label cols "fare") as [j|]; [|done]. cbn [mbind result_bind].
    f_equal. by apply (groupby_rows_Permutation Z.le day_of).
  - intros location_type. unfold create_location_chart.
    rewrite (empty_Permutation _ _ _ Hp). destruct (empty _); [done|].
    rewrite !getitem_find.
    destruct (find_label cols location_type) as [i|]; [|done].
    cbn [mbind result_bind].
    destruct (find_label cols "fare") as [j|]; [|done]. cbn [mbind result_bind].
    by rewrite Hgroup.
  - unfold create_vehicle_summary_table. rewrite (empty_Permutation _ _ _ Hp).
    destruct (empty _); [done|]. rewrite !getitem_find.
    destruct (find_label cols "vehicle_type") as [i|]; [|done].
    cbn [mbind result_bind].
    destruct (find_label cols "trip_id") as [t|]; [|done]. cbn [mbind result_bind].
    destruct (find_label cols "fare") as [j|]; [|done]. cbn [mbind result_bind rows].
    do 2 f_equal.
    assert (∀ rs0 : list (list Cell),
              group_key <$> column_at i rs0 = (λ r, group_key (r !!! i)) <$> rs0)
      as Hkeys.
    { intros rs0. unfold column_at. by rewrite <- list_fmap_compose. }
    rewrite !Hkeys.
    rewrite (group_keys_Permutation_eq cell_le _ ((λ r, group_key (r !!! i)) <$> rs'))
      by (by rewrite Hp).
    apply list_fmap_ext. intros _ k _.
    rewrite !(group_values_rows group_key i). unfold mean_cells, column_at.
    by rewrite Hp.
Qed.

Lemma aggregates_ignore_record_order_witness :
  rows scenario ≡ₚ reverse (rows scenario)
  ∧ exact_rounding (mkFrame (columns scenario) (rows scenario)) "fare"
  ∧ exact_sums (mkFrame (columns scenario) (rows scenario)) "distance_miles"
  ∧ exact_sums (mkFrame (columns scenario) (rows scenario)) "duration_min"
  ∧ create_kpi_metrics (mkFrame (columns scenario) (rows scenario))
    = create_kpi_metrics (mkFrame (columns scenario) (reverse (rows scenario)))
  ∧ create_trend_chart (mkFrame (columns scenario) (rows scenario))
    = create_trend_chart (mkFrame (columns scenario) (reverse (rows scenario))).
Proof.
  assert (rows scenario ≡ₚ reverse (rows scenario)) as H
    by (symmetry; apply reverse_Permutation).
  assert (exact_rounding (mkFrame (columns scenario) (rows scenario)) "fare") as Hf.
  { intros j Hj. vm_compute in Hj. injection Hj as <-. by_evaluation. }
  assert (exact_sums (mkFrame (columns scenario) (rows scenario)) "distance_miles")
    as Hd.
  { intros j Hj. vm_compute in Hj. injection Hj as <-. by_evaluation. }
  assert (exact_sums (mkFrame (columns scenario) (rows scenario)) "duration_min")
    as Hu.
  { intros j Hj. vm_compute in Hj. injection Hj as <-. by_evaluation. }
  split; [exact H|]. split; [exact Hf|]. split; [exact Hd|]. split; [exact Hu|].
  destruct (aggregates_ignore_record_order simd_kind (columns scenario) _ _ H Hf Hd Hu)
    as (Hk & _ & Ht & _).
  by split.
Defined.

(** ** The filters and the charts *)

Lemma selected_active flt c :
  ¬ select_all flt → selected flt c = true → ∃ s, c = Str s ∧ s ∈ flt.
Proof.
  unfold select_all, selected. intros Hn.
  rewrite (bool_decide_eq_true_2 (flt ≠ [])) by tauto.
  rewrite (bool_decide_eq_true_2 ("All" ∉ flt)) by tauto.
  cbn [andb]. destruct c as [|z|s|t]; simpl; try done.
  intros Hs%bool_decide_eq_true. by exists s.
Qed.

(** X21.  The charts show what was selected.  On a filtered frame: every day
    of the trend lies in the date range, bounds included; with a pickup
    selection that restricts, every location of the ranking by pickup is one
    of the selected values, and so for the ranking by dropoff; with a
    vehicle selection that restricts, every slice of the breakdown by
    vehicle type is a selected vehicle type. *)
Theorem charts_respect_the_filters kind df lay date_range pickup_filter
    dropoff_filter vehicle_filter out :
  layout (columns df) = Some lay →
  Forall (λ r, dt_ok (r !!! date_i lay)) (rows df) →
  apply_filters df date_range pickup_filter dropoff_filter vehicle_filter = Ok out →
  (∀ start_date end_date trend d v,
     date_range = [start_date; end_date] →
     create_trend_chart out = Ok trend → (d, v) ∈ trend →
     start_date ≤ d ≤ end_date)
  ∧ (∀ ranking k v,
       ¬ select_all pickup_filter →
       create_location_chart kind out "pickup" = Ok ranking → (k, v) ∈ ranking →
       ∃ s, k = Str s ∧ s ∈ pickup_filter)
  ∧ (∀ ranking k v,
       ¬ select_all dropoff_filter →
       create_location_chart kind out "dropoff" = Ok ranking → (k, v) ∈ ranking →
       ∃ s, k = Str s ∧ s ∈ dropoff_filter)
  ∧ (∀ breakdown k v,
       ¬ select_all vehicle_filter →
       create_donut_chart out "vehicle_type" = Ok breakdown → (k, v) ∈ breakdown →
       ∃ s, k = Str s ∧ s ∈ vehicle_filter).
Proof.
  intros Hlay Hok Hout.
  apply (apply_filters_Ok_rows _ lay) in Hout as ->; [|done].
  set (kept := filter _ (rows df)).
  assert (∀ r, r ∈ kept →
            passes lay date_range pickup_filter dropoff_filter vehicle_filter r)
    as Hkept by (by intros r [? _]%list_elem_of_filter).
  pose proof (layout_find _ _ Hlay) as Hf.
  injection Hf as Hd _ Hfare _ _ _ Hpick Hdrop _ Hveh.
  assert (∀ location_type i ranking k v,
    find_label (columns df) location_type = Some i →
    create_location_chart kind (mkFrame (columns df) kept) location_type
      = Ok ranking →
    (k, v) ∈ ranking → ∃ r, r ∈ kept ∧ r !!! i = k) as Hrank.
  { intros location_type i ranking k v Hi.
    rewrite (create_location_chart_rows kind _ _ i (fare_i lay)) by done.
    intros [= <-]. intros Hin%subseteq_take.
    rewrite sort_values_desc_Permutation in Hin.
    apply elem_of_groupby_rows in Hin as [(r & Hr & [? _]%group_key_Some) _].
    by exists r. }
  split_and!.
  - intros start_date end_date trend d v ->.
    rewrite (create_trend_chart_rows _ (date_i lay) (fare_i lay)); [|done..|].
    + intros [= <-] [(r & Hr & Hday) _]%elem_of_groupby_rows.
      specialize (Hkept r Hr). unfold passes in Hkept.
      rewrite !andb_True in Hkept. destruct Hkept as [[[Hin _] _] _].
      cbn [in_date_range] in Hin. cbn [rows] in Hday. rewrite Hday in Hin.
      cbn [in_range] in Hin. rewrite andb_True, !bool_decide_spec in Hin. done.
    + apply forallb_forall. intros r [_ Hr]%list_elem_of_In%list_elem_of_filter.
      rewrite Forall_forall in Hok. by apply Is_true_true, Hok.
  - intros ranking k v Hn Hc Hin.
    destruct (Hrank "pickup" _ _ _ _ Hpick Hc Hin) as (r & Hr & <-).
    specialize (Hkept r Hr). unfold passes in Hkept. rewrite !andb_True in Hkept.
    apply selected_active; [done|]. apply Is_true_true. tauto.
  - intros ranking k v Hn Hc Hin.
    destruct (Hrank "dropoff" _ _ _ _ Hdrop Hc Hin) as (r & Hr & <-).
    specialize (Hkept r Hr). unfold passes in Hkept. rewrite !andb_True in Hkept.
    apply selected_active; [done|]. apply Is_true_true. tauto.
  - intros breakdown k v Hn.
    rewrite (create_groupby_chart_rows _ _ (vehicle_i lay) (fare_i lay)) by done.
    intros [= <-] [(r & Hr & [<- _]%group_key_Some) _]%elem_of_groupby_rows.
    specialize (Hkept r Hr). unfold passes in Hkept. rewrite !andb_True in Hkept.
    apply selected_active; [done|]. apply Is_true_true. tauto.
Qed.

Lemma charts_respect_the_filters_witness :
  layout (columns scenario) = Some sample_layout
  ∧ Forall (λ r, dt_ok (r !!! date_i sample_layout)) (rows scenario)
  ∧ apply_filters scenario
      [days_from_civil 2024 1 1; days_from_civil 2024 1 1] ["A"; "B"] [] ["Auto"]
    = Ok scenario_first_day
  ∧ create_trend_chart scenario_first_day = Ok [(days_from_civil 2024 1 1, 100)]
  ∧ ∀ d v, (d, v) ∈ [(days_from_civil 2024 1 1, 100)] →
           days_from_civil 2024 1 1 ≤ d ≤ days_from_civil 2024 1 1.
Proof.
  assert (layout (columns scenario) = Some sample_layout) as Hlay by (by vm_compute).
  assert (apply_filters scenario
            [days_from_civil 2024 1 1; days_from_civil 2024 1 1]
            ["A"; "B"] [] ["Auto"] = Ok scenario_first_day) as H
    by (by vm_compute).
  assert (create_trend_chart scenario_first_day
          = Ok [(days_from_civil 2024 1 1, 100)]) as Ht by (by vm_compute).
  split; [exact Hlay|]. split; [exact scenario_dates|]. split; [exact H|].
  split; [exact Ht|]. intros d v.
  exact (proj1 (charts_respect_the_filters stable_kind scenario sample_layout
                  _ _ _ _ _ Hlay scenario_dates H) _ _ _ d v eq_refl Ht).
Defined.
